(** * SEO analyzer: the scoring and analysis engine of [app.py]

    A shallow embedding of the four analysis functions of [src/app.py]
    ([analyze_meta_tags], [analyze_on_page_content], [analyze_links],
    [analyze_technical_seo]) and of the weighted overall score, followed by
    the properties of the specification that concern them.

    Conventions of the embedding:
    - Python [int] is [Z]. A Python [float] that is only compared with
      constants or bounded (the scores, which are quotients of small
      integers, the load time, the readability value) is an exact rational
      [Q]; the keyword densities, whose sum the specification speaks of,
      are binary64 numbers, the primitive [float] of the kernel, computed
      with the operations of the program;
    - Python [str] is [string], for texts of characters with a code
      point below 256, one [ascii] each, with the white space, the word
      characters and the capitals that Python has among them (U+0085 and
      U+00A0 are white space, the letters of Latin-1 are word
      characters); texts with other characters are outside the model;
    - a parsed document (a BeautifulSoup tree) is the inductive type
      [BS4.node]; the in-place [decompose] of [analyze_on_page_content] is
      modelled by returning the document as it is left behind;
    - exceptions are values of the type [exn], carried by [result];
      [try]/[except] is [try_except];
    - the libraries the program calls ([urllib.parse], [textstat], [json],
      [requests]) are the fields of the class [Libs] and the argument
      [network]; a request is answered, raises a [RequestException] or
      raises another exception. *)

From Stdlib Require Import ZArith QArith List String Ascii Bool Lia Lqa.
From Stdlib Require Import Sorted Permutation DecimalString PrimFloat.
From Stdlib Require Uint63 FloatOps SpecFloat.
Import ListNotations.

Set Warnings "-register-all".

Open Scope bool_scope.
Open Scope string_scope.
Open Scope list_scope.
Open Scope Z_scope.

(* ================================================================== *)
(** * Python values: [str], [collections.Counter], exceptions *)
(* ================================================================== *)

Module Py.

(** ** [str]

    A character is a code point below 256; the classes are those of
    Python on these code points. *)

Definition ord (c : ascii) : nat := nat_of_ascii c.

Definition between (lo hi n : nat) : bool := Nat.leb lo n && Nat.leb n hi.

(** [str.isspace], the white space of [strip], [split] and of [\s] in
    [re]: tab, line feed, vertical tab, form feed, carriage return, the
    separators 28..31, the space, the next line character U+0085 and the
    no-break space U+00A0. *)
Definition isspace (c : ascii) : bool :=
  between 9 13 (ord c) || between 28 32 (ord c) ||
  Nat.eqb (ord c) 133 || Nat.eqb (ord c) 160.

(** The characters that [str.lower] changes: the capitals of ASCII and of
    Latin-1. *)
Definition isupper (c : ascii) : bool :=
  between 65 90 (ord c) || between 192 214 (ord c) || between 216 222 (ord c).

(** The letters and the digits of ASCII. *)
Definition isalpha (c : ascii) : bool :=
  between 65 90 (ord c) || between 97 122 (ord c).
Definition isdigit (c : ascii) : bool := between 48 57 (ord c).

(** [\w] of [re]: the letters and digits of ASCII, the underscore, and
    the letters and numeric characters of Latin-1. *)
Definition isword (c : ascii) : bool :=
  isalpha c || isdigit c || Nat.eqb (ord c) 95 ||
  Nat.eqb (ord c) 170 || between 178 179 (ord c) || Nat.eqb (ord c) 181 ||
  between 185 186 (ord c) || between 188 190 (ord c) ||
  between 192 214 (ord c) || between 216 246 (ord c) ||
  between 248 255 (ord c).

Definition lower_char (c : ascii) : ascii :=
  if isupper c then ascii_of_nat (ord c + 32) else c.

Fixpoint lower (s : string) : string :=
  match s with
  | EmptyString => EmptyString
  | String c s' => String (lower_char c) (lower s')
  end.

(** Truth value of a string: non-empty. *)
Definition truthy (s : string) : bool :=
  match s with EmptyString => false | String _ _ => true end.

(** Truth value of [d.get(k)] and of [tag.get(k)]: present and non-empty. *)
Definition truthy_opt (o : option string) : bool :=
  match o with Some s => truthy s | None => false end.

Fixpoint lstrip (s : string) : string :=
  match s with
  | EmptyString => EmptyString
  | String c s' => if isspace c then lstrip s' else s
  end.

Fixpoint rstrip (s : string) : string :=
  match s with
  | EmptyString => EmptyString
  | String c s' =>
      match rstrip s' with
      | EmptyString => if isspace c then EmptyString else String c EmptyString
      | r => String c r
      end
  end.

Definition strip (s : string) : string := rstrip (lstrip s).

Definition startswith (s p : string) : bool := String.prefix p s.

(** [sub in s]. *)
Fixpoint contains (sub s : string) : bool :=
  String.prefix sub s ||
  match s with
  | EmptyString => false
  | String _ s' => contains sub s'
  end.

Fixpoint drop (n : nat) (s : string) : string :=
  match n, s with
  | O, _ => s
  | S n', String _ s' => drop n' s'
  | S _, EmptyString => EmptyString
  end.

Definition cons_word (w : string) (ws : list string) : list string :=
  if truthy w then w :: ws else ws.

(** [s.split()]: the maximal runs of non-space characters. The first
    component is the run being read, at the head of the string. *)
Fixpoint split_run (s : string) : string * list string :=
  match s with
  | EmptyString => (EmptyString, [])
  | String c s' =>
      let '(w, ws) := split_run s' in
      if isspace c then (EmptyString, cons_word w ws) else (String c w, ws)
  end.

Definition split (s : string) : list string :=
  let '(w, ws) := split_run s in cons_word w ws.

(** [s.split(c, 1)[1]], when [c] occurs in [s]. *)
Fixpoint split1_snd (c : ascii) (s : string) : option string :=
  match s with
  | EmptyString => None
  | String a s' => if Ascii.eqb a c then Some s' else split1_snd c s'
  end.

(** [s.split(sub)[-1]]: what follows the last occurrence of [sub]. *)
Fixpoint split_last (sub s : string) : string :=
  match s with
  | EmptyString => EmptyString
  | String _ s' =>
      if contains sub s' then split_last sub s'
      else if String.prefix sub s then drop (String.length sub) s
      else s
  end.

(** Line boundaries of [str.splitlines]. *)
Definition islinebreak (c : ascii) : bool :=
  between 10 13 (ord c) || between 28 30 (ord c) || Nat.eqb (ord c) 133.

(** [s.splitlines()]; the pair is (line being read, following lines);
    a carriage return directly followed by a line feed is one boundary. *)
Fixpoint splitlines_run (s : string) : string * list string :=
  match s with
  | EmptyString => (EmptyString, [])
  | String c s' =>
      let '(l, ls) := splitlines_run s' in
      if islinebreak c then
        match s' with
        | EmptyString => (EmptyString, [])
        | String c' _ =>
            if Nat.eqb (ord c) 13 && Nat.eqb (ord c') 10
            then (EmptyString, ls)
            else (EmptyString, l :: ls)
        end
      else (String c l, ls)
  end.

Definition splitlines (s : string) : list string :=
  match s with
  | EmptyString => []
  | _ => let '(l, ls) := splitlines_run s in l :: ls
  end.

(** [str(n)] for an integer. *)
Definition str_of_int (n : Z) : string := NilZero.string_of_int (Z.to_int n).

(** ** [dict] with string keys and values, in insertion order *)

Definition dict := list (string * string).

(** [d.get(k)]. *)
Fixpoint dict_get (d : dict) (k : string) : option string :=
  match d with
  | [] => None
  | (k', v) :: d' => if String.eqb k' k then Some v else dict_get d' k
  end.

(** [d[k] = v]. *)
Fixpoint dict_set (d : dict) (k v : string) : dict :=
  match d with
  | [] => [(k, v)]
  | (k', v') :: d' =>
      if String.eqb k' k then (k', v) :: d' else (k', v') :: dict_set d' k v
  end.

(** ** [float]

    [float(n)] for an [int] below 2^53, which binary64 holds exactly, and
    the true division [a / b] of two such integers: the quotient, rounded
    to the nearest binary64 number. *)
Definition float_of_int (n : Z) : float := of_uint63 (Uint63.of_Z n).

Definition true_div (a b : Z) : float :=
  (float_of_int a / float_of_int b)%float.

(** ** [collections.Counter]

    A dictionary from keys to counts in insertion order: a key enters at
    the end, on its first increment. *)

Definition Counter := list (string * Z).

(** [c[k]]: 0 for a missing key, which is not inserted. *)
Fixpoint counter_get (c : Counter) (k : string) : Z :=
  match c with
  | [] => 0
  | (k', n) :: c' => if String.eqb k' k then n else counter_get c' k
  end.

(** [c[k] += 1]. *)
Fixpoint counter_incr (c : Counter) (k : string) : Counter :=
  match c with
  | [] => [(k, 1)]
  | (k', n) :: c' =>
      if String.eqb k' k then (k', n + 1) :: c'
      else (k', n) :: counter_incr c' k
  end.

(** [Counter(iterable)]. *)
Definition counter_of (l : list string) : Counter :=
  fold_left counter_incr l [].

(** Stable insertion in a list ordered by count, largest first: the new
    entry goes in front of the first entry it is not smaller than. *)
Fixpoint insert_desc (x : string * Z) (l : Counter) : Counter :=
  match l with
  | [] => [x]
  | y :: l' => if snd y <=? snd x then x :: l else y :: insert_desc x l'
  end.

(** [sorted(c.items(), key=itemgetter(1), reverse=True)]: a stable sort,
    entries with equal counts keep their insertion order. *)
Definition sorted_desc (c : Counter) : Counter :=
  fold_right insert_desc [] c.

(** [c.most_common(n)]. *)
Definition most_common (n : nat) (c : Counter) : Counter :=
  firstn n (sorted_desc c).

(** ** Exceptions *)

Inductive exn : Type :=
| RequestException (msg : string)   (* requests.exceptions.RequestException *)
| JSONDecodeError (msg : string)    (* json.JSONDecodeError *)
| Exception (msg : string).         (* any other exception *)

Inductive result (A : Type) : Type :=
| Ok (a : A)
| Raise (e : exn).

Arguments Ok {A} a.
Arguments Raise {A} e.

Definition bind {A B} (m : result A) (k : A -> result B) : result B :=
  match m with
  | Ok a => k a
  | Raise e => Raise e
  end.

(** [try: m  except <class>: handler]; [catches e] tells whether the
    exception [e] is an instance of the class. *)
Definition try_except {A} (m : result A) (catches : exn -> bool)
    (handler : exn -> result A) : result A :=
  match m with
  | Ok a => Ok a
  | Raise e => if catches e then handler e else Raise e
  end.

Definition is_RequestException (e : exn) : bool :=
  match e with RequestException _ => true | _ => false end.

Definition is_JSONDecodeError (e : exn) : bool :=
  match e with JSONDecodeError _ => true | _ => false end.

(** Every exception is an instance of [Exception]. *)
Definition is_Exception (e : exn) : bool := true.

Definition exn_str (e : exn) : string :=
  match e with
  | RequestException m => m
  | JSONDecodeError m => m
  | Exception m => m
  end.

End Py.

Import Py.

Notation "x <- m ;; k" := (Py.bind m (fun x => k))
  (at level 61, m at next level, right associativity).

(* ================================================================== *)
(** * The parsed document (BeautifulSoup) *)
(* ================================================================== *)

Module BS4.

(** A node of the tree: a text node or an element with its attribute
    dictionary and its children, in document order. The document itself is
    an element (named [[document]]) whose children are the top-level
    nodes. *)
Inductive node : Type :=
| NavigableString (s : string)
| Tag (name : string) (attrs : dict) (contents : list node).

Definition is_tag (n : node) : bool :=
  match n with Tag _ _ _ => true | NavigableString _ => false end.

Definition name (n : node) : string :=
  match n with Tag nm _ _ => nm | NavigableString _ => EmptyString end.

Definition named (nm : string) (n : node) : bool :=
  match n with Tag nm' _ _ => String.eqb nm' nm | NavigableString _ => false end.

Definition named_in (nms : list string) (n : node) : bool :=
  existsb (fun nm => named nm n) nms.

(** [tag.get(k)]. *)
Definition get (n : node) (k : string) : option string :=
  match n with
  | Tag _ attrs _ => dict_get attrs k
  | NavigableString _ => None
  end.

(** [tag.get(k, default)]. *)
Definition get_default (n : node) (k : string) (default : string) : string :=
  match get n k with Some v => v | None => default end.

(** Attribute filters of [find] and [find_all]. *)

(** [attrs={k: v}] on a single-valued attribute. *)
Definition attr_is (k v : string) (n : node) : bool :=
  match get n k with Some x => String.eqb x v | None => false end.

(** [k=True]. *)
Definition attr_present (k : string) (n : node) : bool :=
  match get n k with Some _ => true | None => false end.

(** [k=f] on a single-valued attribute; a missing attribute is [None],
    on which the filters of the program are false. *)
Definition attr_sat (k : string) (f : string -> bool) (n : node) : bool :=
  match get n k with Some x => f x | None => false end.

(** A filter on the multi-valued attribute [rel]: it holds when one of the
    whitespace-separated values satisfies it, or the values joined by single
    spaces do. *)
Definition rel_sat (f : string -> bool) (n : node) : bool :=
  match get n "rel" with
  | Some x => existsb f (split x) || f (String.concat " " (split x))
  | None => false
  end.

Definition rel_is (v : string) (n : node) : bool :=
  rel_sat (fun x => String.eqb x v) n.

(** The proper descendants of a node, in document order. *)
Fixpoint descendants (n : node) : list node :=
  match n with
  | NavigableString _ => []
  | Tag _ _ cs => flat_map (fun c => c :: descendants c) cs
  end.

(** [n.find_all(...)] and [n.find(...)], the filter given as a predicate. *)
Definition find_all (p : node -> bool) (n : node) : list node :=
  filter (fun d => is_tag d && p d) (descendants n).

Definition find (p : node -> bool) (n : node) : option node :=
  hd_error (find_all p n).

(** The text nodes below (or at) a node, in document order. *)
Fixpoint strings (n : node) : list string :=
  match n with
  | NavigableString s => [s]
  | Tag _ _ cs => flat_map strings cs
  end.

(** [n.get_text(separator=sep, strip=True)]: every text node stripped, the
    empty ones dropped, the rest joined. *)
Definition get_text (sep : string) (n : node) : string :=
  String.concat sep (filter truthy (map strip (strings n))).

(** [tag.string]: the text of an element whose only child is a text node,
    looking through a chain of single children. *)
Fixpoint string_of (n : node) : option string :=
  match n with
  | NavigableString s => Some s
  | Tag _ _ [c] => string_of c
  | Tag _ _ _ => None
  end.

(** The element [n] after [e.decompose()] for every descendant [e] that
    satisfies [p]. *)
Fixpoint prune (p : node -> bool) (n : node) : node :=
  match n with
  | NavigableString s => NavigableString s
  | Tag nm attrs cs =>
      Tag nm attrs
        ((fix go (l : list node) : list node :=
            match l with
            | [] => []
            | c :: l' =>
                if is_tag c && p c then go l' else prune p c :: go l'
            end) cs)
  end.

(** The tree [n] in which the first proper descendant that satisfies [p]
    (the element [n.find(p)]) is replaced by its image under [f]; [None]
    when there is none. *)
Fixpoint update_first (p : node -> bool) (f : node -> node) (n : node)
  : option node :=
  match n with
  | NavigableString _ => None
  | Tag nm attrs cs =>
      option_map (Tag nm attrs)
        ((fix go (l : list node) : option (list node) :=
            match l with
            | [] => None
            | c :: l' =>
                if is_tag c && p c then Some (f c :: l')
                else match update_first p f c with
                     | Some c' => Some (c' :: l')
                     | None => option_map (cons c) (go l')
                     end
            end) cs)
  end.

End BS4.

Import BS4.

(* ================================================================== *)
(** * Libraries called by the analyzers *)
(* ================================================================== *)

(** What [json.loads] returns, as far as the program looks at it: an object
    with the text [str(o.get('@type'))] when that entry is present and
    true, an array, or any other value. *)
Inductive json : Type :=
| JObject (type_ : option string)
| JArray (items : list json)
| JOther.

(** [urllib.parse], [textstat] and [json]. The URL functions are those
    of the library where it returns: on a URL whose host has an unmatched
    or ill-formed bracket (as "http://[") Python raises [ValueError], and
    a document with such an href, on which [analyze_meta_tags] and
    [analyze_links] raise it, is outside the model. *)
Class Libs : Type := {
  (** [urljoin(base, url)] *)
  urljoin : string -> string -> string;
  (** [urlparse(url).scheme] *)
  urlparse_scheme : string -> string;
  (** [urlparse(url).netloc] *)
  urlparse_netloc : string -> string;
  (** [textstat.flesch_reading_ease(text)] *)
  flesch_reading_ease : string -> result Q;
  (** [json.loads(s)], [s] being [tag.string] *)
  json_loads : option string -> result json
}.

(** ** [requests]

    One HTTP request and what comes of it: a response; a failure that
    [requests] raises as a [RequestException] (timeouts and connection
    errors are instances of it); or a failure that it raises as another
    exception, for [requests] does not wrap every error of [urllib3] (a
    URL whose host has an empty label, as "http://a..com/x", raises the
    [LocationParseError] of [urllib3], which is not a [RequestException]).
    What comes of a request is a function of the request. *)

Inductive http_method : Type := GET | HEAD.

Record response : Type := { status_code : Z; text : string }.

Inductive outcome : Type :=
| Responds (r : response)
| Fails (msg : string)     (* raise RequestException(msg) *)
| Breaks (msg : string).   (* raise an exception that is no RequestException *)

Definition network := http_method -> string -> outcome.

(** Computations that send requests: the requests sent so far are threaded
    through, and an exception leaves them as they are. *)
Definition io (A : Type) : Type :=
  list (http_method * string) -> result A * list (http_method * string).

Definition io_ret {A} (a : A) : io A := fun tr => (Ok a, tr).

Definition io_bind {A B} (m : io A) (k : A -> io B) : io B :=
  fun tr =>
    match m tr with
    | (Ok a, tr') => k a tr'
    | (Raise e, tr') => (Raise e, tr')
    end.

Definition io_try_except {A} (m : io A) (catches : exn -> bool)
    (handler : exn -> io A) : io A :=
  fun tr =>
    match m tr with
    | (Ok a, tr') => (Ok a, tr')
    | (Raise e, tr') => if catches e then handler e tr' else (Raise e, tr')
    end.

Notation "x <~ m ;; k" := (io_bind m (fun x => k))
  (at level 61, m at next level, right associativity).

Definition request (net : network) (m : http_method) (url : string)
  : io response :=
  fun tr =>
    match net m url with
    | Responds r => (Ok r, tr ++ [(m, url)])
    | Fails msg => (Raise (RequestException msg), tr ++ [(m, url)])
    | Breaks msg => (Raise (Exception msg), tr ++ [(m, url)])
    end.

(** [requests.get(url, ...)] and [requests.head(url, ...)]. *)
Definition requests_get (net : network) (url : string) : io response :=
  request net GET url.
Definition requests_head (net : network) (url : string) : io response :=
  request net HEAD url.

(* ================================================================== *)
(** * Configuration and constants *)
(* ================================================================== *)

Definition MIN_CONTENT_LENGTH_WORDS : Z := 300.
Definition GOOD_LOAD_TIME_THRESHOLD : Q := 2.
Definition OK_LOAD_TIME_THRESHOLD : Q := 4.
Definition GOOD_READABILITY_THRESHOLD : Q := 60.
Definition MAX_KEYWORDS_TO_SHOW : nat := 10.

(** The dictionary [scoring] of every analyzer. *)
Record scoring : Type := { points : Z; max_points : Z }.

Definition add_points (sc : scoring) (n : Z) : scoring :=
  {| points := points sc + n; max_points := max_points sc |}.

(** [(scoring['points'] / scoring['max_points']) * 100
     if scoring['max_points'] > 0 else 0]. *)
Definition category_score (sc : scoring) : Q :=
  if 0 <? max_points sc
  then ((inject_Z (points sc) / inject_Z (max_points sc)) * 100)%Q
  else 0%Q.

(** [get_domain(url)]. *)
Definition get_domain `{Libs} (url : string) : string := urlparse_netloc url.

(** [clean_text(text)]. *)
Fixpoint keep_word_chars (s : string) : string :=
  match s with
  | EmptyString => EmptyString
  | String c s' =>
      if isword c || isspace c || Ascii.eqb c "-"
      then String c (keep_word_chars s')
      else keep_word_chars s'
  end.

(** [re.sub(r'\s+', ' ', s)]; [in_run] tells that the previous character
    was a space, already replaced. *)
Fixpoint collapse_spaces (in_run : bool) (s : string) : string :=
  match s with
  | EmptyString => EmptyString
  | String c s' =>
      if isspace c
      then (if in_run then collapse_spaces true s'
            else String " " (collapse_spaces true s'))
      else String c (collapse_spaces false s')
  end.

Definition clean_text (text : string) : string :=
  let text := lower text in
  let text := keep_word_chars text in
  strip (collapse_spaces false text).

(* ================================================================== *)
(** * [analyze_meta_tags] *)
(* ================================================================== *)

(** The dictionary [meta_data]: its string entries (an entry that is
    [None] is absent from [fields]) and the list under ['alternate'], of
    pairs (hreflang, href). *)
Record meta_data : Type := {
  fields : dict;
  alternate : list (string * string)
}.

Definition md_get (md : meta_data) (k : string) : option string :=
  dict_get (fields md) k.

Definition md_set (md : meta_data) (k v : string) : meta_data :=
  {| fields := dict_set (fields md) k v; alternate := alternate md |}.

(** [tag and tag.get(k)]: the value when the element exists and has a
    non-empty attribute [k]. *)
Definition tag_get_truthy (tag : option node) (k : string) : option string :=
  match tag with
  | Some t => match get t k with
              | Some v => if truthy v then Some v else None
              | None => None
              end
  | None => None
  end.

(** [soup.find('meta', attrs={'name': nm})]. *)
Definition find_meta_named (soup : node) (nm : string) : option node :=
  find (fun t => named "meta" t && attr_is "name" nm t) soup.

(** A [<meta name=nm content=...>] whose content is recorded under [key]
    and is worth [pts] points. *)
Definition meta_name_check (soup : node) (nm key : string) (pts : Z)
    (st : meta_data * scoring) : meta_data * scoring :=
  let '(md, sc) := st in
  match tag_get_truthy (find_meta_named soup nm) "content" with
  | Some content => (md_set md key (strip content), add_points sc pts)
  | None => (md, add_points sc 0)
  end.

(** The loops over the Open Graph and the Twitter tags. *)
Definition social_step (key_attr : string) (md : meta_data) (tag : node)
  : meta_data :=
  match get tag key_attr, get tag "content" with
  | Some prop, Some content =>
      if truthy prop && truthy content
      then md_set md prop (strip content) else md
  | _, _ => md
  end.

Definition all_truthy (md : meta_data) (keys : list string) : bool :=
  forallb (fun k => truthy_opt (md_get md k)) keys.

Definition is_icon_rel (x : string) : bool :=
  truthy x && contains "icon" (lower x).

(** Every check of the function maps the pair of [meta_data] and
    [scoring] it finds to the pair it leaves. *)
Definition meta_state : Type := meta_data * scoring.

(** Title *)
Definition check_title (soup : node) (st : meta_state) : meta_state :=
  let '(md, sc) := st in
  let title_tag := find (named "title") soup in
  match title_tag with
  | Some t =>
      match string_of t with
      | Some s => if truthy s
                  then (md_set md "title" (strip s), add_points sc 5)
                  else (md, add_points sc 0)
      | None => (md, add_points sc 0)
      end
  | None => (md, add_points sc 0)
  end.

(** Canonical URL *)
Definition check_canonical `{Libs} (soup : node) (url : string)
    (st : meta_state) : meta_state :=
  let '(md, sc) := st in
  let canonical_tag :=
    find (fun t => named "link" t && rel_is "canonical" t) soup in
  match tag_get_truthy canonical_tag "href" with
  | Some href => (md_set md "canonical" (urljoin url href), add_points sc 3)
  | None => (md, add_points sc 0)
  end.

(** Open Graph tags *)
Definition check_open_graph (soup : node) (st : meta_state) : meta_state :=
  let '(md, sc) := st in
  let og_tags :=
    find_all (fun t => named "meta" t &&
                attr_sat "property" (fun x => truthy x && startswith x "og:") t)
             soup in
  let md := fold_left (social_step "property") og_tags md in
  if all_truthy md ["og:title"; "og:description"; "og:image"]
  then (md, add_points sc 3) else (md, sc).

(** Twitter Card tags *)
Definition check_twitter (soup : node) (st : meta_state) : meta_state :=
  let '(md, sc) := st in
  let twitter_tags :=
    find_all (fun t => named "meta" t &&
                attr_sat "name" (fun x => truthy x && startswith x "twitter:") t)
             soup in
  let md := fold_left (social_step "name") twitter_tags md in
  if all_truthy md ["twitter:card"; "twitter:title"; "twitter:description"]
  then (md, add_points sc 2) else (md, sc).

(** Viewport *)
Definition check_viewport (soup : node) (st : meta_state) : meta_state :=
  let '(md, sc) := st in
  match tag_get_truthy (find_meta_named soup "viewport") "content" with
  | Some content =>
      let md := md_set md "viewport" (strip content) in
      let viewport := strip content in
      if contains "width=device-width" viewport &&
         contains "initial-scale=1" viewport
      then (md, add_points sc 3)
      else if contains "width=device-width" viewport
      then (md, add_points sc 1)
      else (md, sc)
  | None => (md, add_points sc 0)
  end.

(** Author *)
Definition check_author (soup : node) (st : meta_state) : meta_state :=
  let '(md, sc) := st in
  match tag_get_truthy (find_meta_named soup "author") "content" with
  | Some content => (md_set md "author" (strip content), add_points sc 1)
  | None => (md, sc)
  end.

(** Charset, with the http-equiv tag as a fallback *)
Definition check_charset (soup : node) (st : meta_state) : meta_state :=
  let '(md, sc) := st in
  let charset_tag :=
    find (fun t => named "meta" t && attr_present "charset" t) soup in
  match tag_get_truthy charset_tag "charset" with
  | Some cs => (md_set md "charset" (strip cs), add_points sc 1)
  | None =>
      let http_equiv_tag :=
        find (fun t => named "meta" t && attr_is "http-equiv" "Content-Type" t)
             soup in
      match http_equiv_tag with
      | Some t =>
          if contains "charset=" (get_default t "content" "")
          then (md_set md "charset"
                  (strip (split_last "charset=" (get_default t "content" ""))),
                add_points sc 1)
          else (md, sc)
      | None => (md, sc)
      end
  end.

(** Language *)
Definition check_language (soup : node) (st : meta_state) : meta_state :=
  let '(md, sc) := st in
  let html_tag := find (named "html") soup in
  match tag_get_truthy html_tag "lang" with
  | Some lang => (md_set md "language" (strip lang), add_points sc 1)
  | None => (md, sc)
  end.

(** Favicon *)
Definition check_favicon `{Libs} (soup : node) (url : string)
    (st : meta_state) : meta_state :=
  let '(md, sc) := st in
  let favicons :=
    find_all (fun t => named "link" t && rel_sat is_icon_rel t) soup in
  match favicons with
  | [] => (md, sc)
  | first :: _ =>
      let preferred_favicon :=
        match find (fun t => named "link" t && rel_is "icon" t) soup with
        | Some t => Some t
        | None => find (fun t => named "link" t && rel_is "shortcut icon" t) soup
        end in
      let md :=
        match tag_get_truthy preferred_favicon "href" with
        | Some href => md_set md "favicon" (urljoin url href)
        | None =>
            match tag_get_truthy (Some first) "href" with
            | Some href => md_set md "favicon" (urljoin url href)
            | None => md
            end
        end in
      if truthy_opt (md_get md "favicon") then (md, add_points sc 1)
      else (md, sc)
  end.

(** Alternate links (hreflang) *)
Definition check_alternate `{Libs} (soup : node) (url : string)
    (st : meta_state) : meta_state :=
  let '(md, sc) := st in
  let alt_tags :=
    find_all (fun t => named "link" t && rel_is "alternate" t &&
                attr_present "hreflang" t && attr_present "href" t) soup in
  let md :=
    fold_left
      (fun md tag =>
         {| fields := fields md;
            alternate := alternate md ++
              [(get_default tag "hreflang" "",
                urljoin url (get_default tag "href" ""))] |})
      alt_tags md in
  match alternate md with
  | [] => (md, sc)
  | _ :: _ => (md, add_points sc 3)
  end.

Definition analyze_meta_tags_scoring `{Libs} (soup : node) (url : string)
  : meta_state :=
  let st := ({| fields := []; alternate := [] |},
             {| points := 0; max_points := 28 |}) in
  let st := check_title soup st in
  let st := meta_name_check soup "description" "description" 4 st in
  (* the keywords are recorded, without points *)
  let st := meta_name_check soup "keywords" "keywords" 0 st in
  let st := meta_name_check soup "robots" "robots" 1 st in
  let st := check_canonical soup url st in
  let st := check_open_graph soup st in
  let st := check_twitter soup st in
  let st := check_viewport soup st in
  let st := check_author soup st in
  let st := check_charset soup st in
  let st := check_language soup st in
  let st := check_favicon soup url st in
  check_alternate soup url st.

Definition analyze_meta_tags `{Libs} (soup : node) (url : string)
  : meta_data * Q :=
  let '(md, sc) := analyze_meta_tags_scoring soup url in
  (* Calculate final score for this category *)
  let meta_score := category_score sc in
  (md, meta_score).

(* ================================================================== *)
(** * [analyze_on_page_content] *)
(* ================================================================== *)

(** One entry of ['alt_tags']. *)
Record alt_entry : Type := {
  src : string;
  alt : option string;
  status : string
}.

Record image_alt_analysis : Type := {
  total : Z;
  with_alt : Z;
  missing_alt : Z;
  alt_tags : list alt_entry
}.

(** ['readability_desc']; the variants that print the score stand for the
    formatted strings ["Good (<score> - Fairly easy to read)"],
    ["Okay (<score> - Plain English)"] and
    ["Difficult (<score> - Very confusing)"]. *)
Inductive readability_desc_t : Type :=
| NotCalculated
| Good (score : Q)
| Okay (score : Q)
| Difficult (score : Q)
| CalculationError
| NotEnoughContent.

Record content_data : Type := {
  headings : list (string * list string);
  word_count : Z;
  readability_score : option Q;
  readability_desc : readability_desc_t;
  top_keywords : list (string * Z * float);
  image_alts : image_alt_analysis;
  text_content : string
}.

(** ** Headings *)

Definition heading_names : list string := ["h1"; "h2"; "h3"; "h4"; "h5"; "h6"].

(** [int(h.name[1])]. *)
Definition level_of (nm : string) : Z :=
  match nm with
  | String _ (String d _) => Z.of_nat (ord d) - 48
  | _ => 0
  end.

(** [headings[nm].append(text)], the list being created when missing. *)
Fixpoint headings_append (hs : list (string * list string)) (nm text : string)
  : list (string * list string) :=
  match hs with
  | [] => [(nm, [text])]
  | (k, l) :: hs' =>
      if String.eqb k nm then (k, l ++ [text]) :: hs'
      else (k, l) :: headings_append hs' nm text
  end.

(** [headings.get(nm, [])]. *)
Fixpoint headings_get (hs : list (string * list string)) (nm : string)
  : list string :=
  match hs with
  | [] => []
  | (k, l) :: hs' => if String.eqb k nm then l else headings_get hs' nm
  end.

(** The variables of the loop over the heading tags. *)
Record heading_state : Type := {
  hs_headings : list (string * list string);
  has_h1 : bool;
  heading_hierarchy_ok : bool;
  last_level : Z
}.

Definition heading_init : heading_state :=
  {| hs_headings := []; has_h1 := false;
     heading_hierarchy_ok := true; last_level := 0 |}.

(** The body of the loop, for the heading tag [h]. *)
Definition heading_step (st : heading_state) (h : node) : heading_state :=
  let level := level_of (name h) in
  let text := get_text "" h in
  if negb (truthy text) then st (* skip empty headings *)
  else
    {| hs_headings := headings_append (hs_headings st) (name h) text;
       has_h1 := if String.eqb (name h) "h1" then true else has_h1 st;
       heading_hierarchy_ok :=
         if (last_level st + 1 <? level) && negb (last_level st =? 0)
         then false else heading_hierarchy_ok st;
       last_level := level |}.

Definition scan_headings (heading_tags : list node) : heading_state :=
  fold_left heading_step heading_tags heading_init.

(** The points of the heading block, from the variables the loop leaves. *)
Definition score_headings (st : heading_state) (sc : scoring) : scoring :=
  let ok := heading_hierarchy_ok st in
  let '(sc, ok) :=
    if has_h1 st then
      let sc := add_points sc 5 in
      if 1 <? Z.of_nat (List.length (headings_get (hs_headings st) "h1"))
      then (add_points sc (-2), false)
      else (sc, ok)
    else (sc, ok) in
  if ok && has_h1 st then add_points sc 3
  else if has_h1 st then add_points sc 1
  else sc.

(** ** Content extraction *)

Definition non_content : list string :=
  ["script"; "style"; "nav"; "footer"; "aside"].

(** The element [body] once every descendant among [non_content] is
    decomposed. *)
Definition strip_non_content (body : node) : node :=
  prune (named_in non_content) body.

(** The document as the decompositions leave it: they are done in place,
    in the first [body] element of the tree. *)
Definition soup_after_extraction (soup : node) : node :=
  match update_first (named "body") strip_non_content soup with
  | Some soup' => soup'
  | None => soup
  end.

(** ** Content length *)

Definition score_length (word_count : Z) (sc : scoring) : scoring :=
  if MIN_CONTENT_LENGTH_WORDS <=? word_count then add_points sc 5
  else if 0 <? word_count then add_points sc 2
  else sc.

(** ** Readability *)

Definition Qge_bool (a b : Q) : bool := Qle_bool b a.

Definition score_readability `{Libs} (word_count : Z) (text_content : string)
    (sc : scoring) : result (option Q * readability_desc_t * scoring) :=
  if 50 <? word_count then
    try_except
      (score <- flesch_reading_ease text_content ;;
       if Qge_bool score GOOD_READABILITY_THRESHOLD
       then Ok (Some score, Good score, add_points sc 5)
       else if Qge_bool score 30
       then Ok (Some score, Okay score, add_points sc 2)
       else Ok (Some score, Difficult score, add_points sc 0))
      is_Exception
      (fun _ => Ok (None, CalculationError, sc))
  else Ok (None, NotEnoughContent, sc).

(** ** Keywords *)

Definition stop_words : list string :=
  ["a"; "an"; "the"; "and"; "or"; "but"; "is"; "in"; "it"; "of"; "to"; "on";
   "for"; "with"; "as"; "by"; "at"; "this"; "that"; "i"; "you"; "he"; "she";
   "we"; "they"; "be"; "are"; "was"; "were"; "has"; "have"; "had"; "do";
   "does"; "did"; "will"; "shall"; "should"; "can"; "could"; "may"; "might";
   "must"; "not"; "no"; "so"; "if"; "me"; "my"; "your"; "our"; "its"; "-"; ""].

Definition is_meaningful (word : string) : bool :=
  negb (existsb (String.eqb word) stop_words) &&
  Nat.ltb 2 (String.length word).

(** The entries appended to ['top_keywords'] for a non-empty list of
    meaningful words (and none for the empty list), [k] being the number
    of terms asked of [most_common]. *)
Definition top_terms (k : nat) (meaningful_words : list string)
  : list (string * Z * float) :=
  match meaningful_words with
  | [] => []
  | _ :: _ =>
      let word_counts := counter_of meaningful_words in
      let total_meaningful_words := Z.of_nat (List.length meaningful_words) in
      map (fun '(word, count) =>
             let density :=
               if 0 <? total_meaningful_words
               then (true_div count total_meaningful_words
                     * float_of_int 100)%float
               else float_of_int 0 in
             (word, count, density))
          (most_common k word_counts)
  end.

Definition keyword_entries (meaningful_words : list string)
  : list (string * Z * float) :=
  top_terms MAX_KEYWORDS_TO_SHOW meaningful_words.

Definition analyze_keywords (word_count : Z) (text_content : string)
    (sc : scoring) : list (string * Z * float) * scoring :=
  if 0 <? word_count then
    let cleaned_text := clean_text text_content in
    let words := split cleaned_text in
    let meaningful_words := filter is_meaningful words in
    match meaningful_words with
    | [] => ([], sc)
    | _ :: _ =>
        let top_keywords := keyword_entries meaningful_words in
        match top_keywords with
        | [] => (top_keywords, sc)
        | _ :: _ => (top_keywords, add_points sc 5)
        end
    end
  else ([], sc).

(** ** Image alt tags *)

Definition image_step (a : image_alt_analysis) (img : node)
  : image_alt_analysis :=
  let alt_text := strip (get_default img "alt" "") in
  let src := get_default img "src" "No Source" in
  if truthy alt_text then
    {| total := total a; with_alt := with_alt a + 1;
       missing_alt := missing_alt a;
       alt_tags := alt_tags a ++
         [{| src := src; alt := Some alt_text; status := "present" |}] |}
  else
    {| total := total a; with_alt := with_alt a;
       missing_alt := missing_alt a + 1;
       alt_tags := alt_tags a ++
         [{| src := src; alt := None; status := "missing" |}] |}.

Definition scan_images (images : list node) : image_alt_analysis :=
  fold_left image_step images
    {| total := Z.of_nat (List.length images); with_alt := 0;
       missing_alt := 0; alt_tags := [] |}.

Definition score_image_alts (a : image_alt_analysis) (sc : scoring) : scoring :=
  if 0 <? total a then
    let alt_percentage :=
      ((inject_Z (with_alt a) / inject_Z (total a)) * 100)%Q in
    if Qge_bool alt_percentage 90 then add_points sc 4
    else if Qge_bool alt_percentage 50 then add_points sc 2
    else add_points sc 0
  else add_points sc 4.

(** ** The analyzer

    Besides the data and the scoring dictionary, the result carries the
    document as the function leaves it to its caller. *)
Definition analyze_on_page_content_scoring `{Libs} (soup : node)
  : result (content_data * scoring * node) :=
  let sc := {| points := 0; max_points := 30 |} in
  (* Headings *)
  let heading_tags := find_all (named_in heading_names) soup in
  let hst := scan_headings heading_tags in
  let sc := score_headings hst sc in
  (* Content extraction *)
  let body := find (named "body") soup in
  let soup := soup_after_extraction soup in
  let raw_text :=
    match body with
    | Some body => get_text " " (strip_non_content body)
    | None => ""
    end in
  let word_count :=
    match body with
    | Some _ => Z.of_nat (List.length (split raw_text))
    | None => 0
    end in
  (* Content length *)
  let sc := score_length word_count sc in
  (* Readability *)
  r <- score_readability word_count raw_text sc ;;
  let '(readability_score, readability_desc, sc) := r in
  (* Keyword analysis *)
  let '(top_keywords, sc) := analyze_keywords word_count raw_text sc in
  (* Image alt tags *)
  let images := find_all (named "img") soup in
  let image_alts := scan_images images in
  let sc := score_image_alts image_alts sc in
  Ok ({| headings := hs_headings hst;
         word_count := word_count;
         readability_score := readability_score;
         readability_desc := readability_desc;
         top_keywords := top_keywords;
         image_alts := image_alts;
         text_content := raw_text |}, sc, soup).

Definition analyze_on_page_content `{Libs} (soup : node)
  : result (content_data * Q * node) :=
  r <- analyze_on_page_content_scoring soup ;;
  let '(cd, sc, soup) := r in
  let content_score := category_score sc in
  Ok (cd, content_score, soup).

(* ================================================================== *)
(** * [analyze_links] *)
(* ================================================================== *)

(** One entry of ['links_all']: the dictionary [link_info]. *)
Record link_info : Type := {
  li_href : string;
  li_text : string;
  li_type : string
}.

Record link_data : Type := {
  internal : list string;
  external : list string;
  internal_count : Z;
  external_count : Z;
  anchor_texts : Counter;
  links_all : list link_info
}.

Definition link_init : link_data :=
  {| internal := []; external := []; internal_count := 0;
     external_count := 0; anchor_texts := []; links_all := [] |}.

Definition EMPTY_ANCHOR : string := "[Empty Anchor]".

Definition is_http_scheme (scheme : string) : bool :=
  existsb (String.eqb scheme) ["http"; "https"].

(** The body of the loop, for the anchor element [link]. *)
Definition link_step `{Libs} (base_url base_domain : string)
    (ld : link_data) (link : node) : link_data :=
  let href := get_default link "href" "" in
  let anchor_text := get_text "" link in
  let full_url := urljoin base_url href in
  (* Basic anchor text analysis *)
  let anchors :=
    if truthy anchor_text
    then counter_incr (anchor_texts ld) anchor_text
    else counter_incr (anchor_texts ld) EMPTY_ANCHOR in
  let info ty := {| li_href := full_url; li_text := anchor_text; li_type := ty |} in
  let scheme := urlparse_scheme full_url in
  if negb (truthy scheme) || negb (is_http_scheme scheme) then
    {| internal := internal ld; external := external ld;
       internal_count := internal_count ld;
       external_count := external_count ld;
       anchor_texts := anchors;
       links_all := links_all ld ++ [info "other"] |}
  else
    let link_domain := get_domain full_url in
    if String.eqb link_domain base_domain then
      {| internal := internal ld ++ [full_url]; external := external ld;
         internal_count := internal_count ld + 1;
         external_count := external_count ld;
         anchor_texts := anchors;
         links_all := links_all ld ++ [info "internal"] |}
    else
      {| internal := internal ld; external := external ld ++ [full_url];
         internal_count := internal_count ld;
         external_count := external_count ld + 1;
         anchor_texts := anchors;
         links_all := links_all ld ++ [info "external"] |}.

(** [soup.find_all('a', href=True)]. *)
Definition anchors_of (soup : node) : list node :=
  find_all (fun t => named "a" t && attr_present "href" t) soup.

Definition scan_links `{Libs} (soup : node) (base_url : string) : link_data :=
  let base_domain := get_domain base_url in
  fold_left (link_step base_url base_domain) (anchors_of soup) link_init.

(** The points, from the data the loop leaves. The test
    [anchor_texts['[Empty Anchor]'] < total_links * 0.5] compares an integer
    with half an integer: it is [2 * anchor_texts[...] < total_links]. *)
Definition score_links (ld : link_data) (sc : scoring) : scoring :=
  let total_links := internal_count ld + external_count ld in
  if 0 <? total_links then
    let sc := add_points sc 5 in
    let sc :=
      if (0 <? internal_count ld) && (0 <? external_count ld) && (5 <? total_links)
      then add_points sc 5 else sc in
    let distinct := Z.of_nat (List.length (anchor_texts ld)) in
    if (3 <? distinct) &&
       (2 * counter_get (anchor_texts ld) EMPTY_ANCHOR <? total_links)
    then add_points sc 5
    else if 1 <? distinct then add_points sc 2
    else sc
  else sc.

Definition analyze_links_scoring `{Libs} (soup : node) (base_url : string)
  : link_data * scoring :=
  let ld := scan_links soup base_url in
  (ld, score_links ld {| points := 0; max_points := 15 |}).

Definition analyze_links `{Libs} (soup : node) (base_url : string)
  : link_data * Q :=
  let '(ld, sc) := analyze_links_scoring soup base_url in
  let link_score := category_score sc in
  (ld, link_score).

(* ================================================================== *)
(** * [analyze_technical_seo] *)
(* ================================================================== *)

Record robots_txt_t : Type := {
  rt_status : string;
  rt_content : option string;
  rt_url : option string
}.

Record sitemap_xml_t : Type := {
  sm_status : string;
  sm_url : option string;
  found_in_robots : bool
}.

Record mobile_friendly_t : Type := {
  mf_status : string;
  mf_reason : string
}.

Record schema_markup_t : Type := {
  present : bool;
  types : list string;
  details : list json
}.

Record tech_data : Type := {
  robots_txt : robots_txt_t;
  sitemap_xml : sitemap_xml_t;
  load_time : option Q;
  load_time_status : string;
  mobile_friendly : mobile_friendly_t;
  https_status : string;
  schema_markup : schema_markup_t
}.

(** ** HTTPS *)

Definition check_https (scheme : string) (sc : scoring) : string * scoring :=
  if String.eqb scheme "https" then ("good", add_points sc 3)
  else ("bad", add_points sc 0).

(** ** robots.txt *)

Definition is_sitemap_line (line : string) : bool :=
  startswith (lower (strip line)) "sitemap:".

(** [line.strip().split(':', 1)[1].strip()]. *)
Definition sitemap_line_value (line : string) : string :=
  match split1_snd ":" (strip line) with
  | Some v => strip v
  | None => ""
  end.

(** The loop over the lines of robots.txt, left at the first directive. *)
Fixpoint find_sitemap_directive (lines : list string) : option string :=
  match lines with
  | [] => None
  | line :: rest =>
      if is_sitemap_line line then Some (sitemap_line_value line)
      else find_sitemap_directive rest
  end.

(** What the robots.txt block leaves: the two dictionaries it writes, the
    scoring and the variable [sitemap_directive_found]. *)
Record robots_result : Type := {
  rr_robots : robots_txt_t;
  rr_sitemap : sitemap_xml_t;
  rr_scoring : scoring;
  sitemap_directive_found : option string
}.

Definition check_robots (net : network) (robots_url : string) (sc : scoring)
  : io robots_result :=
  let sitemap0 :=
    {| sm_status := "Not Checked"; sm_url := None; found_in_robots := false |} in
  io_try_except
    (robots_res <~ requests_get net robots_url ;;
     if status_code robots_res =? 200 then
       let sc := add_points sc 4 in
       let directive := find_sitemap_directive (splitlines (text robots_res)) in
       io_ret
         {| rr_robots := {| rt_status := "Found";
                            rt_content := Some (text robots_res);
                            rt_url := Some robots_url |};
            rr_sitemap :=
              match directive with
              | Some u => {| sm_status := "Not Checked"; sm_url := Some u;
                             found_in_robots := true |}
              | None => sitemap0
              end;
            rr_scoring := sc;
            sitemap_directive_found := directive |}
     else if status_code robots_res =? 404 then
       io_ret
         {| rr_robots := {| rt_status := "Not Found"; rt_content := None;
                            rt_url := Some robots_url |};
            rr_sitemap := sitemap0;
            rr_scoring := add_points sc 0;
            sitemap_directive_found := None |}
     else
       io_ret
         {| rr_robots :=
              {| rt_status :=
                   ("Error (Status: " ++ str_of_int (status_code robots_res) ++ ")")%string;
                 rt_content := None; rt_url := Some robots_url |};
            rr_sitemap := sitemap0;
            rr_scoring := add_points sc 0;
            sitemap_directive_found := None |})
    is_RequestException
    (fun e =>
       io_ret
         {| rr_robots := {| rt_status := ("Error fetching: " ++ exn_str e)%string;
                            rt_content := None; rt_url := Some robots_url |};
            rr_sitemap := sitemap0;
            rr_scoring := add_points sc 0;
            sitemap_directive_found := None |}).

(** ** sitemap.xml *)

(** [sitemap_urls_to_check]; an empty directive is not true. *)
Definition sitemap_urls_to_check `{Libs} (base_url_scheme_domain : string)
    (directive : option string) : list string :=
  if truthy_opt directive then
    match directive with Some u => [u] | None => [] end
  else
    [urljoin base_url_scheme_domain "/sitemap.xml";
     urljoin base_url_scheme_domain "/sitemap_index.xml"].

(** The variables of the loop over the candidates. *)
Record sitemap_state : Type := {
  ss_sitemap : sitemap_xml_t;
  sitemap_found : bool;
  ss_scoring : scoring
}.

Definition set_sm_status (st : sitemap_state) (s : string) : sitemap_state :=
  {| ss_sitemap := {| sm_status := s; sm_url := sm_url (ss_sitemap st);
                      found_in_robots := found_in_robots (ss_sitemap st) |};
     sitemap_found := sitemap_found st;
     ss_scoring := ss_scoring st |}.

Definition set_sm_url (st : sitemap_state) (u : string) : sitemap_state :=
  {| ss_sitemap := {| sm_status := sm_status (ss_sitemap st); sm_url := Some u;
                      found_in_robots := found_in_robots (ss_sitemap st) |};
     sitemap_found := sitemap_found st;
     ss_scoring := ss_scoring st |}.

(** ['Found'], [sitemap_found = True] and the five points. *)
Definition sitemap_success (st : sitemap_state) : sitemap_state :=
  {| ss_sitemap := {| sm_status := "Found"; sm_url := sm_url (ss_sitemap st);
                      found_in_robots := found_in_robots (ss_sitemap st) |};
     sitemap_found := true;
     ss_scoring := add_points (ss_scoring st) 5 |}.

(** The [try] block for one candidate: HEAD, and GET when the answer to
    HEAD is neither 200 nor 404. *)
Definition probe_sitemap (net : network) (sitemap_url : string)
    (st : sitemap_state) : io sitemap_state :=
  sitemap_res <~ requests_head net sitemap_url ;;
  if status_code sitemap_res =? 200 then io_ret (sitemap_success st)
  else if status_code sitemap_res =? 404 then
    io_ret (set_sm_status st "Not Found")
  else
    sitemap_res_get <~ requests_get net sitemap_url ;;
    if status_code sitemap_res_get =? 200 then io_ret (sitemap_success st)
    else if status_code sitemap_res_get =? 404 then
      io_ret (set_sm_status st "Not Found")
    else
      io_ret (set_sm_status st
                ("Error (Status: " ++ str_of_int (status_code sitemap_res_get) ++ ")")%string).

(** The loop over [sitemap_urls_to_check]; it is left as soon as a
    candidate is found. *)
Fixpoint probe_sitemaps (net : network) (urls : list string)
    (st : sitemap_state) : io sitemap_state :=
  match urls with
  | [] => io_ret st
  | sitemap_url :: rest =>
      if sitemap_found st then io_ret st
      else
        let st := set_sm_url st sitemap_url in
        st' <~ io_try_except (probe_sitemap net sitemap_url st)
                 is_RequestException
                 (fun _ => io_ret (set_sm_status st "Error Fetching")) ;;
        if sitemap_found st' then io_ret st'
        else probe_sitemaps net rest st'
  end.

Definition check_sitemap `{Libs} (net : network) (base_url_scheme_domain : string)
    (rr : robots_result) : io sitemap_state :=
  let sitemap_urls_to_check :=
    sitemap_urls_to_check base_url_scheme_domain (sitemap_directive_found rr) in
  st <~ probe_sitemaps net sitemap_urls_to_check
          {| ss_sitemap := rr_sitemap rr; sitemap_found := false;
             ss_scoring := rr_scoring rr |} ;;
  if negb (sitemap_found st)
  then io_ret (let st := set_sm_status st "Not Found (Common Locations)" in
               {| ss_sitemap := ss_sitemap st; sitemap_found := sitemap_found st;
                  ss_scoring := add_points (ss_scoring st) 0 |})
  else io_ret st.

(** ** Page load speed *)

Definition check_load_time (load_time : option Q) (sc : scoring)
  : string * scoring :=
  match load_time with
  | Some t =>
      if Qle_bool t GOOD_LOAD_TIME_THRESHOLD then ("good", add_points sc 7)
      else if Qle_bool t OK_LOAD_TIME_THRESHOLD then ("warning", add_points sc 3)
      else ("bad", add_points sc 0)
  | None => ("error", add_points sc 0)
  end.

(** ** Mobile-friendliness *)

Definition check_mobile (md : meta_data) (sc : scoring)
  : mobile_friendly_t * scoring :=
  match md_get md "viewport" with
  | Some viewport_content =>
      if truthy viewport_content then
        if contains "width=device-width" viewport_content &&
           contains "initial-scale=1" viewport_content
        then ({| mf_status := "good";
                 mf_reason := "Viewport tag correctly configured." |},
              add_points sc 5)
        else if contains "width=device-width" viewport_content
        then ({| mf_status := "warning";
                 mf_reason := "Viewport tag found, but might lack `initial-scale=1`." |},
              add_points sc 2)
        else ({| mf_status := "bad";
                 mf_reason := "Viewport tag present but seems incorrectly configured." |},
              add_points sc 0)
      else ({| mf_status := "bad"; mf_reason := "Viewport meta tag not found." |},
            add_points sc 0)
  | None => ({| mf_status := "bad"; mf_reason := "Viewport meta tag not found." |},
             add_points sc 0)
  end.

(** ** Schema markup *)

Definition type_of_item (j : json) : list string :=
  match j with
  | JObject (Some ty) => [ty]
  | _ => []
  end.

Definition schema_types (schema_json : json) : list string :=
  match schema_json with
  | JObject (Some ty) => [ty]
  | JObject None => []
  | JArray items => flat_map type_of_item items
  | JOther => []
  end.

(** The body of the loop over the ld+json scripts: one [try] with a clause
    for [JSONDecodeError] and a clause for [Exception]. *)
Definition schema_step `{Libs} (sm : schema_markup_t) (tag : node)
  : result schema_markup_t :=
  try_except
    (schema_json <- json_loads (string_of tag) ;;
     Ok {| present := true;
           types := types sm ++ schema_types schema_json;
           details := details sm ++ [schema_json] |})
    is_Exception
    (fun e =>
       if is_JSONDecodeError e
       then Ok {| present := true; types := types sm ++ ["Error Parsing"];
                  details := details sm |}
       else Ok {| present := true; types := types sm ++ ["Error Processing"];
                  details := details sm |}).

Fixpoint scan_schema `{Libs} (schema_tags : list node) (sm : schema_markup_t)
  : result schema_markup_t :=
  match schema_tags with
  | [] => Ok sm
  | tag :: rest => sm' <- schema_step sm tag ;; scan_schema rest sm'
  end.

Definition io_lift {A} (r : result A) : io A := fun tr => (r, tr).

(** ** The analyzer *)
Definition analyze_technical_seo_scoring `{Libs} (net : network) (url : string)
    (soup : node) (load_time : option Q) (md : meta_data)
  : io (tech_data * scoring) :=
  let sc := {| points := 0; max_points := 27 |} in
  let scheme := urlparse_scheme url in
  let base_url_scheme_domain := (scheme ++ "://" ++ urlparse_netloc url)%string in
  (* HTTPS *)
  let '(https_status, sc) := check_https scheme sc in
  (* robots.txt *)
  let robots_url := urljoin base_url_scheme_domain "/robots.txt" in
  rr <~ check_robots net robots_url sc ;;
  (* sitemap.xml *)
  st <~ check_sitemap net base_url_scheme_domain rr ;;
  let sc := ss_scoring st in
  (* Page load speed *)
  let '(load_time_status, sc) := check_load_time load_time sc in
  (* Mobile-friendliness *)
  let '(mobile_friendly, sc) := check_mobile md sc in
  (* Schema markup *)
  let schema_tags :=
    find_all (fun t => named "script" t && attr_is "type" "application/ld+json" t)
             soup in
  sm <~ io_lift (scan_schema schema_tags
                   {| present := false; types := []; details := [] |}) ;;
  let sc := if present sm then add_points sc 3 else sc in
  io_ret ({| robots_txt := rr_robots rr;
             sitemap_xml := ss_sitemap st;
             load_time := load_time;
             load_time_status := load_time_status;
             mobile_friendly := mobile_friendly;
             https_status := https_status;
             schema_markup := sm |}, sc).

Definition analyze_technical_seo `{Libs} (net : network) (url : string)
    (soup : node) (load_time : option Q) (md : meta_data)
  : io (tech_data * Q) :=
  r <~ analyze_technical_seo_scoring net url soup load_time md ;;
  let '(td, sc) := r in
  let tech_score := category_score sc in
  io_ret (td, tech_score).

(* ================================================================== *)
(** * The overall score *)
(* ================================================================== *)

Definition weight_meta : Q := 20 # 100.
Definition weight_content : Q := 35 # 100.
Definition weight_links : Q := 15 # 100.
Definition weight_tech : Q := 30 # 100.

Definition overall_score (meta_score content_score link_score tech_score : Q)
  : Q :=
  (meta_score * weight_meta + content_score * weight_content +
   link_score * weight_links + tech_score * weight_tech)%Q.

(** The analysis of one fetched page: the four analyzers in the order of
    the program, on the one document, and the weighted average. *)
Definition run_analysis `{Libs} (net : network) (soup : node)
    (final_url : string) (load_time : option Q)
  : io (Q * Q * Q * Q * Q) :=
  let '(md, meta_score) := analyze_meta_tags soup final_url in
  r <~ io_lift (analyze_on_page_content soup) ;;
  let '(_, content_score, soup) := r in
  let '(_, link_score) := analyze_links soup final_url in
  t <~ analyze_technical_seo net final_url soup load_time md ;;
  let '(_, tech_score) := t in
  io_ret (meta_score, content_score, link_score, tech_score,
          overall_score meta_score content_score link_score tech_score).

(** The social score of the main flow, derived from the meta data. *)
Definition social_points (meta_data : meta_data) : Z :=
  let social_points := 0 in
  let social_points :=
    if all_truthy meta_data ["og:title"; "og:description"; "og:image"]
    then social_points + 3 else social_points in
  let social_points :=
    if all_truthy meta_data
         ["twitter:card"; "twitter:title"; "twitter:description"]
    then social_points + 2 else social_points in
  social_points.

Definition social_score (meta_data : meta_data) : Q :=
  let social_max_points := 5 in
  if 0 <? social_max_points
  then ((inject_Z (social_points meta_data) / inject_Z social_max_points)
        * 100)%Q
  else 0%Q.

(* ================================================================== *)
(** * A model of [urllib.parse]

    [urlsplit], [urlparse], [urlunparse] and [urljoin] of the Python
    standard library, for URLs of ASCII characters without a bracketed
    (IPv6) host, the only ones on which the library raises. It is the
    instance of the URL functions of [Libs] at which the analyzers are
    evaluated on concrete pages. *)
(* ================================================================== *)

Module Urllib.

Definition uses_relative : list string :=
  [""; "ftp"; "http"; "gopher"; "nntp"; "imap"; "wais"; "file"; "https";
   "shttp"; "mms"; "prospero"; "rtsp"; "rtspu"; "sftp"; "svn"; "svn+ssh";
   "ws"; "wss"].

Definition uses_netloc : list string :=
  [""; "ftp"; "http"; "gopher"; "nntp"; "telnet"; "imap"; "wais"; "file";
   "mms"; "https"; "shttp"; "snews"; "prospero"; "rtsp"; "rtspu"; "rsync";
   "svn"; "svn+ssh"; "sftp"; "nfs"; "git"; "git+ssh"; "ws"; "wss";
   "itms-services"].

Definition uses_params : list string :=
  [""; "ftp"; "hdl"; "prospero"; "http"; "imap"; "https"; "shttp"; "rtsp";
   "rtspu"; "sip"; "sips"; "mms"; "sftp"; "tel"].

Definition mem (s : string) (l : list string) : bool :=
  existsb (String.eqb s) l.

Definition is_scheme_char (c : ascii) : bool :=
  isalpha c || isdigit c || mem (String c "") ["+"; "-"; "."].

(** Leading C0 control characters and spaces are dropped; tabs and line
    ends are removed everywhere. *)
Fixpoint lstrip_c0 (s : string) : string :=
  match s with
  | EmptyString => EmptyString
  | String c s' => if Nat.leb (ord c) 32 then lstrip_c0 s' else s
  end.

Fixpoint remove_unsafe (s : string) : string :=
  match s with
  | EmptyString => EmptyString
  | String c s' =>
      if Nat.eqb (ord c) 9 || Nat.eqb (ord c) 10 || Nat.eqb (ord c) 13
      then remove_unsafe s' else String c (remove_unsafe s')
  end.

(** [s.split(c, 1)]: the text before the first [c] and, when [c] occurs,
    the text after it. *)
Fixpoint split1 (c : ascii) (s : string) : string * option string :=
  match s with
  | EmptyString => (EmptyString, None)
  | String a s' =>
      if Ascii.eqb a c then (EmptyString, Some s')
      else let '(h, t) := split1 c s' in (String a h, t)
  end.

(** The scheme characters in front of the first colon, if nothing else
    stands there. *)
Fixpoint read_scheme (s : string) : option (string * string) :=
  match s with
  | EmptyString => None
  | String c s' =>
      if Ascii.eqb c ":" then Some (EmptyString, s')
      else if is_scheme_char c
      then match read_scheme s' with
           | Some (sch, rest) => Some (String c sch, rest)
           | None => None
           end
      else None
  end.

(** [_splitnetloc(url, 0)] on the text after the two slashes. *)
Fixpoint splitnetloc (s : string) : string * string :=
  match s with
  | EmptyString => (EmptyString, EmptyString)
  | String c s' =>
      if mem (String c "") ["/"; "?"; "#"] then (EmptyString, s)
      else let '(n, r) := splitnetloc s' in (String c n, r)
  end.

Record SplitResult : Type := {
  scheme : string;
  netloc : string;
  path : string;
  query : string;
  fragment : string
}.

Definition opt_str (o : option string) : string :=
  match o with Some s => s | None => EmptyString end.

(** [urlsplit(url, scheme=default)]. *)
Definition urlsplit (url default : string) : SplitResult :=
  let url := remove_unsafe (lstrip_c0 url) in
  let '(scheme, url) :=
    match url with
    | String c _ =>
        if isalpha c then
          match read_scheme url with
          | Some (sch, rest) => (lower sch, rest)
          | None => (default, url)
          end
        else (default, url)
    | EmptyString => (default, url)
    end in
  let '(netloc, url) :=
    match url with
    | String "/" (String "/" rest) => splitnetloc rest
    | _ => (EmptyString, url)
    end in
  let '(url, fragment) := split1 "#" url in
  let '(url, query) := split1 "?" url in
  {| scheme := scheme; netloc := netloc; path := url;
     query := opt_str query; fragment := opt_str fragment |}.

(** [s.split(c)]. *)
Fixpoint split_on (c : ascii) (s : string) : list string :=
  match s with
  | EmptyString => [EmptyString]
  | String a s' =>
      match split_on c s' with
      | h :: t => if Ascii.eqb a c then EmptyString :: h :: t
                  else String a h :: t
      | [] => [EmptyString]
      end
  end.

(** [_splitparams(url)]: the parameters follow the first semicolon of the
    last path segment. *)
Definition splitparams (url : string) : string * string :=
  let segs := split_on "/" url in
  let '(seg, params) := split1 ";" (List.last segs EmptyString) in
  match params with
  | Some p => (String.concat "/" (removelast segs ++ [seg]), p)
  | None => (url, EmptyString)
  end.

(** [urlparse(url, scheme=default)]: (scheme, netloc, path, params, query,
    fragment). *)
Definition urlparse (url default : string)
  : string * string * string * string * string * string :=
  let r := urlsplit url default in
  let '(p, params) :=
    if mem (scheme r) uses_params && contains ";" (path r)
    then splitparams (path r) else (path r, EmptyString) in
  (scheme r, netloc r, p, params, query r, fragment r).

Definition urlunsplit (scheme netloc url query fragment : string) : string :=
  let url :=
    if truthy netloc ||
       (truthy scheme && mem scheme uses_netloc &&
        negb (String.prefix "//" url))
    then
      let url :=
        if truthy url && negb (String.prefix "/" url)
        then ("/" ++ url)%string else url in
      ("//" ++ netloc ++ url)%string
    else url in
  let url := if truthy scheme then (scheme ++ ":" ++ url)%string else url in
  let url := if truthy query then (url ++ "?" ++ query)%string else url in
  if truthy fragment then (url ++ "#" ++ fragment)%string else url.

Definition urlunparse (scheme netloc url params query fragment : string)
  : string :=
  let url := if truthy params then (url ++ ";" ++ params)%string else url in
  urlunsplit scheme netloc url query fragment.

(** [segments[1:-1] = filter(None, segments[1:-1])]. *)
Definition filter_inner (segments : list string) : list string :=
  match segments with
  | [] => []
  | [a] => [a]
  | a :: rest =>
      a :: filter truthy (removelast rest) ++ [List.last rest EmptyString]
  end.

(** The loop that resolves the dot segments; [resolved_path] is kept in
    reverse. *)
Fixpoint resolve_dots (segments resolved_rev : list string) : list string :=
  match segments with
  | [] => rev resolved_rev
  | seg :: rest =>
      if String.eqb seg ".." then resolve_dots rest (tl resolved_rev)
      else if String.eqb seg "." then resolve_dots rest resolved_rev
      else resolve_dots rest (seg :: resolved_rev)
  end.

(** [urljoin(base, url)]. *)
Definition urljoin (base url : string) : string :=
  if negb (truthy base) then url
  else if negb (truthy url) then base
  else
    let '(bscheme, bnetloc, bpath, bparams, bquery, _) :=
      urlparse base EmptyString in
    let '(scheme, netloc, path, params, query, fragment) :=
      urlparse url bscheme in
    if negb (String.eqb scheme bscheme) || negb (mem scheme uses_relative)
    then url
    else if mem scheme uses_netloc && truthy netloc
    then urlunparse scheme netloc path params query fragment
    else
      let netloc := if mem scheme uses_netloc then bnetloc else netloc in
      if negb (truthy path) && negb (truthy params) then
        let query := if truthy query then query else bquery in
        urlunparse scheme netloc bpath bparams query fragment
      else
        let base_parts := split_on "/" bpath in
        let base_parts :=
          if truthy (List.last base_parts EmptyString)
          then removelast base_parts else base_parts in
        let segments :=
          if String.prefix "/" path then split_on "/" path
          else filter_inner (base_parts ++ split_on "/" path) in
        let resolved_path := resolve_dots segments [] in
        let resolved_path :=
          if mem (List.last segments EmptyString) ["."; ".."]
          then resolved_path ++ [EmptyString] else resolved_path in
        let joined := String.concat "/" resolved_path in
        urlunparse scheme netloc (if truthy joined then joined else "/")
          params query fragment.

Definition url_scheme (url : string) : string :=
  scheme (urlsplit url EmptyString).

Definition url_netloc (url : string) : string :=
  netloc (urlsplit url EmptyString).

End Urllib.

(** The libraries with the model of [urllib.parse] and given [textstat]
    and [json] functions. *)
Definition python_libs (fre : string -> result Q)
    (loads : option string -> result json) : Libs :=
  {| urljoin := Urllib.urljoin;
     urlparse_scheme := Urllib.url_scheme;
     urlparse_netloc := Urllib.url_netloc;
     flesch_reading_ease := fre;
     json_loads := loads |}.

(* ================================================================== *)
(** * Sample pages *)
(* ================================================================== *)

Module Samples.

Definition document (contents : list node) : node :=
  Tag "[document]" [] contents.

Definition page (head body : list node) : node :=
  document [Tag "html" [] [Tag "head" [] head; Tag "body" [] body]].

Definition a_href (href anchor_text : string) : node :=
  Tag "a" [("href", href)] [NavigableString anchor_text].

Definition heading (nm text : string) : node :=
  Tag nm [] [NavigableString text].

Definition img (src : string) (alt : option string) : node :=
  Tag "img"
    (("src", src) :: match alt with Some a => [("alt", a)] | None => [] end) [].

(** [textstat] and [json] for the sample pages: a readability of 65 for
    every text, and every script read as an object without ['@type']. *)
Definition libs : Libs :=
  python_libs (fun _ => Ok (65 # 1)) (fun _ => Ok (JObject None)).

Definition base : string := "https://a.com/".



(** The three links of the specification. *)
Definition three_links : node :=
  page [] [a_href "/about" "About"; a_href "https://b.com/x" "Partner";
           a_href "mailto:x@y.com" "Mail"].

(** One link to the site and three mail addresses; the same page without
    the mail addresses. *)
Definition one_link_three_mails : node :=
  page [] [a_href "https://a.com/p" "Home"; a_href "mailto:a@a.com" "Ann";
           a_href "mailto:b@a.com" "Bob"; a_href "mailto:c@a.com" "Cy"].
Definition one_link : node :=
  page [] [a_href "https://a.com/p" "Home"].

(** A link to a place of the page itself. *)
Definition fragment_link : node :=
  page [] [a_href "#top" "Back to top"].

(** Two mail addresses and no other link. *)
Definition two_mails : node :=
  page [] [a_href "mailto:a@a.com" "Ann"; a_href "mailto:b@a.com" "Bob"].

(** [n] images, the first [k] of them with an alt text. *)
Fixpoint images (n k : nat) : list node :=
  match n with
  | O => []
  | S n' =>
      match k with
      | O => img "x.png" None :: images n' O
      | S k' => img "x.png" (Some "a picture") :: images n' k'
      end
  end.

(** A page whose only image, without alt text, stands in the navigation
    bar. *)
Definition image_in_nav : node :=
  page [] [Tag "nav" [] [img "logo.png" None];
           Tag "p" [] [NavigableString "Welcome"]].

End Samples.

(* ================================================================== *)
(** * Notions used to state the properties *)
(* ================================================================== *)

(** [sc'] has the maximum of [sc], and between [lo] and [hi] points more
    than [sc]. *)
Definition gains (lo hi : Z) (sc sc' : scoring) : Prop :=
  max_points sc' = max_points sc /\
  points sc + lo <= points sc' <= points sc + hi.

(** The score [q] is the percentage of the points of [sc]: it lies between
    0 and 100, and it is [100 * points / max_points], or 0 when the maximum
    is 0. *)
Definition is_percentage_of (sc : scoring) (q : Q) : Prop :=
  (0 <= q /\ q <= 100)%Q /\
  (q == if max_points sc =? 0 then 0
        else 100 * inject_Z (points sc) / inject_Z (max_points sc))%Q.

(** ** Headings *)

(** [soup.find_all(['h1', ..., 'h6'])]. *)
Definition heading_tags (soup : node) : list node :=
  find_all (named_in heading_names) soup.

(** The levels of the headings that have a text, in document order. *)
Definition has_text (h : node) : bool := truthy (get_text "" h).




(** [len(headings.get('h1', []))]. *)
Definition h1_count (st : heading_state) : Z :=
  Z.of_nat (List.length (headings_get (hs_headings st) "h1")).

(** ** Images *)

(** An image has an alt text when its [alt], stripped, is not empty. *)
Definition has_alt (img : node) : bool :=
  truthy (strip (get_default img "alt" "")).

(** ** Terms and their counts *)

(** The distinct elements of a list, in the order of their first
    occurrence. *)
Fixpoint distinct (l : list string) : list string :=
  match l with
  | [] => []
  | x :: l' => x :: filter (fun y => negb (String.eqb y x)) (distinct l')
  end.


(** The number of occurrences of [x] in [l]. *)
Definition occurrences (x : string) (l : list string) : Z :=
  Z.of_nat (List.length (filter (String.eqb x) l)).

Definition term (e : string * Z * float) : string := fst (fst e).
Definition count (e : string * Z * float) : Z := snd (fst e).
Definition density (e : string * Z * float) : float := snd e.





(** [y] is not among the keys [ks]. *)
Definition not_among (ks : list string) (y : string) : bool :=
  negb (existsb (String.eqb y) ks).

(** The sum of the counts of a counter. *)
Definition total_count (c : Counter) : Z :=
  fold_right (fun e s => snd e + s) 0 c.


(** The entry of [top_keywords] made of an entry of the counter of the
    words [l]. *)
Definition entry (l : list string) (e : string * Z) : string * Z * float :=
  (fst e, snd e,
   (true_div (snd e) (Z.of_nat (List.length l)) * float_of_int 100)%float).




(** ** Links *)

(** The href of an anchor, resolved against the base URL. *)
Definition full_url `{Libs} (base_url : string) (link : node) : string :=
  urljoin base_url (get_default link "href" "").

(** The key under which the text of an anchor is counted. *)
Definition anchor_key (link : node) : string :=
  if truthy (get_text "" link) then get_text "" link else EMPTY_ANCHOR.

(** The class of an anchor: by the scheme of the resolved URL, then by its
    domain. *)
Definition link_type `{Libs} (base_url : string) (link : node) : string :=
  if is_http_scheme (urlparse_scheme (full_url base_url link)) then
    if String.eqb (get_domain (full_url base_url link)) (get_domain base_url)
    then "internal" else "external"
  else "other".

Definition has_type `{Libs} (base_url ty : string) (link : node) : bool :=
  String.eqb (link_type base_url link) ty.

Definition link_record `{Libs} (base_url : string) (link : node) : link_info :=
  {| li_href := full_url base_url link;
     li_text := get_text "" link;
     li_type := link_type base_url link |}.

(** The document without the anchors of the class "other". *)
Definition remove_other_links `{Libs} (base_url : string) (soup : node) : node :=
  prune (fun t => named "a" t && attr_present "href" t &&
                  has_type base_url "other" t) soup.

(** The points of the links as the specification words them: three
    independent awards. *)
Definition spec_link_points (ld : link_data) : Z :=
  let total := internal_count ld + external_count ld in
  let distinct_texts := Z.of_nat (List.length (anchor_texts ld)) in
  (if 0 <? total then 5 else 0) +
  (if (0 <? internal_count ld) && (0 <? external_count ld) && (5 <? total)
   then 5 else 0) +
  (if (3 <? distinct_texts) &&
      (2 * counter_get (anchor_texts ld) EMPTY_ANCHOR <? total)
   then 5
   else if 1 <? distinct_texts then 2 else 0).

(** ** Probes *)

(** robots.txt was fetched with the status 200. *)
Definition robots_found (net : network) (robots_url : string) : bool :=
  match net GET robots_url with
  | Responds r => status_code r =? 200
  | Fails _ | Breaks _ => false
  end.

(** The status the robots.txt block reports (none when the request
    raises an exception that the block does not catch). *)
Definition robots_status (net : network) (robots_url : string) : string :=
  match net GET robots_url with
  | Responds r =>
      if status_code r =? 200 then "Found"
      else if status_code r =? 404 then "Not Found"
      else ("Error (Status: " ++ str_of_int (status_code r) ++ ")")%string
  | Fails msg => ("Error fetching: " ++ msg)%string
  | Breaks _ => "Not Checked"
  end.

(** The value of the first [sitemap:] line of a robots.txt that was
    fetched with the status 200. *)
Definition declared_sitemap (net : network) (robots_url : string)
  : option string :=
  match net GET robots_url with
  | Responds r =>
      if status_code r =? 200
      then find_sitemap_directive (splitlines (text r)) else None
  | Fails _ | Breaks _ => None
  end.

(** The probe of a candidate succeeds: HEAD is answered with 200, or with
    a status other than 404 and then GET with 200. *)
Definition candidate_found (net : network) (u : string) : bool :=
  match net HEAD u with
  | Responds r =>
      if status_code r =? 200 then true
      else if status_code r =? 404 then false
      else match net GET u with
           | Responds r' => status_code r' =? 200
           | Fails _ | Breaks _ => false
           end
  | Fails _ | Breaks _ => false
  end.

(** The requests of the probe of a candidate: HEAD, and GET when HEAD is
    answered with a status that is neither 200 nor 404. *)
Definition requests_for (net : network) (u : string)
  : list (http_method * string) :=
  (HEAD, u) ::
  match net HEAD u with
  | Responds r =>
      if (status_code r =? 200) || (status_code r =? 404) then []
      else [(GET, u)]
  | Fails _ | Breaks _ => []
  end.

(** The candidates up to the first that is found, included. *)
Fixpoint probed (net : network) (urls : list string) : list string :=
  match urls with
  | [] => []
  | u :: rest => u :: if candidate_found net u then [] else probed net rest
  end.

Definition is_some {A} (o : option A) : bool :=
  match o with Some _ => true | None => false end.

(** The statement of the specification on the candidates: a declared
    sitemap is the first candidate probed. *)
Definition declared_sitemap_probed_first : Prop :=
  forall (L : Libs) (net : network) (url : string) (soup : node)
         (load_time : option Q) (md : meta_data) td sc tr u,
    analyze_technical_seo_scoring net url soup load_time md [] = (Ok (td, sc), tr) ->
    declared_sitemap net
      (urljoin (urlparse_scheme url ++ "://" ++ urlparse_netloc url)%string
               "/robots.txt") = Some u ->
    found_in_robots (sitemap_xml td) = true /\
    nth_error tr 1 = Some (HEAD, u).

(** The network of a site whose robots.txt is [body], on which HEAD is
    answered with [sitemap_status] at the URL [sitemap] and with 404
    elsewhere. *)
Definition site (body sitemap : string) (sitemap_status : Z) : network :=
  fun m u =>
    match m with
    | GET =>
        if String.eqb u "https://a.com/robots.txt"
        then Responds {| status_code := 200; text := body |}
        else Responds {| status_code := 404; text := "" |}
    | HEAD =>
        if String.eqb u sitemap
        then Responds {| status_code := sitemap_status; text := "" |}
        else Responds {| status_code := 404; text := "" |}
    end.

(** The scoring with which [analyze_technical_seo] starts, and what each
    of the checks that send no request gives to it. *)
Definition zero_scoring : scoring := {| points := 0; max_points := 27 |}.

Definition https_points (scheme : string) : Z :=
  points (snd (check_https scheme zero_scoring)).

Definition load_points (load_time : option Q) : Z :=
  points (snd (check_load_time load_time zero_scoring)).

Definition mobile_points (md : meta_data) : Z :=
  points (snd (check_mobile md zero_scoring)).

(** [soup.find_all('script', type='application/ld+json')]. *)
Definition schema_tags (soup : node) : list node :=
  find_all (fun t => named "script" t && attr_is "type" "application/ld+json" t)
           soup.

Definition schema_points (soup : node) : Z :=
  match schema_tags soup with [] => 0 | _ :: _ => 3 end.

(** The default locations of the sitemap. *)
Definition common_locations `{Libs} (base : string) : list string :=
  [urljoin base "/sitemap.xml"; urljoin base "/sitemap_index.xml"].

Definition newline : string := String (ascii_of_nat 10) EmptyString.

(** A robots.txt with two sitemap lines, the first in capitals. *)
Definition robots_body : string :=
  ("User-agent: *" ++ newline ++
   "  SITEMAP: https://a.com/sm.xml" ++ newline ++
   "Sitemap: https://a.com/other.xml")%string.

(** The network of a site without robots.txt, whose sitemap is at the
    second common location and is not served to HEAD requests. *)
Definition fallback_site : network :=
  fun m u =>
    match m with
    | GET =>
        if String.eqb u "https://a.com/sitemap_index.xml"
        then Responds {| status_code := 200; text := "" |}
        else Responds {| status_code := 404; text := "" |}
    | HEAD =>
        if String.eqb u "https://a.com/sitemap_index.xml"
        then Responds {| status_code := 405; text := "" |}
        else Responds {| status_code := 404; text := "" |}
    end.

(** A network on which every request fails. *)
Definition dead_network : network := fun _ _ => Fails "timed out".

(** The exception, if any, that the request for robots.txt raises and
    that is not a [RequestException]. *)
Definition robots_break (net : network) (robots_url : string)
  : option string :=
  match net GET robots_url with
  | Breaks msg => Some msg
  | Responds _ | Fails _ => None
  end.

(** The same for the requests of the probe of a candidate. *)
Definition probe_break (net : network) (u : string) : option string :=
  match net HEAD u with
  | Breaks msg => Some msg
  | Responds r =>
      if (status_code r =? 200) || (status_code r =? 404) then None
      else match net GET u with
           | Breaks msg => Some msg
           | Responds _ | Fails _ => None
           end
  | Fails _ => None
  end.

(** The same for the probes of the candidates, in order and up to the
    first that is found. *)
Fixpoint first_break (net : network) (urls : list string) : option string :=
  match urls with
  | [] => None
  | u :: rest =>
      match probe_break net u with
      | Some msg => Some msg
      | None => if candidate_found net u then None else first_break net rest
      end
  end.

(** The candidates that are probed: up to the first that is found or
    at which a request raises such an exception, included. *)
Fixpoint requested (net : network) (urls : list string) : list string :=
  match urls with
  | [] => []
  | u :: rest =>
      u :: if candidate_found net u || is_some (probe_break net u) then []
           else requested net rest
  end.

(** The same for all the requests of [analyze_technical_seo]. *)
Definition technical_break `{Libs} (net : network) (url : string)
  : option string :=
  let scheme := urlparse_scheme url in
  let base := (scheme ++ "://" ++ urlparse_netloc url)%string in
  let robots_url := urljoin base "/robots.txt" in
  match robots_break net robots_url with
  | Some msg => Some msg
  | None =>
      first_break net
        (sitemap_urls_to_check base (declared_sitemap net robots_url))
  end.

(** The requests of [analyze_technical_seo]: robots.txt, and the probes
    of the candidates unless the request for robots.txt raises an
    exception that is not a [RequestException]. *)
Definition technical_requests `{Libs} (net : network) (url : string)
  : list (http_method * string) :=
  let scheme := urlparse_scheme url in
  let base := (scheme ++ "://" ++ urlparse_netloc url)%string in
  let robots_url := urljoin base "/robots.txt" in
  (GET, robots_url) ::
  match robots_break net robots_url with
  | Some _ => []
  | None =>
      flat_map (requests_for net)
        (requested net
           (sitemap_urls_to_check base (declared_sitemap net robots_url)))
  end.

(** Every failure of a request is a [RequestException]. *)
Definition only_request_errors (net : network) : Prop :=
  forall m u msg, net m u <> Breaks msg.

(** The network of a site whose robots.txt declares a sitemap at a URL
    whose host has an empty label: [requests] raises the
    [LocationParseError] of [urllib3] for it. *)
Definition unparsable_sitemap : string := "http://a..com/x".

Definition site_declaring_unparsable_sitemap : network :=
  fun m u =>
    if String.eqb u unparsable_sitemap
    then Breaks "Failed to parse: 'a..com', label empty or too long"
    else match m with
         | GET =>
             if String.eqb u "https://a.com/robots.txt"
             then Responds {| status_code := 200;
                              text := ("Sitemap: " ++ unparsable_sitemap)%string |}
             else Responds {| status_code := 404; text := "" |}
         | HEAD => Responds {| status_code := 404; text := "" |}
         end.

Definition no_meta_data : meta_data := {| fields := []; alternate := [] |}.

(** ** Tallies *)

(** The entry of ['alt_tags'] of an image. *)
Definition image_entry (img : node) : alt_entry :=
  if has_alt img
  then {| src := get_default img "src" "No Source";
          alt := Some (strip (get_default img "alt" ""));
          status := "present" |}
  else {| src := get_default img "src" "No Source";
          alt := None;
          status := "missing" |}.

Definition is_present (e : alt_entry) : bool := String.eqb (status e) "present".

Definition is_other (li : link_info) : bool := String.eqb (li_type li) "other".

(** A heading tag named [nm] that has a text. *)
Definition heading_named (nm : string) (h : node) : bool :=
  has_text h && String.eqb (name h) nm.

(** A document without a body element: one heading and one image. *)
Definition bodiless_page : node :=
  Samples.document [Samples.heading "h1" "Title"; Samples.img "x.png" None].

(** ** Normalized text *)

(** The characters of a cleaned text: lower-case word characters, the
    hyphen and the space. *)
Definition is_clean_char (c : ascii) : bool :=
  (isword c && negb (isupper c)) || Ascii.eqb c "-" || Ascii.eqb c " ".

Fixpoint all_chars (P : ascii -> bool) (s : string) : bool :=
  match s with
  | EmptyString => true
  | String c s' => P c && all_chars P s'
  end.

(** No two whitespace characters in a row, [prev] telling that the
    character before the string is one. *)
Fixpoint no_double (prev : bool) (s : string) : bool :=
  match s with
  | EmptyString => true
  | String c s' =>
      if isspace c then negb prev && no_double true s'
      else no_double false s'
  end.

(** Moreover the string does not end with a whitespace character (nor
    with the character before it, when it is empty). *)
Fixpoint spaced_ok (prev : bool) (s : string) : bool :=
  match s with
  | EmptyString => negb prev
  | String c s' =>
      if isspace c then negb prev && spaced_ok true s'
      else spaced_ok false s'
  end.

(** A text in normal form: empty, or words of clean characters separated
    by single spaces, without a space at either end. *)
Definition normalized (s : string) : Prop :=
  all_chars is_clean_char s = true /\ (s = "" \/ spaced_ok true s = true).

(** The characters of a word of a cleaned text: lower-case word
    characters and the hyphen. *)
Definition is_word_char (c : ascii) : bool :=
  is_clean_char c && negb (isspace c).

(** The words of the text of a page, as the keyword analysis reads them. *)
Definition cleaned_words (text : string) : list string :=
  split (clean_text text).

(** ** The meta data *)

(** The content of the viewport tag as [analyze_meta_tags] records it:
    stripped, and empty when the document has no such tag or the tag no
    content. *)
Definition viewport_content (soup : node) : string :=
  match tag_get_truthy (find_meta_named soup "viewport") "content" with
  | Some content => strip content
  | None => ""
  end.

(** The two conditions on the viewport both checks grade by. *)
Definition viewport_grade (full partial none : Z) (viewport : string) : Z :=
  if contains "width=device-width" viewport &&
     contains "initial-scale=1" viewport
  then full
  else if contains "width=device-width" viewport then partial else none.

Definition og_keys : list string := ["og:title"; "og:description"; "og:image"].

Definition twitter_keys : list string :=
  ["twitter:card"; "twitter:title"; "twitter:description"].

(** ** The schema markup *)



Definition is_error_marker (ty : string) : bool :=
  String.eqb ty "Error Parsing" || String.eqb ty "Error Processing".


(** ** Tactics *)

(** Destructs what the goal branches on, until a tactic closes it. *)
Ltac branch_on_matches :=
  repeat match goal with
         | |- context [match ?x with _ => _ end] =>
             lazymatch x with
             | context [match _ with _ => _ end] => fail
             | _ => destruct x eqn:?
             end
         end.

Ltac solve_gains :=
  branch_on_matches; simpl; unfold gains, add_points; simpl; lia.

(* ================================================================== *)
(** * Properties *)
(* ================================================================== *)

(** ** Scores and points *)

Lemma gains_refl sc : gains 0 0 sc sc.
Proof. unfold gains; lia. Qed.

Lemma gains_add sc n : gains n n sc (add_points sc n).
Proof. unfold gains, add_points; simpl; lia. Qed.

Lemma gains_weaken lo hi lo' hi' sc sc' :
  gains lo hi sc sc' -> lo' <= lo -> hi <= hi' -> gains lo' hi' sc sc'.
Proof. unfold gains; intros [Hm Hp] Hlo Hhi; split; [assumption | lia]. Qed.

Lemma gains_trans a b c d sc1 sc2 sc3 :
  gains a b sc1 sc2 -> gains c d sc2 sc3 -> gains (a + c) (b + d) sc1 sc3.
Proof.
  unfold gains; intros [Hm1 Hp1] [Hm2 Hp2]; split; [congruence | lia].
Qed.

Lemma category_score_eq sc :
  0 < max_points sc ->
  (category_score sc ==
   100 * inject_Z (points sc) / inject_Z (max_points sc))%Q.
Proof.
  intros Hm. unfold category_score.
  apply Z.ltb_lt in Hm as Hb. rewrite Hb.
  assert (~ inject_Z (max_points sc) == 0)%Q.
  { intros E. unfold Qeq, inject_Z in E. simpl in E. lia. }
  field. assumption.
Qed.

Lemma category_score_range sc :
  0 < max_points sc -> 0 <= points sc <= max_points sc ->
  (0 <= category_score sc /\ category_score sc <= 100)%Q.
Proof.
  intros Hm [H0 H1]. unfold category_score.
  apply Z.ltb_lt in Hm as Hb. rewrite Hb.
  assert (Hq : (0 < inject_Z (max_points sc))%Q).
  { unfold Qlt, inject_Z; simpl; lia. }
  assert (Hlo : (0 <= inject_Z (points sc) / inject_Z (max_points sc))%Q).
  { apply Qle_shift_div_l; [assumption |].
    rewrite Qmult_0_l. unfold Qle, inject_Z; simpl; lia. }
  assert (Hhi : (inject_Z (points sc) / inject_Z (max_points sc) <= 1)%Q).
  { apply Qle_shift_div_r; [assumption |].
    rewrite Qmult_1_l. unfold Qle, inject_Z; simpl; lia. }
  split; lra.
Qed.

Lemma category_score_percentage sc :
  0 < max_points sc -> 0 <= points sc <= max_points sc ->
  is_percentage_of sc (category_score sc).
Proof.
  intros Hm Hp. split.
  - apply category_score_range; assumption.
  - replace (max_points sc =? 0) with false
      by (symmetry; apply Z.eqb_neq; lia).
    apply category_score_eq; assumption.
Qed.

(** ** The points of [analyze_meta_tags] *)

Section Meta.
Context `{Libs}.
Variables (soup : node) (url : string).

Lemma check_title_gains st : gains 0 5 (snd st) (snd (check_title soup st)).
Proof. destruct st; unfold check_title; solve_gains. Qed.

Lemma meta_name_check_gains nm key pts st :
  0 <= pts -> gains 0 pts (snd st) (snd (meta_name_check soup nm key pts st)).
Proof. intros; destruct st; unfold meta_name_check; solve_gains. Qed.

Lemma check_canonical_gains st :
  gains 0 3 (snd st) (snd (check_canonical soup url st)).
Proof. destruct st; unfold check_canonical; solve_gains. Qed.

Lemma check_open_graph_gains st :
  gains 0 3 (snd st) (snd (check_open_graph soup st)).
Proof. destruct st; unfold check_open_graph; solve_gains. Qed.

Lemma check_twitter_gains st :
  gains 0 2 (snd st) (snd (check_twitter soup st)).
Proof. destruct st; unfold check_twitter; solve_gains. Qed.

Lemma check_viewport_gains st :
  gains 0 3 (snd st) (snd (check_viewport soup st)).
Proof. destruct st; unfold check_viewport; solve_gains. Qed.

Lemma check_author_gains st :
  gains 0 1 (snd st) (snd (check_author soup st)).
Proof. destruct st; unfold check_author; solve_gains. Qed.

Lemma check_charset_gains st :
  gains 0 1 (snd st) (snd (check_charset soup st)).
Proof. destruct st; unfold check_charset; solve_gains. Qed.

Lemma check_language_gains st :
  gains 0 1 (snd st) (snd (check_language soup st)).
Proof. destruct st; unfold check_language; solve_gains. Qed.

Lemma check_favicon_gains st :
  gains 0 1 (snd st) (snd (check_favicon soup url st)).
Proof. destruct st; unfold check_favicon; solve_gains. Qed.

Lemma check_alternate_gains st :
  gains 0 3 (snd st) (snd (check_alternate soup url st)).
Proof. destruct st; unfold check_alternate; solve_gains. Qed.

(** The thirteen checks give between 0 and 28 points, of a maximum of
    28. *)
Lemma meta_points_bounds :
  let sc := snd (analyze_meta_tags_scoring soup url) in
  max_points sc = 28 /\ 0 <= points sc <= 28.
Proof.
  unfold analyze_meta_tags_scoring.
  set (st0 := ({| fields := []; alternate := [] |},
               {| points := 0; max_points := 28 |})).
  pose proof (check_title_gains st0) as G1.
  set (st1 := check_title soup st0) in *.
  pose proof (meta_name_check_gains "description" "description" 4 st1 ltac:(lia)) as G2.
  set (st2 := meta_name_check soup _ _ 4 st1) in *.
  pose proof (meta_name_check_gains "keywords" "keywords" 0 st2 ltac:(lia)) as G3.
  set (st3 := meta_name_check soup _ _ 0 st2) in *.
  pose proof (meta_name_check_gains "robots" "robots" 1 st3 ltac:(lia)) as G4.
  set (st4 := meta_name_check soup _ _ 1 st3) in *.
  pose proof (check_canonical_gains st4) as G5.
  set (st5 := check_canonical soup url st4) in *.
  pose proof (check_open_graph_gains st5) as G6.
  set (st6 := check_open_graph soup st5) in *.
  pose proof (check_twitter_gains st6) as G7.
  set (st7 := check_twitter soup st6) in *.
  pose proof (check_viewport_gains st7) as G8.
  set (st8 := check_viewport soup st7) in *.
  pose proof (check_author_gains st8) as G9.
  set (st9 := check_author soup st8) in *.
  pose proof (check_charset_gains st9) as G10.
  set (st10 := check_charset soup st9) in *.
  pose proof (check_language_gains st10) as G11.
  set (st11 := check_language soup st10) in *.
  pose proof (check_favicon_gains st11) as G12.
  set (st12 := check_favicon soup url st11) in *.
  pose proof (check_alternate_gains st12) as G13.
  set (st13 := check_alternate soup url st12) in *.
  unfold gains in *. simpl in G1. cbv zeta. lia.
Qed.

Lemma analyze_meta_tags_score :
  snd (analyze_meta_tags soup url) =
  category_score (snd (analyze_meta_tags_scoring soup url)).
Proof.
  unfold analyze_meta_tags.
  destruct (analyze_meta_tags_scoring soup url); reflexivity.
Qed.

End Meta.

(** ** The points of [analyze_on_page_content] *)

Section Content.
Context `{Libs}.

Lemma score_headings_gains st sc : gains 0 8 sc (score_headings st sc).
Proof. unfold score_headings; solve_gains. Qed.

Lemma score_length_gains wc sc : gains 0 5 sc (score_length wc sc).
Proof. unfold score_length; solve_gains. Qed.

(** The readability block returns, whatever [textstat] does. *)
Lemma score_readability_returns wc txt sc :
  exists rs rd sc',
    score_readability wc txt sc = Ok (rs, rd, sc') /\ gains 0 5 sc sc'.
Proof.
  unfold score_readability, try_except, bind, is_Exception.
  branch_on_matches;
    try match goal with E : Ok _ = Ok _ |- _ => inversion E; subst end;
    try discriminate;
    do 3 eexists; (split; [reflexivity |]);
    unfold gains, add_points; simpl; lia.
Qed.

Lemma analyze_keywords_gains wc txt sc :
  gains 0 5 sc (snd (analyze_keywords wc txt sc)).
Proof. unfold analyze_keywords; solve_gains. Qed.

Lemma score_image_alts_gains a sc : gains 0 4 sc (score_image_alts a sc).
Proof. unfold score_image_alts; solve_gains. Qed.

(** [analyze_on_page_content] returns, with between 0 and 27 points of a
    maximum of 30. *)
Lemma content_points_bounds soup :
  exists cd sc soup',
    analyze_on_page_content_scoring soup = Ok (cd, sc, soup') /\
    analyze_on_page_content soup = Ok (cd, category_score sc, soup') /\
    max_points sc = 30 /\ 0 <= points sc <= 27.
Proof.
  unfold analyze_on_page_content, analyze_on_page_content_scoring.
  set (sc0 := {| points := 0; max_points := 30 |}).
  set (hst := scan_headings _).
  pose proof (score_headings_gains hst sc0) as G1.
  set (sc1 := score_headings hst sc0) in *.
  set (wc := match find (named "body") soup with
             | Some _ => _ | None => _ end).
  set (txt := match find (named "body") soup with
              | Some body => get_text " " (strip_non_content body)
              | None => "" end).
  pose proof (score_length_gains wc sc1) as G2.
  set (sc2 := score_length wc sc1) in *.
  destruct (score_readability_returns wc txt sc2) as (rs & rd & sc3 & E & G3).
  rewrite E. cbn [bind].
  pose proof (analyze_keywords_gains wc txt sc3) as G4.
  destruct (analyze_keywords wc txt sc3) as [kw sc4]. cbn [snd] in G4.
  pose proof (score_image_alts_gains
                (scan_images (find_all (named "img") (soup_after_extraction soup)))
                sc4) as G5.
  do 3 eexists. split; [reflexivity |]. split; [reflexivity |].
  unfold gains in *. simpl in G1. lia.
Qed.

End Content.

(** ** The points of [analyze_links] *)

Lemma score_links_gains ld sc : gains 0 15 sc (score_links ld sc).
Proof. unfold score_links; solve_gains. Qed.

Lemma links_points_bounds `{Libs} soup base_url :
  let sc := snd (analyze_links_scoring soup base_url) in
  max_points sc = 15 /\ 0 <= points sc <= 15.
Proof.
  unfold analyze_links_scoring; cbn [snd].
  pose proof (score_links_gains (scan_links soup base_url)
                {| points := 0; max_points := 15 |}) as G.
  unfold gains in G; simpl in G. cbv zeta. lia.
Qed.

Lemma analyze_links_score `{Libs} soup base_url :
  snd (analyze_links soup base_url) =
  category_score (snd (analyze_links_scoring soup base_url)).
Proof. reflexivity. Qed.

(** ** The points of [analyze_technical_seo] *)

Section Technical.
Context `{Libs}.

Lemma check_https_gains scheme sc :
  gains 0 3 sc (snd (check_https scheme sc)).
Proof. unfold check_https; solve_gains. Qed.

Lemma check_load_time_gains t sc :
  gains 0 7 sc (snd (check_load_time t sc)).
Proof. unfold check_load_time; solve_gains. Qed.

Lemma check_mobile_gains md sc : gains 0 5 sc (snd (check_mobile md sc)).
Proof. unfold check_mobile; solve_gains. Qed.

(** The loop over the ld+json scripts returns, whatever [json.loads]
    does, and [present] tells whether there was a script. *)
Lemma schema_step_returns sm tag :
  exists sm', schema_step sm tag = Ok sm' /\ present sm' = true.
Proof.
  unfold schema_step, try_except, bind, is_Exception.
  destruct (json_loads (string_of tag)) as [j | e].
  - eauto.
  - destruct (is_JSONDecodeError e); eauto.
Qed.

Lemma scan_schema_returns tags : forall sm,
  exists sm',
    scan_schema tags sm = Ok sm' /\
    present sm' = match tags with [] => present sm | _ :: _ => true end.
Proof.
  induction tags as [| tag rest IH]; intros sm; simpl.
  - eauto.
  - destruct (schema_step_returns sm tag) as (sm1 & E & Hp).
    rewrite E; simpl.
    destruct (IH sm1) as (sm2 & E2 & Hp2). rewrite E2.
    exists sm2. split; [reflexivity |].
    rewrite Hp2. destruct rest; [assumption | reflexivity].
Qed.

End Technical.

(** ** The probes of robots.txt and of the sitemap *)

Section Probes.
Context `{Libs}.
Variable net : network.

(** The loop over the lines of robots.txt stops at the first directive. *)
Lemma find_sitemap_directive_first lines :
  find_sitemap_directive lines =
  option_map sitemap_line_value (List.find is_sitemap_line lines).
Proof.
  induction lines as [| l lines IH]; simpl; [reflexivity |].
  destruct (is_sitemap_line l); [reflexivity | assumption].
Qed.

(** What the robots.txt block leaves; an exception that is not a
    [RequestException] passes through its [except] clause. *)
Lemma check_robots_spec robots_url sc tr :
  match robots_break net robots_url with
  | Some msg =>
      check_robots net robots_url sc tr
      = (Raise (Exception msg), tr ++ [(GET, robots_url)])
  | None =>
      exists rr,
        check_robots net robots_url sc tr = (Ok rr, tr ++ [(GET, robots_url)]) /\
        max_points (rr_scoring rr) = max_points sc /\
        points (rr_scoring rr) =
          points sc + (if robots_found net robots_url then 4 else 0) /\
        sitemap_directive_found rr = declared_sitemap net robots_url /\
        found_in_robots (rr_sitemap rr)
          = is_some (declared_sitemap net robots_url) /\
        rt_status (rr_robots rr) = robots_status net robots_url
  end.
Proof.
  unfold check_robots, io_try_except, io_bind, requests_get, request, io_ret,
    robots_found, declared_sitemap, robots_break, robots_status.
  destruct (net GET robots_url) as [r | msg | msg];
    cbn [is_RequestException exn_str].
  - destruct (status_code r =? 200).
    + eexists; split; [reflexivity |]. cbn.
      destruct (find_sitemap_directive (splitlines (text r)));
        repeat split; try reflexivity; lia.
    + destruct (status_code r =? 404);
        eexists; (split; [reflexivity |]); cbn; repeat split; lia.
  - eexists; split; [reflexivity |]. cbn. repeat split; lia.
  - reflexivity.
Qed.

(** The [try] statement for one candidate: its requests, and whether the
    candidate is found. *)
Lemma try_probe_sitemap_spec u st tr :
  match probe_break net u with
  | Some msg =>
      io_try_except (probe_sitemap net u st) is_RequestException
        (fun _ => io_ret (set_sm_status st "Error Fetching")) tr
      = (Raise (Exception msg), tr ++ requests_for net u)
  | None =>
      exists st',
        io_try_except (probe_sitemap net u st) is_RequestException
          (fun _ => io_ret (set_sm_status st "Error Fetching")) tr
        = (Ok st', tr ++ requests_for net u) /\
        if candidate_found net u then st' = sitemap_success st
        else exists s, st' = set_sm_status st s
  end.
Proof.
  unfold probe_sitemap, io_try_except, io_bind, requests_head, requests_get,
    request, io_ret, candidate_found, requests_for, probe_break.
  destruct (net HEAD u) as [r | msg | msg]; cbn [is_RequestException].
  - destruct (status_code r =? 200); cbn [orb]; [eauto |].
    destruct (status_code r =? 404); cbn [orb]; [eauto |].
    rewrite <- app_assoc. cbn [app].
    destruct (net GET u) as [r' | msg' | msg']; cbn [is_RequestException];
      [| eauto | reflexivity].
    destruct (status_code r' =? 200); [eauto |].
    destruct (status_code r' =? 404); eauto.
  - eauto.
  - reflexivity.
Qed.

(** What the loop over the candidates leaves: it probes the candidates in
    order up to the first that is found, and gives its 5 points once. *)
Lemma probe_sitemaps_spec urls : forall st tr,
  sitemap_found st = false ->
  requested net urls
  = (if is_some (first_break net urls) then requested net urls
     else probed net urls) /\
  match first_break net urls with
  | Some msg =>
      probe_sitemaps net urls st tr
      = (Raise (Exception msg),
         tr ++ flat_map (requests_for net) (requested net urls))
  | None =>
      exists st',
        probe_sitemaps net urls st tr
        = (Ok st', tr ++ flat_map (requests_for net) (probed net urls)) /\
        sitemap_found st' = existsb (candidate_found net) urls /\
        max_points (ss_scoring st') = max_points (ss_scoring st) /\
        points (ss_scoring st') =
          points (ss_scoring st) +
          (if existsb (candidate_found net) urls then 5 else 0) /\
        found_in_robots (ss_sitemap st') = found_in_robots (ss_sitemap st) /\
        (existsb (candidate_found net) urls = true ->
         sm_status (ss_sitemap st') = "Found" /\
         sm_url (ss_sitemap st') = List.find (candidate_found net) urls)
  end.
Proof.
  induction urls as [| u rest IH]; intros st tr Hf.
  - split; [reflexivity |]. exists st. simpl. rewrite app_nil_r.
    repeat split; try assumption; try lia; discriminate.
  - cbn [probe_sitemaps first_break requested]. rewrite Hf.
    pose proof (try_probe_sitemap_spec u (set_sm_url st u) tr) as Hu.
    destruct (probe_break net u) as [msg |].
    { cbn [is_some orb]. rewrite orb_true_r. split; [reflexivity |].
      unfold io_bind at 1. rewrite Hu. cbn [flat_map].
      rewrite app_nil_r. reflexivity. }
    destruct Hu as (st1 & E & Hc).
    cbn [probed flat_map existsb List.find is_some orb]. rewrite orb_false_r.
    destruct (candidate_found net u) eqn:Ec.
    + split; [reflexivity |].
      unfold io_bind at 1. rewrite E.
      subst st1. cbn [sitemap_found sitemap_success orb flat_map].
      rewrite app_nil_r.
      eexists. split; [reflexivity |]. cbn.
      repeat split; try reflexivity; lia.
    + destruct Hc as [s ->].
      specialize (IH (set_sm_status (set_sm_url st u) s)
                     (tr ++ requests_for net u) Hf).
      destruct IH as [Hreq IH].
      destruct (first_break net rest) as [msg |].
      { split; [reflexivity |].
        unfold io_bind at 1. rewrite E.
        cbn [sitemap_found set_sm_status set_sm_url]. rewrite Hf.
        rewrite IH, <- app_assoc. reflexivity. }
      cbn [is_some] in *. split; [now rewrite Hreq |].
      unfold io_bind at 1. rewrite E.
      cbn [sitemap_found set_sm_status set_sm_url]. rewrite Hf.
      destruct IH as (st2 & E2 & Hfound & Hmax & Hpts & Hrob & Hst).
      exists st2. rewrite E2, <- app_assoc. cbn [orb].
      cbn in Hmax, Hpts, Hrob.
      repeat split; try assumption; apply Hst; assumption.
Qed.

(** An exception that passes through comes from a request. *)
Lemma probe_break_breaks u msg :
  probe_break net u = Some msg -> exists m, net m u = Breaks msg.
Proof.
  unfold probe_break.
  destruct (net HEAD u) as [r | msg' | msg'] eqn:Eh; try discriminate.
  - destruct ((status_code r =? 200) || (status_code r =? 404));
      [discriminate |].
    destruct (net GET u) as [r' | msg' | msg'] eqn:Eg; try discriminate.
    intros [= <-]. exists GET. exact Eg.
  - intros [= <-]. exists HEAD. exact Eh.
Qed.

Lemma first_break_breaks urls msg :
  first_break net urls = Some msg -> exists m u, net m u = Breaks msg.
Proof.
  induction urls as [| u rest IH]; [discriminate |].
  cbn [first_break].
  destruct (probe_break net u) as [msg' |] eqn:Ep.
  - intros [= <-]. destruct (probe_break_breaks u _ Ep) as [m Hm]. eauto.
  - destruct (candidate_found net u); [discriminate | exact IH].
Qed.

End Probes.

Section TechnicalAnalysis.
Context `{Libs}.
Variable net : network.

Lemma check_https_spec scheme sc :
  fst (check_https scheme sc) = fst (check_https scheme zero_scoring) /\
  max_points (snd (check_https scheme sc)) = max_points sc /\
  points (snd (check_https scheme sc)) = points sc + https_points scheme.
Proof.
  unfold https_points, check_https.
  destruct (String.eqb scheme "https"); simpl; repeat split; lia.
Qed.

Lemma check_load_time_spec t sc :
  fst (check_load_time t sc) = fst (check_load_time t zero_scoring) /\
  max_points (snd (check_load_time t sc)) = max_points sc /\
  points (snd (check_load_time t sc)) = points sc + load_points t.
Proof.
  unfold load_points, check_load_time.
  branch_on_matches; simpl; repeat split; lia.
Qed.

Lemma check_mobile_spec md sc :
  fst (check_mobile md sc) = fst (check_mobile md zero_scoring) /\
  max_points (snd (check_mobile md sc)) = max_points sc /\
  points (snd (check_mobile md sc)) = points sc + mobile_points md.
Proof.
  unfold mobile_points, check_mobile.
  branch_on_matches; simpl; repeat split; lia.
Qed.

(** The candidates: the declared sitemap when its URL is not empty, the
    common locations otherwise. *)
Lemma sitemap_urls_to_check_spec base directive :
  sitemap_urls_to_check base directive =
  match directive with
  | Some u => if truthy u then [u] else common_locations base
  | None => common_locations base
  end.
Proof.
  unfold sitemap_urls_to_check, common_locations.
  destruct directive as [u |]; simpl; [destruct (truthy u) |]; reflexivity.
Qed.

Lemma check_sitemap_spec base rr tr :
  let candidates := sitemap_urls_to_check base (sitemap_directive_found rr) in
  let ok := existsb (candidate_found net) candidates in
  match first_break net candidates with
  | Some msg =>
      check_sitemap net base rr tr
      = (Raise (Exception msg),
         tr ++ flat_map (requests_for net) (requested net candidates))
  | None =>
      exists st,
        check_sitemap net base rr tr
        = (Ok st, tr ++ flat_map (requests_for net) (probed net candidates)) /\
        max_points (ss_scoring st) = max_points (rr_scoring rr) /\
        points (ss_scoring st) = points (rr_scoring rr) + (if ok then 5 else 0) /\
        found_in_robots (ss_sitemap st) = found_in_robots (rr_sitemap rr) /\
        sm_status (ss_sitemap st) =
          (if ok then "Found" else "Not Found (Common Locations)") /\
        (ok = true ->
         sm_url (ss_sitemap st) = List.find (candidate_found net) candidates)
  end.
Proof.
  cbv zeta. unfold check_sitemap, io_bind.
  pose proof (probe_sitemaps_spec net
                (sitemap_urls_to_check base (sitemap_directive_found rr))
                {| ss_sitemap := rr_sitemap rr; sitemap_found := false;
                   ss_scoring := rr_scoring rr |} tr eq_refl) as [_ Hp].
  destruct (first_break net _) as [msg |].
  { rewrite Hp. reflexivity. }
  destruct Hp as (st & E & Hfound & Hmax & Hpts & Hrob & Hst).
  rewrite E, Hfound. cbn [ss_scoring ss_sitemap] in Hmax, Hpts, Hrob.
  destruct (existsb (candidate_found net) _) eqn:Eok; cbn [negb]; unfold io_ret.
  - exists st. destruct (Hst eq_refl) as [Hs Hu].
    split; [reflexivity |]. repeat split; try assumption.
    intros _. assumption.
  - eexists. split; [reflexivity |].
    cbn [ss_scoring ss_sitemap set_sm_status add_points points max_points
         sm_status found_in_robots].
    repeat split; try assumption; try lia; discriminate.
Qed.

(** The whole of [analyze_technical_seo]. When a request raises an
    exception that is not a [RequestException], the analysis raises it.
    Otherwise it returns; it sends the request for robots.txt and then the
    probes of the candidates, up to the first that is found; its points
    are the sum of what the six checks give, robots.txt giving 4 only when
    it is fetched with the status 200 and the sitemap 5 only when a
    candidate is found; and what it reports of the other checks is what
    they give whatever the network does. *)
Lemma technical_analysis_cases url soup load_time md tr :
  let scheme := urlparse_scheme url in
  let base := (scheme ++ "://" ++ urlparse_netloc url)%string in
  let robots_url := urljoin base "/robots.txt" in
  let candidates := sitemap_urls_to_check base (declared_sitemap net robots_url) in
  let ok := existsb (candidate_found net) candidates in
  match technical_break net url with
  | Some msg =>
      analyze_technical_seo_scoring net url soup load_time md tr
      = (Raise (Exception msg), tr ++ technical_requests net url)
  | None =>
      technical_requests net url
      = (GET, robots_url) ::
        flat_map (requests_for net) (probed net candidates) /\
      exists td sc,
        analyze_technical_seo_scoring net url soup load_time md tr
        = (Ok (td, sc),
           tr ++ (GET, robots_url) ::
                 flat_map (requests_for net) (probed net candidates)) /\
        (max_points sc = 27 /\
         points sc =
           https_points scheme + (if robots_found net robots_url then 4 else 0) +
           (if ok then 5 else 0) + load_points load_time + mobile_points md +
           schema_points soup) /\
        (found_in_robots (sitemap_xml td)
           = is_some (declared_sitemap net robots_url) /\
         sm_status (sitemap_xml td) =
           (if ok then "Found" else "Not Found (Common Locations)") /\
         (ok = true ->
          sm_url (sitemap_xml td) = List.find (candidate_found net) candidates)) /\
        rt_status (robots_txt td) = robots_status net robots_url /\
        (https_status td = fst (check_https scheme zero_scoring) /\
         load_time_status td = fst (check_load_time load_time zero_scoring) /\
         mobile_friendly td = fst (check_mobile md zero_scoring) /\
         scan_schema (schema_tags soup)
           {| present := false; types := []; details := [] |}
         = Ok (schema_markup td))
  end.
Proof.
  cbv zeta.
  unfold analyze_technical_seo_scoring, technical_break, technical_requests.
  destruct (check_https_spec (urlparse_scheme url)
              {| points := 0; max_points := 27 |}) as (Hs1 & Hm1 & Hp1).
  destruct (check_https (urlparse_scheme url) _) as [hs sc1].
  cbn [fst snd] in Hs1, Hm1, Hp1.
  unfold io_bind, io_lift.
  match goal with
  | |- context [check_robots net ?u ?sc ?t] =>
      pose proof (check_robots_spec net u sc t) as Hrb
  end.
  destruct (robots_break net _) as [msg |].
  { rewrite Hrb. reflexivity. }
  destruct Hrb as (rr & E2 & Hm2 & Hp2 & Hd2 & Hf2 & Hr2). rewrite E2.
  match goal with
  | |- context [check_sitemap net ?b ?r ?t] =>
      pose proof (check_sitemap_spec b r t) as Hsm;
      pose proof (probe_sitemaps_spec net
                    (sitemap_urls_to_check b (sitemap_directive_found r))
                    {| ss_sitemap := rr_sitemap r; sitemap_found := false;
                       ss_scoring := rr_scoring r |} t eq_refl) as [Hreq _]
  end.
  cbv zeta in Hsm. rewrite Hd2 in *.
  destruct (first_break net _) as [msg |].
  { rewrite Hsm, <- app_assoc. reflexivity. }
  cbn [is_some] in Hreq. split; [now rewrite Hreq |].
  destruct Hsm as (st & E3 & Hm3 & Hp3 & Hf3 & Hs3 & Hu3). rewrite E3.
  destruct (check_load_time_spec load_time (ss_scoring st)) as (Hs4 & Hm4 & Hp4).
  destruct (check_load_time load_time (ss_scoring st)) as [lts sc4].
  cbn [fst snd] in Hs4, Hm4, Hp4.
  destruct (check_mobile_spec md sc4) as (Hs5 & Hm5 & Hp5).
  destruct (check_mobile md sc4) as [mf sc5].
  cbn [fst snd] in Hs5, Hm5, Hp5.
  fold (schema_tags soup).
  destruct (scan_schema_returns (schema_tags soup)
              {| present := false; types := []; details := [] |})
    as (sm & E6 & Hp6).
  rewrite E6. unfold io_ret.
  do 2 eexists. split.
  { rewrite <- app_assoc. reflexivity. }
  cbn [robots_txt sitemap_xml load_time_status mobile_friendly https_status
       schema_markup].
  split.
  { unfold schema_points. rewrite Hp6.
    destruct (schema_tags soup); cbn [present add_points points max_points];
      simpl in Hm1, Hp1; split; lia. }
  split; [split; [rewrite Hf3; exact Hf2 | split; [exact Hs3 | exact Hu3]] |].
  split; [exact Hr2 |].
  repeat split; assumption.
Qed.

(** The analysis when no request raises such an exception. *)
Lemma technical_analysis_spec url soup load_time md tr :
  technical_break net url = None ->
  let scheme := urlparse_scheme url in
  let base := (scheme ++ "://" ++ urlparse_netloc url)%string in
  let robots_url := urljoin base "/robots.txt" in
  let candidates := sitemap_urls_to_check base (declared_sitemap net robots_url) in
  let ok := existsb (candidate_found net) candidates in
  exists td sc,
    analyze_technical_seo_scoring net url soup load_time md tr
    = (Ok (td, sc),
       tr ++ (GET, robots_url) ::
             flat_map (requests_for net) (probed net candidates)) /\
    (max_points sc = 27 /\
     points sc =
       https_points scheme + (if robots_found net robots_url then 4 else 0) +
       (if ok then 5 else 0) + load_points load_time + mobile_points md +
       schema_points soup) /\
    (found_in_robots (sitemap_xml td) = is_some (declared_sitemap net robots_url) /\
     sm_status (sitemap_xml td) =
       (if ok then "Found" else "Not Found (Common Locations)") /\
     (ok = true ->
      sm_url (sitemap_xml td) = List.find (candidate_found net) candidates)) /\
    rt_status (robots_txt td) = robots_status net robots_url /\
    (https_status td = fst (check_https scheme zero_scoring) /\
     load_time_status td = fst (check_load_time load_time zero_scoring) /\
     mobile_friendly td = fst (check_mobile md zero_scoring) /\
     scan_schema (schema_tags soup)
       {| present := false; types := []; details := [] |}
     = Ok (schema_markup td)).
Proof.
  intros Hnb.
  pose proof (technical_analysis_cases url soup load_time md tr) as Hc.
  cbv zeta in Hc. rewrite Hnb in Hc. apply Hc.
Qed.

(** The analysis when a request raises one. *)
Lemma technical_analysis_raises url soup load_time md tr msg :
  technical_break net url = Some msg ->
  analyze_technical_seo_scoring net url soup load_time md tr
    = (Raise (Exception msg), tr ++ technical_requests net url) /\
  analyze_technical_seo net url soup load_time md tr
    = (Raise (Exception msg), tr ++ technical_requests net url).
Proof.
  intros Hb.
  pose proof (technical_analysis_cases url soup load_time md tr) as E.
  cbv zeta in E. rewrite Hb in E.
  split; [exact E |].
  unfold analyze_technical_seo, io_bind. rewrite E. reflexivity.
Qed.

Lemma technical_break_breaks url msg :
  technical_break net url = Some msg -> exists m u, net m u = Breaks msg.
Proof.
  unfold technical_break, robots_break.
  destruct (net GET _) as [r | msg' | msg'] eqn:Eg.
  - apply first_break_breaks.
  - apply first_break_breaks.
  - intros [= <-]. eauto.
Qed.

Lemma no_technical_break url :
  only_request_errors net -> technical_break net url = None.
Proof.
  intros Hnet. destruct (technical_break net url) as [msg |] eqn:Eb;
    [| reflexivity].
  destruct (technical_break_breaks url msg Eb) as (m & u & Hb).
  exfalso. exact (Hnet m u msg Hb).
Qed.

(** The points of the checks that send no request. *)
Lemma local_points_bounds scheme load_time md soup :
  0 <= https_points scheme <= 3 /\ 0 <= load_points load_time <= 7 /\
  0 <= mobile_points md <= 5 /\ 0 <= schema_points soup <= 3.
Proof.
  pose proof (check_https_gains scheme zero_scoring) as G1.
  pose proof (check_load_time_gains load_time zero_scoring) as G2.
  pose proof (check_mobile_gains md zero_scoring) as G3.
  unfold https_points, load_points, mobile_points, schema_points, gains in *.
  cbn [points zero_scoring] in *.
  destruct (schema_tags soup); lia.
Qed.

(** When no request raises an exception that is not a [RequestException],
    [analyze_technical_seo] returns, with between 0 and 27 points of a
    maximum of 27. *)
Lemma technical_points_bounds url soup load_time md tr :
  technical_break net url = None ->
  exists td sc tr',
    analyze_technical_seo_scoring net url soup load_time md tr
      = (Ok (td, sc), tr') /\
    analyze_technical_seo net url soup load_time md tr
      = (Ok (td, category_score sc), tr') /\
    max_points sc = 27 /\ 0 <= points sc <= 27.
Proof.
  intros Hnb.
  destruct (technical_analysis_spec url soup load_time md tr Hnb)
    as (td & sc & E & [Hm Hp] & _).
  exists td, sc. eexists. split; [exact E |].
  split; [unfold analyze_technical_seo, io_bind; rewrite E; reflexivity |].
  split; [exact Hm |].
  pose proof (local_points_bounds (urlparse_scheme url) load_time md soup)
    as (B1 & B2 & B3 & B4).
  rewrite Hp.
  destruct (robots_found net _), (existsb (candidate_found net) _); lia.
Qed.

(** What [analyze_technical_seo] returns is never without its score. *)
Lemma technical_returns_inv url soup load_time md tr td q tr' :
  analyze_technical_seo net url soup load_time md tr = (Ok (td, q), tr') ->
  technical_break net url = None.
Proof.
  intros E. destruct (technical_break net url) as [msg |] eqn:Eb;
    [| reflexivity].
  destruct (technical_analysis_raises url soup load_time md tr msg Eb)
    as (_ & E0).
  rewrite E0 in E. discriminate E.
Qed.

End TechnicalAnalysis.

(** ** The category scores (C1) *)

(** C1. For every parsed document, base URL, elapsed time and answers of
    the network, each of the four category scores, of [analyze_meta_tags],
    [analyze_on_page_content], [analyze_links] and [analyze_technical_seo],
    lies between 0 and 100 and is [100 * points / max_points] (0 when the
    maximum is 0). The content analysis returns its score whatever the
    readability library does; every score that the technical analysis
    returns is such a percentage, and it returns one whenever none of its
    requests raises an exception that is not a [RequestException]. *)
Theorem category_scores_are_percentages `{Libs} (net : network)
    (soup : node) (url : string) (load_time : option Q) (md : meta_data)
    (tr : list (http_method * string)) :
  is_percentage_of (snd (analyze_meta_tags_scoring soup url))
                   (snd (analyze_meta_tags soup url)) /\
  (exists cd sc soup',
      analyze_on_page_content_scoring soup = Ok (cd, sc, soup') /\
      analyze_on_page_content soup = Ok (cd, category_score sc, soup') /\
      is_percentage_of sc (category_score sc)) /\
  is_percentage_of (snd (analyze_links_scoring soup url))
                   (snd (analyze_links soup url)) /\
  (forall td q tr',
      analyze_technical_seo net url soup load_time md tr = (Ok (td, q), tr') ->
      exists sc,
        analyze_technical_seo_scoring net url soup load_time md tr
          = (Ok (td, sc), tr') /\
        q = category_score sc /\ is_percentage_of sc q) /\
  (technical_break net url = None ->
   exists td sc tr',
      analyze_technical_seo_scoring net url soup load_time md tr
        = (Ok (td, sc), tr') /\
      analyze_technical_seo net url soup load_time md tr
        = (Ok (td, category_score sc), tr') /\
      is_percentage_of sc (category_score sc)).
Proof.
  split; [| split; [| split; [| split]]]; repeat split.
  - rewrite analyze_meta_tags_score.
    destruct (meta_points_bounds soup url) as [Hm Hp].
    apply category_score_percentage; lia.
  - rewrite analyze_meta_tags_score.
    destruct (meta_points_bounds soup url) as [Hm Hp].
    apply category_score_percentage; lia.
  - rewrite analyze_meta_tags_score.
    destruct (meta_points_bounds soup url) as [Hm Hp].
    apply category_score_percentage; lia.
  - destruct (content_points_bounds soup) as (cd & sc & soup' & E1 & E2 & Hm & Hp).
    exists cd, sc, soup'. repeat split; try assumption;
      apply category_score_percentage; lia.
  - rewrite analyze_links_score.
    destruct (links_points_bounds soup url) as [Hm Hp].
    apply category_score_percentage; lia.
  - rewrite analyze_links_score.
    destruct (links_points_bounds soup url) as [Hm Hp].
    apply category_score_percentage; lia.
  - rewrite analyze_links_score.
    destruct (links_points_bounds soup url) as [Hm Hp].
    apply category_score_percentage; lia.
  - intros td q tr' E.
    pose proof (technical_returns_inv net url soup load_time md tr td q tr' E)
      as Hnb.
    destruct (technical_points_bounds net url soup load_time md tr Hnb)
      as (td' & sc & tr'' & E1 & E2 & Hm & Hp).
    rewrite E2 in E. injection E as <- <- <-.
    exists sc. repeat split; try assumption;
      apply category_score_percentage; lia.
  - intros Hnb.
    destruct (technical_points_bounds net url soup load_time md tr Hnb)
      as (td & sc & tr' & E1 & E2 & Hm & Hp).
    exists td, sc, tr'. repeat split; try assumption;
      apply category_score_percentage; lia.
Qed.

(** ** The ceiling of the content score (C10) *)

(** C10. For every parsed document, [analyze_on_page_content] returns
    points that are never negative and never above 27, of a declared
    maximum of 30 (at most 5 + 3 for the headings, 5 for the length, 5 for
    the readability, 5 for the keywords and 4 for the image alts): the
    content score is at most 90 and never 100. *)
Theorem content_points_at_most_27 `{Libs} (soup : node) :
  (exists cd sc soup',
      analyze_on_page_content_scoring soup = Ok (cd, sc, soup') /\
      analyze_on_page_content soup = Ok (cd, category_score sc, soup') /\
      max_points sc = 30 /\ 0 <= points sc <= 27 /\
      (category_score sc <= 90)%Q /\ ~ (category_score sc == 100)%Q) /\
  (forall st sc, gains 0 (5 + 3) sc (score_headings st sc)) /\
  (forall wc sc, gains 0 5 sc (score_length wc sc)) /\
  (forall wc txt sc, exists rs rd sc',
      score_readability wc txt sc = Ok (rs, rd, sc') /\ gains 0 5 sc sc') /\
  (forall wc txt sc, gains 0 5 sc (snd (analyze_keywords wc txt sc))) /\
  (forall a sc, gains 0 4 sc (score_image_alts a sc)).
Proof.
  split; [| repeat split; intros;
            first [ apply score_headings_gains | apply score_length_gains
                  | apply score_readability_returns
                  | apply analyze_keywords_gains
                  | apply score_image_alts_gains ]].
  destruct (content_points_bounds soup) as (cd & sc & soup' & E1 & E2 & Hm & Hp).
  exists cd, sc, soup'. repeat split; try assumption; try lia.
  - rewrite category_score_eq by lia. rewrite Hm.
    apply Qle_shift_div_r; [reflexivity |].
    assert (Hq : (inject_Z (points sc) <= inject_Z 27)%Q)
      by (rewrite <- Zle_Qle; lia).
    change (inject_Z 27) with 27%Q in Hq. change (inject_Z 30) with 30%Q.
    lra.
  - rewrite category_score_eq by lia. rewrite Hm.
    assert (Hq : (inject_Z (points sc) <= inject_Z 27)%Q)
      by (rewrite <- Zle_Qle; lia).
    change (inject_Z 27) with 27%Q in Hq. change (inject_Z 30) with 30%Q.
    intros E.
    assert (E' : (100 * inject_Z (points sc) == 100 * 30)%Q).
    { rewrite <- (Qmult_div_r (100 * inject_Z (points sc)) 30) by discriminate.
      rewrite E. reflexivity. }
    lra.
Qed.

(** ** The heading hierarchy (C5) *)








(** The lists and the flag [has_h1] that the loop leaves. *)
Lemma headings_get_append hs k t nm :
  headings_get (headings_append hs k t) nm =
  if String.eqb k nm then headings_get hs nm ++ [t] else headings_get hs nm.
Proof.
  induction hs as [| [k' l] hs IH]; cbn [headings_append headings_get].
  - destruct (String.eqb k nm); reflexivity.
  - destruct (String.eqb k' k) eqn:Ek; cbn [headings_get].
    + apply String.eqb_eq in Ek; subst k'.
      destruct (String.eqb k nm); reflexivity.
    + destruct (String.eqb k' nm) eqn:En; [| apply IH].
      apply String.eqb_eq in En; subst k'.
      rewrite String.eqb_sym, Ek. reflexivity.
Qed.

Lemma fold_heading_step_lists tags nm : forall st,
  headings_get (hs_headings (fold_left heading_step tags st)) nm =
  headings_get (hs_headings st) nm ++
  map (get_text "") (filter (heading_named nm) tags).
Proof.
  induction tags as [| h tags IH]; intros st; cbn [fold_left filter map].
  - now rewrite app_nil_r.
  - rewrite IH. unfold heading_step, heading_named at 2, has_text.
    destruct (truthy (get_text "" h)); cbn [negb andb hs_headings].
    + rewrite headings_get_append.
      destruct (String.eqb (name h) nm); cbn [map];
        now rewrite <- ?app_assoc.
    + reflexivity.
Qed.

Lemma fold_heading_step_has_h1 tags : forall st,
  has_h1 (fold_left heading_step tags st) =
  has_h1 st || existsb (heading_named "h1") tags.
Proof.
  induction tags as [| h tags IH]; intros st; cbn [fold_left existsb].
  - now rewrite orb_false_r.
  - rewrite IH. unfold heading_step, heading_named at 2, has_text.
    destruct (truthy (get_text "" h)); cbn [negb andb has_h1];
      [| reflexivity].
    destruct (String.eqb (name h) "h1"); cbn [orb];
      [now rewrite orb_true_r | reflexivity].
Qed.

Lemma existsb_filter_nonempty {A} (p : A -> bool) l :
  existsb p l = negb (Nat.eqb (List.length (filter p l)) 0).
Proof.
  induction l as [| a l IH]; [reflexivity |].
  simpl. destruct (p a); simpl; [reflexivity | assumption].
Qed.


(** ** Image alt texts (C7) *)

(** The comparison of the percentage [w / t * 100] with a whole number, on
    the integers. *)
Lemma percentage_ge_bool w t k :
  0 < t ->
  Qge_bool ((inject_Z w / inject_Z t) * 100) (inject_Z k) = (k * t <=? 100 * w).
Proof.
  intros Ht. apply eq_iff_eq_true. unfold Qge_bool.
  rewrite Qle_bool_iff, Z.leb_le.
  destruct t as [| p | p]; try lia.
  unfold Qle, Qdiv, Qmult, Qinv, inject_Z; cbn -[Z.mul]. lia.
Qed.

(** The points of the image block, from the tally. *)
Lemma score_image_alts_points a sc :
  points (score_image_alts a sc) =
  points sc +
  (if total a <=? 0 then 4
   else if 90 * total a <=? 100 * with_alt a then 4
   else if 50 * total a <=? 100 * with_alt a then 2
   else 0).
Proof.
  unfold score_image_alts.
  destruct (0 <? total a) eqn:Et.
  - apply Z.ltb_lt in Et.
    replace (total a <=? 0) with false by (symmetry; apply Z.leb_gt; lia).
    change 90%Q with (inject_Z 90). change 50%Q with (inject_Z 50).
    rewrite !percentage_ge_bool by assumption.
    destruct (90 * total a <=? 100 * with_alt a); [simpl; lia |].
    destruct (50 * total a <=? 100 * with_alt a); simpl; lia.
  - apply Z.ltb_ge in Et.
    replace (total a <=? 0) with true by (symmetry; apply Z.leb_le; lia).
    simpl; lia.
Qed.

(** The tally of the loop over the images. *)
Lemma fold_image_step images : forall a,
  let a' := fold_left image_step images a in
  total a' = total a /\
  with_alt a' = with_alt a + Z.of_nat (List.length (filter has_alt images)) /\
  missing_alt a' =
    missing_alt a + Z.of_nat (List.length (filter (fun i => negb (has_alt i)) images)).
Proof.
  induction images as [| i images IH]; intros a; cbn zeta.
  - simpl. lia.
  - cbn [fold_left filter].
    specialize (IH (image_step a i)). cbn zeta in IH.
    destruct IH as (Ht & Hw & Hm). rewrite Ht, Hw, Hm.
    unfold image_step, has_alt.
    destruct (truthy (strip (get_default i "alt" ""))); cbn [Datatypes.length]; simpl; lia.
Qed.

(** C7. What the image block does with the images it counts: 4 points
    when it counts none, 4 when at least 90% of them have an alt text, 2
    when at least 50% have, 0 otherwise, so 4 for 9 of 10, 2 for 5 of 10
    and 4 for a page without images. But it counts the images of the
    document as the text extraction left it: on the page whose only image,
    without alt text, stands in the navigation bar, the document has one
    image and none with an alt text, the tally is of 0 images and the
    block gives 4 points, where 0% of the images of the document earn 0. *)
Theorem image_alt_scoring_after_extraction :
  (forall a sc,
      points (score_image_alts a sc) =
      points sc +
      (if total a <=? 0 then 4
       else if 90 * total a <=? 100 * with_alt a then 4
       else if 50 * total a <=? 100 * with_alt a then 2
       else 0)) /\
  (forall images,
      let a := scan_images images in
      total a = Z.of_nat (List.length images) /\
      with_alt a = Z.of_nat (List.length (filter has_alt images))) /\
  (let sc0 := {| points := 0; max_points := 30 |} in
   let imgs n k :=
     scan_images
       (find_all (named "img")
          (soup_after_extraction (Samples.page [] (Samples.images n k)))) in
   let ten_nine := imgs 10%nat 9%nat in
   let ten_five := imgs 10%nat 5%nat in
   let none := imgs 0%nat 0%nat in
   (total ten_nine = 10 /\ with_alt ten_nine = 9 /\
    points (score_image_alts ten_nine sc0) = 4) /\
   (total ten_five = 10 /\ with_alt ten_five = 5 /\
    points (score_image_alts ten_five sc0) = 2) /\
   (total none = 0 /\ points (score_image_alts none sc0) = 4)) /\
  (let soup := Samples.image_in_nav in
   let sc0 := {| points := 0; max_points := 30 |} in
   let in_document := scan_images (find_all (named "img") soup) in
   total in_document = 1 /\ with_alt in_document = 0 /\
   points (score_image_alts in_document sc0) = 0 /\
   exists cd sc soup',
     @analyze_on_page_content_scoring Samples.libs soup = Ok (cd, sc, soup') /\
     find_all (named "img") soup' = [] /\
     total (image_alts cd) = 0 /\
     points (score_image_alts (image_alts cd) sc0) = 4 /\
     points sc = 2 + 5 + 4).
Proof.
  split; [apply score_image_alts_points |].
  split.
  { intros images a. subst a. unfold scan_images.
    destruct (fold_image_step images
                {| total := Z.of_nat (List.length images); with_alt := 0;
                   missing_alt := 0; alt_tags := [] |}) as (Ht & Hw & _).
    cbn zeta in *. rewrite Ht, Hw. simpl. lia. }
  split; [vm_compute; repeat split; reflexivity |].
  cbv zeta. repeat split; try (vm_compute; reflexivity).
  do 3 eexists. split; [vm_compute; reflexivity |].
  repeat split; vm_compute; reflexivity.
Qed.

(** ** Counters *)

Section Counters.

Lemma counter_incr_keys c k :
  map fst (counter_incr c k) =
  if existsb (String.eqb k) (map fst c) then map fst c else map fst c ++ [k].
Proof.
  induction c as [| [k' n] c IH]; simpl; [reflexivity |].
  rewrite (String.eqb_sym k k').
  destruct (String.eqb k' k); simpl; [reflexivity |].
  rewrite IH. destruct (existsb (String.eqb k) (map fst c)); reflexivity.
Qed.

Lemma counter_get_incr c k k' :
  counter_get (counter_incr c k) k' =
  counter_get c k' + (if String.eqb k k' then 1 else 0).
Proof.
  induction c as [| [k0 n] c IH]; simpl.
  - destruct (String.eqb k k'); reflexivity.
  - destruct (String.eqb k0 k) eqn:E0; simpl.
    + apply String.eqb_eq in E0; subst k0.
      destruct (String.eqb k k'); lia.
    + destruct (String.eqb k0 k') eqn:E1; [| apply IH].
      apply String.eqb_eq in E1. rewrite E1, String.eqb_sym in E0.
      rewrite E0. lia.
Qed.

Lemma total_count_incr c k : total_count (counter_incr c k) = total_count c + 1.
Proof.
  induction c as [| [k' n] c IH]; [reflexivity |].
  cbn [counter_incr].
  destruct (String.eqb k' k); unfold total_count in *;
    cbn [fold_right snd]; [| rewrite IH]; lia.
Qed.

Lemma counter_incr_positive c k :
  Forall (fun e => 0 < snd e) c -> Forall (fun e => 0 < snd e) (counter_incr c k).
Proof.
  induction c as [| [k' n] c IH]; simpl; intros Hc.
  - constructor; [simpl; lia | constructor].
  - inversion Hc as [| ? ? Hn Hc']; subst. simpl in Hn.
    destruct (String.eqb k' k); constructor; simpl; auto; lia.
Qed.

Lemma filter_absorb {A} (p q : A -> bool) l :
  (forall y, p y = true -> q y = true) ->
  filter p (filter q l) = filter p l.
Proof.
  intros Hpq. induction l as [| a l IH]; simpl; [reflexivity |].
  destruct (q a) eqn:Eq; simpl.
  - rewrite IH. reflexivity.
  - destruct (p a) eqn:Ep; [| assumption].
    apply Hpq in Ep. congruence.
Qed.

Lemma filter_andb {A} (p q : A -> bool) l :
  filter (fun y => p y && q y) l = filter p (filter q l).
Proof.
  induction l as [| a l IH]; simpl; [reflexivity |].
  destruct (q a); simpl; [destruct (p a); simpl; now rewrite IH |].
  now rewrite andb_false_r.
Qed.

Lemma not_among_snoc ks x y :
  not_among (ks ++ [x]) y = not_among ks y && negb (String.eqb y x).
Proof.
  unfold not_among. rewrite existsb_app. simpl.
  rewrite orb_false_r, negb_orb. reflexivity.
Qed.

(** The keys after counting the words [l]: the keys before, then the new
    words in the order of their first occurrence. *)
Lemma fold_counter_incr_keys l : forall c,
  map fst (fold_left counter_incr l c) =
  map fst c ++ filter (not_among (map fst c)) (distinct l).
Proof.
  induction l as [| x l IH]; intros c; simpl.
  - now rewrite app_nil_r.
  - rewrite IH, counter_incr_keys.
    assert (Hx : not_among (map fst c) x =
                 negb (existsb (String.eqb x) (map fst c))) by reflexivity.
    destruct (existsb (String.eqb x) (map fst c)) eqn:Ex;
      cbn [filter]; rewrite Hx; cbn [negb].
    + f_equal. symmetry. apply filter_absorb.
      intros y Hy. destruct (String.eqb y x) eqn:Eyx; [| reflexivity].
      apply String.eqb_eq in Eyx; subst y.
      unfold not_among in Hy. rewrite Ex in Hy. discriminate.
    + rewrite <- app_assoc. simpl. do 2 f_equal.
      rewrite <- filter_andb. apply filter_ext.
      intros y. apply not_among_snoc.
Qed.

Lemma fold_counter_incr_get l k : forall c,
  counter_get (fold_left counter_incr l c) k = counter_get c k + occurrences k l.
Proof.
  unfold occurrences.
  induction l as [| x l IH]; intros c; simpl; [lia |].
  rewrite IH, counter_get_incr, (String.eqb_sym k x).
  destruct (String.eqb x k); cbn [Datatypes.length]; lia.
Qed.

Lemma fold_counter_incr_total l : forall c,
  total_count (fold_left counter_incr l c) =
  total_count c + Z.of_nat (List.length l).
Proof.
  induction l as [| x l IH]; intros c; simpl fold_left; cbn [Datatypes.length]; [lia |].
  rewrite IH, total_count_incr. lia.
Qed.

Lemma fold_counter_incr_positive l : forall c,
  Forall (fun e => 0 < snd e) c ->
  Forall (fun e => 0 < snd e) (fold_left counter_incr l c).
Proof.
  induction l as [| x l IH]; intros c Hc; simpl; [assumption |].
  apply IH, counter_incr_positive, Hc.
Qed.

Lemma filter_not_among_nil l : filter (not_among []) l = l.
Proof.
  induction l as [| a l IH]; simpl; [reflexivity | now rewrite IH].
Qed.

(** The keys of [Counter(l)] are the distinct words of [l], in the order
    of their first occurrence. *)
Lemma counter_of_keys l : map fst (counter_of l) = distinct l.
Proof.
  unfold counter_of. rewrite fold_counter_incr_keys. simpl.
  apply filter_not_among_nil.
Qed.

Lemma counter_of_get l k : counter_get (counter_of l) k = occurrences k l.
Proof. unfold counter_of. rewrite fold_counter_incr_get. reflexivity. Qed.

Lemma counter_of_total l :
  total_count (counter_of l) = Z.of_nat (List.length l).
Proof. unfold counter_of. rewrite fold_counter_incr_total. reflexivity. Qed.

Lemma counter_of_positive l : Forall (fun e => 0 < snd e) (counter_of l).
Proof. apply fold_counter_incr_positive. constructor. Qed.

Lemma distinct_In l x : In x (distinct l) <-> In x l.
Proof.
  induction l as [| a l IH]; simpl; [tauto |].
  rewrite filter_In, IH.
  destruct (String.eqb x a) eqn:E.
  - apply String.eqb_eq in E; subst. simpl. intuition.
  - simpl. apply String.eqb_neq in E. intuition congruence.
Qed.

Lemma distinct_NoDup l : NoDup (distinct l).
Proof.
  induction l as [| a l IH]; simpl; constructor.
  - rewrite filter_In. intros [_ E]. now rewrite String.eqb_refl in E.
  - now apply NoDup_filter.
Qed.

(** An entry of a counter with distinct keys holds the count of its key. *)
Lemma counter_get_entry c k n :
  NoDup (map fst c) -> In (k, n) c -> counter_get c k = n.
Proof.
  induction c as [| [k' n'] c IH]; simpl; intros Hnd Hin; [contradiction |].
  inversion Hnd as [| ? ? Hk' Hnd']; subst.
  destruct Hin as [E | Hin].
  - inversion E; subst. now rewrite String.eqb_refl.
  - destruct (String.eqb k' k) eqn:Ek; [| auto].
    apply String.eqb_eq in Ek; subst k'.
    exfalso. apply Hk'. apply in_map_iff. exists (k, n). auto.
Qed.

End Counters.

(** ** The stable sort of [most_common] *)

Section StableSort.

Variable R : string * Z -> string * Z -> Prop.

Lemma insert_desc_perm x l : Permutation (insert_desc x l) (x :: l).
Proof.
  induction l as [| y l IH]; simpl; [reflexivity |].
  destruct (snd y <=? snd x); [reflexivity |].
  rewrite IH. apply perm_swap.
Qed.

Lemma sorted_desc_perm c : Permutation (sorted_desc c) c.
Proof.
  induction c as [| x c IH]; simpl; [reflexivity |].
  rewrite insert_desc_perm. now constructor.
Qed.



End StableSort.

Lemma firstn_In {A} n : forall (l : list A) x, In x (firstn n l) -> In x l.
Proof.
  induction n as [| n IH]; intros [| a l] x; simpl; try tauto.
  intros [-> | Hx]; [now left | right; auto].
Qed.







(** ** The top terms (C6) *)

Section TopTerms.

Variable mw : list string.

Lemma top_terms_entries k :
  mw <> [] -> top_terms k mw = map (entry mw) (most_common k (counter_of mw)).
Proof.
  intros Hne. unfold top_terms.
  assert (Hpos : (0 <? Z.of_nat (List.length mw)) = true).
  { apply Z.ltb_lt. destruct mw; [congruence |]. cbn [Datatypes.length]. lia. }
  rewrite Hpos. destruct mw; [congruence |].
  apply map_ext. intros [word cnt]. reflexivity.
Qed.



Lemma most_common_In k e :
  In e (most_common k (counter_of mw)) -> In e (counter_of mw).
Proof.
  unfold most_common. intros Hin.
  eapply Permutation_in; [apply sorted_desc_perm |].
  eapply firstn_In, Hin.
Qed.

Lemma counter_of_entry w n :
  In (w, n) (counter_of mw) ->
  In w mw /\ n = occurrences w mw /\ 0 < n <= Z.of_nat (List.length mw).
Proof.
  intros Hin.
  assert (Hw : In w mw).
  { apply distinct_In. rewrite <- counter_of_keys.
    apply in_map_iff. exists (w, n). auto. }
  assert (Hn : n = occurrences w mw).
  { rewrite <- counter_of_get. symmetry. apply counter_get_entry; [| assumption].
    rewrite counter_of_keys. apply distinct_NoDup. }
  repeat split; try assumption.
  - pose proof (counter_of_positive mw) as Hp.
    rewrite Forall_forall in Hp. apply (Hp (w, n) Hin).
  - subst n. unfold occurrences. apply inj_le, filter_length_le.
Qed.








End TopTerms.






(** ** The classification of the links (C3) *)

Section Links.
Context `{Libs}.
Variable base_url : string.

Lemma http_scheme_truthy s : is_http_scheme s = true -> truthy s = true.
Proof.
  unfold is_http_scheme. simpl. rewrite orb_false_r.
  intros E. apply orb_true_iff in E as [E | E];
    apply String.eqb_eq in E; subst; reflexivity.
Qed.

Lemma other_condition s :
  negb (truthy s) || negb (is_http_scheme s) = negb (is_http_scheme s).
Proof.
  destruct (is_http_scheme s) eqn:E; [| now rewrite orb_true_r].
  now rewrite (http_scheme_truthy s E).
Qed.

Lemma counter_incr_anchor c link :
  (if truthy (get_text "" link)
   then counter_incr c (get_text "" link)
   else counter_incr c EMPTY_ANCHOR) = counter_incr c (anchor_key link).
Proof. unfold anchor_key. destruct (truthy (get_text "" link)); reflexivity. Qed.

(** One turn of the loop, by the class of the anchor. *)
Lemma link_step_spec ld a :
  link_step base_url (get_domain base_url) ld a =
  {| internal := internal ld ++
       (if has_type base_url "internal" a then [full_url base_url a] else []);
     external := external ld ++
       (if has_type base_url "external" a then [full_url base_url a] else []);
     internal_count := internal_count ld +
       (if has_type base_url "internal" a then 1 else 0);
     external_count := external_count ld +
       (if has_type base_url "external" a then 1 else 0);
     anchor_texts := counter_incr (anchor_texts ld) (anchor_key a);
     links_all := links_all ld ++ [link_record base_url a] |}.
Proof.
  unfold link_step. rewrite other_condition, counter_incr_anchor.
  unfold has_type, link_record, link_type, full_url.
  destruct (is_http_scheme (urlparse_scheme
              (urljoin base_url (get_default a "href" "")))); cbn [negb].
  - destruct (String.eqb (get_domain (urljoin base_url (get_default a "href" "")))
                         (get_domain base_url));
      simpl; rewrite ?app_nil_r, ?Z.add_0_r; reflexivity.
  - simpl; rewrite ?app_nil_r, ?Z.add_0_r; reflexivity.
Qed.

(** What the loop over the anchors leaves, from what it finds. *)
Lemma fold_link_step anchors : forall ld,
  fold_left (link_step base_url (get_domain base_url)) anchors ld =
  {| internal := internal ld ++
       map (full_url base_url) (filter (has_type base_url "internal") anchors);
     external := external ld ++
       map (full_url base_url) (filter (has_type base_url "external") anchors);
     internal_count := internal_count ld +
       Z.of_nat (List.length (filter (has_type base_url "internal") anchors));
     external_count := external_count ld +
       Z.of_nat (List.length (filter (has_type base_url "external") anchors));
     anchor_texts :=
       fold_left counter_incr (map anchor_key anchors) (anchor_texts ld);
     links_all := links_all ld ++ map (link_record base_url) anchors |}.
Proof.
  induction anchors as [| a anchors IH]; intros ld.
  - destruct ld; simpl. now rewrite !app_nil_r, !Z.add_0_r.
  - cbn [fold_left]. rewrite IH, link_step_spec. clear IH.
    cbn [internal external internal_count external_count anchor_texts
         links_all map filter fold_left].
    destruct (has_type base_url "internal" a),
             (has_type base_url "external" a);
      cbn [map Datatypes.length]; rewrite <- ?app_assoc; cbn [app];
      rewrite ?app_nil_r; f_equal; lia.
Qed.

Lemma scan_links_spec soup :
  let anchors := anchors_of soup in
  scan_links soup base_url =
  {| internal :=
       map (full_url base_url) (filter (has_type base_url "internal") anchors);
     external :=
       map (full_url base_url) (filter (has_type base_url "external") anchors);
     internal_count :=
       Z.of_nat (List.length (filter (has_type base_url "internal") anchors));
     external_count :=
       Z.of_nat (List.length (filter (has_type base_url "external") anchors));
     anchor_texts := counter_of (map anchor_key anchors);
     links_all := map (link_record base_url) anchors |}.
Proof.
  unfold scan_links. cbv zeta. rewrite fold_link_step. reflexivity.
Qed.

End Links.

Lemma analyze_links_data `{Libs} soup base_url :
  fst (analyze_links soup base_url) = scan_links soup base_url.
Proof. reflexivity. Qed.

(** C3, as it holds. For every anchor element with an href, in document
    order, [analyze_links] resolves the href against the base URL, counts
    the anchor text (or "[Empty Anchor]") in the anchor-text counter, and
    records the link in the full list with its class: "other" when the
    scheme of the resolved URL is neither http nor https, and else
    "internal" exactly when the domain of the resolved URL is the domain
    of the base URL, "external" when it is not. The internal and external
    lists and counts hold the links of these two classes only. On the base
    https://a.com/ the hrefs /about, https://b.com/x and mailto:x@y.com
    are internal, external and other. *)
Theorem links_classified_by_resolved_url `{Libs} (soup : node)
    (base_url : string) :
  (let ld := fst (analyze_links soup base_url) in
   let anchors := anchors_of soup in
   links_all ld = map (link_record base_url) anchors /\
   internal ld =
     map (full_url base_url) (filter (has_type base_url "internal") anchors) /\
   external ld =
     map (full_url base_url) (filter (has_type base_url "external") anchors) /\
   internal_count ld = Z.of_nat (List.length (internal ld)) /\
   external_count ld = Z.of_nat (List.length (external ld)) /\
   anchor_texts ld = counter_of (map anchor_key anchors)) /\
  (forall a,
      li_href (link_record base_url a) =
        urljoin base_url (get_default a "href" "") /\
      li_type (link_record base_url a) =
        if is_http_scheme (urlparse_scheme (li_href (link_record base_url a)))
        then if String.eqb (get_domain (li_href (link_record base_url a)))
                           (get_domain base_url)
             then "internal" else "external"
        else "other") /\
  (let ld := fst (@analyze_links Samples.libs Samples.three_links Samples.base) in
   map li_href (links_all ld) =
     ["https://a.com/about"; "https://b.com/x"; "mailto:x@y.com"] /\
   map li_type (links_all ld) = ["internal"; "external"; "other"] /\
   internal ld = ["https://a.com/about"] /\
   external ld = ["https://b.com/x"] /\
   internal_count ld = 1 /\ external_count ld = 1).
Proof.
  split.
  { cbv zeta. rewrite analyze_links_data.
    pose proof (scan_links_spec base_url soup) as E. cbv zeta in E.
    rewrite E. cbn [links_all internal external internal_count external_count
                    anchor_texts].
    rewrite !length_map. repeat split; reflexivity. }
  split; [intros a; split; reflexivity |].
  vm_compute. repeat split; reflexivity.
Qed.

(** C3, as the specification states it, fails on two pages. The score does
    not ignore the links of the class "other": with three mail addresses
    beside its one link, a page earns the points for varied anchor texts
    that it does not earn without them. And a fragment-only href is not of
    the class "other": resolved against an https page it is an https URL
    of the same domain, an internal link. *)
Lemma other_links_excluded_counterexample :
  ~ (forall (L : Libs) (soup : node) (base_url : string),
        (snd (analyze_links soup base_url) ==
         snd (analyze_links (remove_other_links base_url soup) base_url))%Q) /\
  ~ (forall href : string,
        String.prefix "#" href = true ->
        @link_type Samples.libs Samples.base (Samples.a_href href "x") = "other").
Proof.
  split.
  - intros Hall.
    specialize (Hall Samples.libs Samples.one_link_three_mails Samples.base).
    vm_compute in Hall. discriminate.
  - intros Hall. specialize (Hall "#top" eq_refl).
    vm_compute in Hall. discriminate.
Qed.

(** ** The points of the links (C4) *)

(** C4, as it holds. [analyze_links] gives points only to a page with at
    least one http or https link, and to such a page: 5 points; 5 more
    when it has internal and external links and more than 5 links in all;
    and 5 when its anchors carry more than 3 distinct texts and fewer
    than half as many empty ones as there are http and https links, or
    else 2 when they carry more than 1 distinct text. The distinct texts
    and the empty anchors are those of all anchors, the empty ones counted
    under "[Empty Anchor]". *)
Theorem link_points_rubric `{Libs} (soup : node) (base_url : string) :
  let ld := fst (analyze_links_scoring soup base_url) in
  let sc := snd (analyze_links_scoring soup base_url) in
  let anchors := anchors_of soup in
  let internal_n :=
    Z.of_nat (List.length (filter (has_type base_url "internal") anchors)) in
  let external_n :=
    Z.of_nat (List.length (filter (has_type base_url "external") anchors)) in
  let total := internal_n + external_n in
  let distinct_texts :=
    Z.of_nat (List.length (distinct (map anchor_key anchors))) in
  let empty_anchors := occurrences EMPTY_ANCHOR (map anchor_key anchors) in
  max_points sc = 15 /\
  internal_count ld = internal_n /\ external_count ld = external_n /\
  points sc = (if 0 <? total then spec_link_points ld else 0) /\
  points sc =
    if 0 <? total then
      5 +
      (if (0 <? internal_n) && (0 <? external_n) && (5 <? total) then 5 else 0) +
      (if (3 <? distinct_texts) && (2 * empty_anchors <? total) then 5
       else if 1 <? distinct_texts then 2 else 0)
    else 0.
Proof.
  cbv zeta. unfold analyze_links_scoring. cbn [fst snd].
  pose proof (scan_links_spec base_url soup) as E. cbv zeta in E.
  set (ld := scan_links soup base_url) in *.
  assert (Ei : internal_count ld =
               Z.of_nat (List.length (filter (has_type base_url "internal")
                                             (anchors_of soup))))
    by (rewrite E; reflexivity).
  assert (Ee : external_count ld =
               Z.of_nat (List.length (filter (has_type base_url "external")
                                             (anchors_of soup))))
    by (rewrite E; reflexivity).
  assert (Ea : anchor_texts ld = counter_of (map anchor_key (anchors_of soup)))
    by (rewrite E; reflexivity).
  assert (Ed : Z.of_nat (List.length (anchor_texts ld)) =
               Z.of_nat (List.length (distinct (map anchor_key (anchors_of soup))))).
  { rewrite Ea, <- counter_of_keys, length_map. reflexivity. }
  assert (Eg : counter_get (anchor_texts ld) EMPTY_ANCHOR =
               occurrences EMPTY_ANCHOR (map anchor_key (anchors_of soup))).
  { rewrite Ea. apply counter_of_get. }
  clearbody ld. clear E Ea.
  unfold score_links, spec_link_points.
  rewrite Ed, Eg, Ei, Ee.
  repeat split;
    repeat match goal with
           | |- context [if ?b then _ else _] => destruct b
           end; simpl; lia.
Qed.

(** C4, as the specification states it, fails on a page that has two mail
    addresses and no http or https link: the three awards taken
    independently give 2 points for the two distinct anchor texts, and
    [analyze_links] gives none. *)
Lemma link_points_counterexample :
  ~ (forall (L : Libs) (soup : node) (base_url : string),
        points (snd (analyze_links_scoring soup base_url)) =
        spec_link_points (fst (analyze_links_scoring soup base_url))).
Proof.
  intros Hall. specialize (Hall Samples.libs Samples.two_mails Samples.base).
  vm_compute in Hall. discriminate.
Qed.

(** ** The probes of robots.txt and of the sitemap (C8, C9) *)

(** C8, as it holds. The sitemap is probed at candidate URLs in order: the
    URL that robots.txt declares, when robots.txt was fetched with the
    status 200 and its first [sitemap:] line (found without regard to
    case) gives a URL that is not empty, and else /sitemap.xml and then
    /sitemap_index.xml; [found_in_robots] tells that robots.txt has a
    [sitemap:] line, be its URL empty. Every candidate is probed with a
    HEAD request, and with a GET request when the answer to HEAD is neither
    200 nor 404; the first candidate answered with 200 gives 5 points and
    ends the probing; no candidate found gives no points. This is the
    run of the probes whose requests are answered or raise a
    [RequestException]; a request that raises another exception ends the
    analysis (see C9). *)
Theorem sitemap_candidates_probed_in_order `{Libs} (net : network)
    (url : string) (soup : node) (load_time : option Q) (md : meta_data) :
  let scheme := urlparse_scheme url in
  let base := (scheme ++ "://" ++ urlparse_netloc url)%string in
  let robots_url := urljoin base "/robots.txt" in
  let declared := declared_sitemap net robots_url in
  let candidates :=
    match declared with
    | Some u => if truthy u then [u] else common_locations base
    | None => common_locations base
    end in
  let ok := existsb (candidate_found net) candidates in
  (forall lines,
      find_sitemap_directive lines =
      option_map sitemap_line_value (List.find is_sitemap_line lines)) /\
  (technical_break net url = None ->
   exists td sc,
      analyze_technical_seo_scoring net url soup load_time md []
      = (Ok (td, sc),
         (GET, robots_url) ::
         flat_map (requests_for net) (probed net candidates)) /\
      found_in_robots (sitemap_xml td) = is_some declared /\
      sm_status (sitemap_xml td) =
        (if ok then "Found" else "Not Found (Common Locations)") /\
      (ok = false \/
       sm_url (sitemap_xml td) = List.find (candidate_found net) candidates) /\
      points sc =
        https_points scheme + (if robots_found net robots_url then 4 else 0) +
        (if ok then 5 else 0) + load_points load_time + mobile_points md +
        schema_points soup) /\
  (let r := @analyze_technical_seo_scoring Samples.libs
              (site robots_body "https://a.com/sm.xml" 200)
              "https://a.com/" (Samples.page [] []) None no_meta_data [] in
   snd r = [(GET, "https://a.com/robots.txt"); (HEAD, "https://a.com/sm.xml")] /\
   exists td sc,
     fst r = Ok (td, sc) /\
     sitemap_xml td = {| sm_status := "Found";
                         sm_url := Some "https://a.com/sm.xml";
                         found_in_robots := true |} /\
     points sc = 3 + 4 + 5) /\
  (let r := @analyze_technical_seo_scoring Samples.libs fallback_site
              "https://a.com/" (Samples.page [] []) None no_meta_data [] in
   snd r = [(GET, "https://a.com/robots.txt");
            (HEAD, "https://a.com/sitemap.xml");
            (HEAD, "https://a.com/sitemap_index.xml");
            (GET, "https://a.com/sitemap_index.xml")] /\
   exists td sc,
     fst r = Ok (td, sc) /\
     sitemap_xml td = {| sm_status := "Found";
                         sm_url := Some "https://a.com/sitemap_index.xml";
                         found_in_robots := false |} /\
     points sc = 3 + 0 + 5).
Proof.
  cbv zeta. split; [apply find_sitemap_directive_first |].
  split.
  { intros Hnb.
    destruct (technical_analysis_spec net url soup load_time md [] Hnb)
      as (td & sc & E & [_ Hp] & (Hf & Hs & Hu) & _).
    rewrite sitemap_urls_to_check_spec in *. unfold common_locations in *.
    exists td, sc. repeat split; try assumption.
    destruct (existsb (candidate_found net) _) eqn:Eok;
      [right; apply Hu; reflexivity | left; reflexivity]. }
  split.
  - split; [vm_compute; reflexivity |].
    do 2 eexists. split; [vm_compute; reflexivity |].
    split; vm_compute; reflexivity.
  - split; [vm_compute; reflexivity |].
    do 2 eexists. split; [vm_compute; reflexivity |].
    split; vm_compute; reflexivity.
Qed.

(** C8, as the specification states it, fails for a robots.txt whose
    [sitemap:] line gives no URL: the directive is found and
    [found_in_robots] is set, and the first candidate probed is
    /sitemap.xml, not the declared sitemap. *)
Lemma declared_sitemap_counterexample : ~ declared_sitemap_probed_first.
Proof.
  intros Hall.
  destruct (@technical_analysis_spec Samples.libs (site "Sitemap:" "" 404)
              "https://a.com/" (Samples.page [] []) None no_meta_data []
              eq_refl)
    as (td & sc & E & _).
  specialize (Hall Samples.libs (site "Sitemap:" "" 404) "https://a.com/"
                (Samples.page [] []) None no_meta_data td sc _ "" E eq_refl).
  destruct Hall as [_ Hn]. clear E. vm_compute in Hn. discriminate Hn.
Qed.

(** C9. The two [try] statements of the probes catch
    [RequestException] and nothing else. A request that raises another
    exception ends [analyze_technical_seo], and with it the analysis of
    the page: a robots.txt that declares the sitemap "http://a..com/x",
    for which [requests] raises the [LocationParseError] of [urllib3],
    makes the analysis raise after the HEAD request, and so does any
    request that raises such an exception. When the requests are answered
    or raise a [RequestException] (a failure of the request, a timeout,
    any status), the analysis returns its data and a score that is a
    percentage: a robots.txt that is not fetched with the status 200 is
    reported in its status ("Not Found", "Error (Status: n)" or
    "Error fetching: ...") and gives no points; a sitemap that is not found
    is reported as "Not Found (Common Locations)", whatever the probes
    wrote before, and gives no points; and the four other checks report
    and give what they do whatever the network answers. On a network
    where every request raises a [RequestException], a page served over
    https in one second gets its 3 + 7 points. *)
Theorem probe_failures_caught_as_request_exceptions `{Libs} (net : network)
    (url : string) (soup : node) (load_time : option Q) (md : meta_data)
    (tr : list (http_method * string)) :
  let scheme := urlparse_scheme url in
  let base := (scheme ++ "://" ++ urlparse_netloc url)%string in
  let robots_url := urljoin base "/robots.txt" in
  let candidates := sitemap_urls_to_check base (declared_sitemap net robots_url) in
  let ok := existsb (candidate_found net) candidates in
  (let e := Exception "Failed to parse: 'a..com', label empty or too long" in
   let requests :=
     [(GET, "https://a.com/robots.txt"); (HEAD, "http://a..com/x")] in
   @analyze_technical_seo Samples.libs site_declaring_unparsable_sitemap
     "https://a.com/" (Samples.page [] []) (Some 1%Q) no_meta_data []
   = (Raise e, requests) /\
   @run_analysis Samples.libs site_declaring_unparsable_sitemap
     (Samples.page [] []) "https://a.com/" (Some 1%Q) []
   = (Raise e, requests)) /\
  (forall msg,
      technical_break net url = Some msg ->
      (exists m u, net m u = Breaks msg) /\
      exists tr',
        analyze_technical_seo net url soup load_time md tr
        = (Raise (Exception msg), tr')) /\
  (only_request_errors net -> technical_break net url = None) /\
  (technical_break net url = None ->
   exists td sc tr',
      analyze_technical_seo net url soup load_time md tr
      = (Ok (td, category_score sc), tr') /\
      is_percentage_of sc (category_score sc) /\
      points sc =
        https_points scheme + (if robots_found net robots_url then 4 else 0) +
        (if ok then 5 else 0) + load_points load_time + mobile_points md +
        schema_points soup /\
      rt_status (robots_txt td) =
        match net GET robots_url with
        | Responds r =>
            if status_code r =? 200 then "Found"
            else if status_code r =? 404 then "Not Found"
            else ("Error (Status: " ++ str_of_int (status_code r) ++ ")")%string
        | Fails msg => ("Error fetching: " ++ msg)%string
        | Breaks _ => "Not Checked"
        end /\
      sm_status (sitemap_xml td) =
        (if ok then "Found" else "Not Found (Common Locations)") /\
      https_status td = fst (check_https scheme zero_scoring) /\
      load_time_status td = fst (check_load_time load_time zero_scoring) /\
      mobile_friendly td = fst (check_mobile md zero_scoring) /\
      scan_schema (schema_tags soup)
        {| present := false; types := []; details := [] |}
      = Ok (schema_markup td)) /\
  (let r := @analyze_technical_seo Samples.libs dead_network "https://a.com/"
              (Samples.page [] []) (Some 1%Q) no_meta_data [] in
   exists td,
     fst r = Ok (td, category_score {| points := 3 + 7; max_points := 27 |}) /\
     rt_status (robots_txt td) = "Error fetching: timed out" /\
     sm_status (sitemap_xml td) = "Not Found (Common Locations)" /\
     https_status td = "good" /\ load_time_status td = "good").
Proof.
  cbv zeta. split; [split; vm_compute; reflexivity |].
  split.
  { intros msg Hb. split; [exact (technical_break_breaks net url msg Hb) |].
    destruct (technical_analysis_raises net url soup load_time md tr msg Hb)
      as (_ & E). eauto. }
  split; [apply no_technical_break |].
  split.
  - intros Hnb.
    destruct (technical_analysis_spec net url soup load_time md tr Hnb)
      as (td & sc & E & [Hm Hp] & (_ & Hs & _) & Hr & Hh & Hl & Hmf & Hsch).
    exists td, sc. eexists.
    split; [unfold analyze_technical_seo, io_bind; rewrite E; reflexivity |].
    split.
    { apply category_score_percentage; [lia |].
      destruct (technical_points_bounds net url soup load_time md tr Hnb)
        as (td' & sc' & tr' & E' & _ & Hm' & Hb').
      rewrite E in E'. inversion E'; subst. lia. }
    repeat split; assumption.
  - eexists. split; [vm_compute; reflexivity |].
    repeat split; vm_compute; reflexivity.
Qed.

(* ================================================================== *)
(** * Further properties of the analyzers *)
(* ================================================================== *)

(** ** What [analyze_on_page_content] returns *)

(** The data, from the document: the headings of the loop over the heading
    tags, the text and the words of the body after the extraction, the
    keywords of that text, the tally of the images of the document as the
    extraction leaves it, and that document. *)
Lemma content_analysis_data `{Libs} soup cd sc soup' :
  analyze_on_page_content_scoring soup = Ok (cd, sc, soup') ->
  soup' = soup_after_extraction soup /\
  headings cd = hs_headings (scan_headings (heading_tags soup)) /\
  text_content cd =
    match find (named "body") soup with
    | Some body => get_text " " (strip_non_content body)
    | None => ""
    end /\
  word_count cd =
    match find (named "body") soup with
    | Some _ => Z.of_nat (List.length (split (text_content cd)))
    | None => 0
    end /\
  (forall sc0,
      top_keywords cd = fst (analyze_keywords (word_count cd) (text_content cd) sc0)) /\
  image_alts cd =
    scan_images (find_all (named "img") (soup_after_extraction soup)).
Proof.
  unfold analyze_on_page_content_scoring, heading_tags.
  match goal with
  | |- context [score_readability ?wc ?txt ?sc] =>
      destruct (score_readability_returns wc txt sc) as (rs & rd & sc3 & E & _);
      rewrite E
  end.
  cbn [bind].
  match goal with
  | |- context [analyze_keywords ?wc ?txt sc3] =>
      assert (Hk : forall sc0, fst (analyze_keywords wc txt sc3)
                               = fst (analyze_keywords wc txt sc0))
        by (intros sc0; unfold analyze_keywords; branch_on_matches; reflexivity);
      destruct (analyze_keywords wc txt sc3) as [kw sc4]
  end.
  intros E'. inversion E'; subst. cbn [fst] in Hk.
  cbn [headings text_content word_count top_keywords image_alts].
  repeat split; try reflexivity. exact Hk.
Qed.

(** ** The tally of the links *)

Lemma link_type_cases `{Libs} base_url a :
  (has_type base_url "internal" a = true /\
   has_type base_url "external" a = false /\
   is_other (link_record base_url a) = false) \/
  (has_type base_url "internal" a = false /\
   has_type base_url "external" a = true /\
   is_other (link_record base_url a) = false) \/
  (has_type base_url "internal" a = false /\
   has_type base_url "external" a = false /\
   is_other (link_record base_url a) = true).
Proof.
  unfold has_type, is_other, link_record, link_type. cbn [li_type].
  destruct (is_http_scheme _);
    [destruct (String.eqb (get_domain _) (get_domain base_url)) |];
    simpl; tauto.
Qed.

Lemma link_types_partition `{Libs} base_url anchors :
  (List.length (filter (has_type base_url "internal") anchors) +
   List.length (filter (has_type base_url "external") anchors) +
   List.length (filter is_other (map (link_record base_url) anchors))
   = List.length anchors)%nat.
Proof.
  induction anchors as [| a anchors IH]; [reflexivity |].
  cbn [map filter].
  destruct (link_type_cases base_url a)
    as [(E1 & E2 & E3) | [(E1 & E2 & E3) | (E1 & E2 & E3)]];
    rewrite E1, E2, E3; cbn [Datatypes.length]; lia.
Qed.

(** Every anchor with an href is counted once: it has one record in the
    full list, one count in the anchor texts, and it is of one of the
    three classes, the internal and external counts and the records of the
    class "other" adding up to the number of anchors. *)
Theorem link_tallies_add_up `{Libs} (soup : node) (base_url : string) :
  let ld := fst (analyze_links soup base_url) in
  let n := Z.of_nat (List.length (anchors_of soup)) in
  Z.of_nat (List.length (links_all ld)) = n /\
  total_count (anchor_texts ld) = n /\
  internal_count ld + external_count ld +
    Z.of_nat (List.length (filter is_other (links_all ld))) = n /\
  Forall (fun li => In (li_type li) ["internal"; "external"; "other"])
         (links_all ld).
Proof.
  cbv zeta. rewrite analyze_links_data.
  pose proof (scan_links_spec base_url soup) as E. cbv zeta in E. rewrite E.
  cbn [links_all anchor_texts internal_count external_count].
  split; [now rewrite length_map |].
  split; [now rewrite counter_of_total, length_map |].
  split.
  - pose proof (link_types_partition base_url (anchors_of soup)). lia.
  - apply Forall_forall. intros li Hli.
    apply in_map_iff in Hli as (a & <- & _).
    unfold link_record, link_type. cbn [li_type].
    destruct (is_http_scheme _);
      [destruct (String.eqb (get_domain _) (get_domain base_url)) |];
      simpl; tauto.
Qed.

(** ** The tally of the images *)

Lemma fold_image_step_tags images : forall a,
  alt_tags (fold_left image_step images a) =
  alt_tags a ++ map image_entry images.
Proof.
  induction images as [| i images IH]; intros a; cbn [fold_left map].
  - now rewrite app_nil_r.
  - rewrite IH. unfold image_step, image_entry, has_alt.
    destruct (truthy (strip (get_default i "alt" ""))); cbn [alt_tags];
      now rewrite <- app_assoc.
Qed.

Lemma filter_length_split {A} (p : A -> bool) l :
  (List.length (filter p l) + List.length (filter (fun x => negb (p x)) l)
   = List.length l)%nat.
Proof.
  induction l as [| a l IH]; [reflexivity |].
  simpl. destruct (p a); simpl; lia.
Qed.

(** The tally of the images is consistent: one entry per image, in
    document order; the images with and without alt text add up to the
    total; and the entries marked present are as many as the images with
    an alt text. *)
Theorem image_tally_consistent (images : list node) :
  let a := scan_images images in
  alt_tags a = map image_entry images /\
  total a = Z.of_nat (List.length (alt_tags a)) /\
  total a = with_alt a + missing_alt a /\
  0 <= with_alt a <= total a /\
  with_alt a = Z.of_nat (List.length (filter is_present (alt_tags a))).
Proof.
  cbv zeta. unfold scan_images.
  set (a0 := {| total := Z.of_nat (List.length images); with_alt := 0;
                missing_alt := 0; alt_tags := [] |}).
  destruct (fold_image_step images a0) as (Ht & Hw & Hm). cbv zeta in *.
  pose proof (fold_image_step_tags images a0) as Hg. cbn [alt_tags a0 app] in Hg.
  pose proof (filter_length_split has_alt images) as Hsplit.
  rewrite Hg, Ht, Hw, Hm. cbn [total with_alt missing_alt a0].
  assert (Hp : List.length (filter is_present (map image_entry images))
               = List.length (filter has_alt images)).
  { clear. induction images as [| i images IH]; [reflexivity |].
    cbn [map filter]. unfold is_present at 1, image_entry at 1.
    destruct (has_alt i); cbn [status String.eqb Ascii.eqb Bool.eqb Datatypes.length];
      lia. }
  rewrite Hp, length_map. repeat split; lia.
Qed.

(** ** The headings *)

(** The loop over the heading tags records, under every tag name, the
    texts of the tags of that name that have a text, in document order;
    and [has_h1] is set exactly when the list recorded under h1 is not
    empty. *)
Theorem headings_recorded_in_order (tags : list node) :
  let st := scan_headings tags in
  (forall nm,
      headings_get (hs_headings st) nm =
      map (get_text "") (filter (heading_named nm) tags)) /\
  has_h1 st = existsb (heading_named "h1") tags /\
  has_h1 st = (0 <? h1_count st).
Proof.
  cbv zeta. unfold scan_headings.
  assert (Hl : forall nm,
             headings_get (hs_headings (fold_left heading_step tags heading_init)) nm =
             map (get_text "") (filter (heading_named nm) tags)).
  { intros nm. rewrite fold_heading_step_lists. reflexivity. }
  assert (Hh : has_h1 (fold_left heading_step tags heading_init) =
               existsb (heading_named "h1") tags).
  { rewrite fold_heading_step_has_h1. reflexivity. }
  repeat split; try assumption.
  rewrite Hh. unfold h1_count. rewrite Hl, length_map, existsb_filter_nonempty.
  destruct (List.length (filter (heading_named "h1") tags)); reflexivity.
Qed.

(** ** The document after the text extraction *)

(** Induction on a document: a property of every text node, that holds of
    an element when it holds of its children, holds of every node. *)
Lemma node_induction (P : node -> Prop) :
  (forall s, P (NavigableString s)) ->
  (forall nm attrs cs, Forall P cs -> P (Tag nm attrs cs)) ->
  forall n, P n.
Proof.
  intros Hs Ht.
  fix IH 1. intros [s | nm attrs cs]; [apply Hs |].
  apply Ht.
  exact ((fix children (l : list node) : Forall P l :=
            match l with
            | [] => Forall_nil P
            | c :: l' => Forall_cons c (IH c) (children l')
            end) cs).
Qed.

(** [prune], by the children that are kept. *)
Lemma prune_tag p nm attrs cs :
  prune p (Tag nm attrs cs) =
  Tag nm attrs (map (prune p) (filter (fun c => negb (is_tag c && p c)) cs)).
Proof.
  cbn [prune]. f_equal.
  induction cs as [| c cs IH]; [reflexivity |].
  cbn [filter]. destruct (is_tag c && p c); cbn [negb map]; now rewrite IH.
Qed.

Lemma prune_keeps_name p nms n :
  is_tag (prune p n) = is_tag n /\ named_in nms (prune p n) = named_in nms n.
Proof. destruct n; [split; reflexivity |]. rewrite prune_tag. split; reflexivity. Qed.

Lemma descendants_tag nm attrs cs :
  descendants (Tag nm attrs cs) = flat_map (fun c => c :: descendants c) cs.
Proof. reflexivity. Qed.

(** No element with one of the names [nms] is left below a node pruned of
    these names. *)
Lemma prune_leaves_none nms n :
  Forall (fun d => is_tag d && named_in nms d = false)
         (descendants (prune (named_in nms) n)).
Proof.
  induction n as [s | nm attrs cs IH] using node_induction; [constructor |].
  rewrite prune_tag, descendants_tag.
  induction cs as [| c cs IHcs]; [constructor |].
  inversion IH as [| ? ? Hc Hcs]; subst.
  cbn [filter]. destruct (is_tag c && named_in nms c) eqn:Ec; cbn [negb];
    [apply IHcs, Hcs |].
  cbn [map flat_map]. constructor.
  - destruct (prune_keeps_name (named_in nms) nms c) as [-> ->]. exact Ec.
  - apply Forall_app. split; [exact Hc | apply IHcs, Hcs].
Qed.

(** The text nodes of a pruned node are text nodes of the node. *)
Lemma prune_strings p n : incl (strings (prune p n)) (strings n).
Proof.
  induction n as [s | nm attrs cs IH] using node_induction;
    [apply incl_refl |].
  rewrite prune_tag. cbn [strings].
  induction cs as [| c cs IHcs]; [apply incl_refl |].
  inversion IH as [| ? ? Hc Hcs]; subst.
  cbn [filter flat_map]. destruct (is_tag c && p c); cbn [negb map flat_map].
  - apply incl_appr, IHcs, Hcs.
  - apply incl_app; [apply incl_appl, Hc | apply incl_appr, IHcs, Hcs].
Qed.

Lemma filter_nil_Forall {A} (p : A -> bool) l :
  Forall (fun x => p x = false) l -> filter p l = [].
Proof.
  induction 1 as [| a l Ha Hl IH]; [reflexivity |].
  simpl. now rewrite Ha.
Qed.

(** After the extraction, the body holds no script, style, nav, footer or
    aside element any more, whatever their depth was; it keeps its name
    and attributes; and every text node it holds was a text node of the
    body. So the words that are counted, the images that are tallied and
    whatever is searched in the body afterwards lie outside these
    elements. *)
Theorem extraction_removes_non_content (body : node) :
  find_all (named_in non_content) (strip_non_content body) = [] /\
  (forall nm, In nm non_content ->
              find_all (named nm) (strip_non_content body) = []) /\
  name (strip_non_content body) = name body /\
  get (strip_non_content body) = get body /\
  incl (strings (strip_non_content body)) (strings body).
Proof.
  unfold strip_non_content.
  pose proof (prune_leaves_none non_content body) as Hnone.
  split.
  { unfold find_all. apply filter_nil_Forall. exact Hnone. }
  split.
  { intros nm Hin. unfold find_all. apply filter_nil_Forall.
    eapply Forall_impl; [| exact Hnone].
    intros d Hd. cbv beta in *.
    destruct (is_tag d); [| reflexivity]. cbn [andb] in *.
    destruct (named nm d) eqn:En; [| reflexivity].
    assert (Hn : named_in non_content d = true)
      by (apply existsb_exists; exists nm; split; assumption).
    congruence. }
  split; [destruct body; [reflexivity | now rewrite prune_tag] |].
  split; [destruct body; [reflexivity | now rewrite prune_tag] |].
  apply prune_strings.
Qed.

(** ** The element that the extraction rewrites *)

Section UpdateFirst.

Variable p : node -> bool.
Variable f : node -> node.

(** The filter looks at the name of an element only, and the rewriting
    keeps the name. *)
Hypothesis p_by_name :
  forall a b, name a = name b -> is_tag a = is_tag b -> p a = p b.
Hypothesis f_keeps_name :
  forall c, name (f c) = name c /\ is_tag (f c) = is_tag c.

Lemma hd_error_filter_app {A} (q : A -> bool) l1 l2 :
  hd_error (filter q (l1 ++ l2)) =
  match hd_error (filter q l1) with
  | Some x => Some x
  | None => hd_error (filter q l2)
  end.
Proof.
  induction l1 as [| a l1 IH]; [reflexivity |].
  simpl. destruct (q a); [reflexivity | assumption].
Qed.

Lemma find_children nm attrs c l :
  find p (Tag nm attrs (c :: l)) =
  if is_tag c && p c then Some c
  else match find p c with
       | Some b => Some b
       | None => find p (Tag nm attrs l)
       end.
Proof.
  unfold find, find_all. rewrite descendants_tag. cbn [flat_map].
  rewrite hd_error_filter_app. cbn [filter].
  destruct (is_tag c && p c); [reflexivity |].
  rewrite <- descendants_tag with (nm := nm) (attrs := attrs). reflexivity.
Qed.

Lemma update_first_children nm attrs c l :
  update_first p f (Tag nm attrs (c :: l)) =
  if is_tag c && p c then Some (Tag nm attrs (f c :: l))
  else match update_first p f c with
       | Some c' => Some (Tag nm attrs (c' :: l))
       | None =>
           match update_first p f (Tag nm attrs l) with
           | Some (Tag _ _ l') => Some (Tag nm attrs (c :: l'))
           | _ => None
           end
       end.
Proof.
  cbn [update_first].
  destruct (is_tag c && p c); [reflexivity |].
  destruct (update_first p f c); [reflexivity |].
  match goal with |- context [option_map (cons c) ?g] => destruct g end;
    reflexivity.
Qed.

(** [update_first] rewrites the element that [find] finds: it fails when
    [find] finds nothing, and else the element found in the new tree is
    the image of the element found in the old one. *)
Lemma update_first_find n :
  match find p n with
  | None => update_first p f n = None
  | Some b =>
      exists n', update_first p f n = Some n' /\
                 find p n' = Some (f b) /\
                 name n' = name n /\ is_tag n' = is_tag n
  end.
Proof.
  induction n as [s | nm attrs cs IH] using node_induction; [reflexivity |].
  induction cs as [| c cs IHcs]; [reflexivity |].
  inversion IH as [| ? ? Hc Hcs]; subst. specialize (IHcs Hcs).
  rewrite find_children, update_first_children.
  destruct (is_tag c && p c) eqn:Ec.
  - eexists. split; [reflexivity |]. split; [| split; reflexivity].
    rewrite find_children.
    destruct (f_keeps_name c) as [Hn Ht].
    rewrite Ht, (p_by_name (f c) c Hn Ht), Ec. reflexivity.
  - destruct (find p c) as [b |] eqn:Ef.
    + destruct Hc as (c' & Eu & Ef' & Hn & Ht). rewrite Eu.
      eexists. split; [reflexivity |]. split; [| split; reflexivity].
      rewrite find_children, Ht, (p_by_name c' c Hn Ht), Ec, Ef'. reflexivity.
    + rewrite Hc.
      destruct (find p (Tag nm attrs cs)) as [b |] eqn:Ef2.
      * destruct IHcs as (n' & Eu & Ef' & Hn & Ht). rewrite Eu.
        destruct n' as [s | nm' attrs' l']; [discriminate |].
        cbn [name] in Hn. subst nm'.
        eexists. split; [reflexivity |]. split; [| split; reflexivity].
        rewrite find_children, Ec, Ef.
        unfold find, find_all in *. rewrite descendants_tag in *. exact Ef'.
      * rewrite IHcs. reflexivity.
Qed.

End UpdateFirst.

Lemma named_by_name nm a b :
  name a = name b -> is_tag a = is_tag b -> named nm a = named nm b.
Proof.
  destruct a, b; cbn [name is_tag named]; intros Hn Ht;
    try discriminate; congruence.
Qed.

Lemma strip_non_content_keeps_name c :
  name (strip_non_content c) = name c /\
  is_tag (strip_non_content c) = is_tag c.
Proof.
  unfold strip_non_content. destruct c; [split; reflexivity |].
  rewrite prune_tag. split; reflexivity.
Qed.


(** On a document without a body element, [analyze_on_page_content] finds
    no text: the word count is 0, there are no keywords and no
    readability, the document is left as it is, and the points are those
    of the headings and of the images alone. *)
Theorem content_without_body `{Libs} (soup : node) :
  find (named "body") soup = None ->
  exists cd sc,
    analyze_on_page_content_scoring soup = Ok (cd, sc, soup) /\
    word_count cd = 0 /\ text_content cd = "" /\ top_keywords cd = [] /\
    readability_score cd = None /\ readability_desc cd = NotEnoughContent /\
    sc = score_image_alts (scan_images (find_all (named "img") soup))
           (score_headings (scan_headings (heading_tags soup))
              {| points := 0; max_points := 30 |}).
Proof.
  intros Hb.
  assert (Hs : soup_after_extraction soup = soup).
  { unfold soup_after_extraction.
    pose proof (update_first_find (named "body") strip_non_content
                  (named_by_name "body") strip_non_content_keeps_name soup) as Hu.
    rewrite Hb in Hu. now rewrite Hu. }
  unfold analyze_on_page_content_scoring. rewrite Hb, Hs.
  cbn [score_length score_readability analyze_keywords Z.leb Z.ltb Z.compare
       MIN_CONTENT_LENGTH_WORDS bind].
  do 2 eexists. split; [reflexivity |].
  repeat split; reflexivity.
Qed.

Lemma content_without_body_witness :
  exists cd sc,
    @analyze_on_page_content_scoring Samples.libs bodiless_page
      = Ok (cd, sc, bodiless_page) /\
    word_count cd = 0 /\ text_content cd = "" /\ top_keywords cd = [] /\
    readability_score cd = None /\ readability_desc cd = NotEnoughContent /\
    sc = score_image_alts (scan_images (find_all (named "img") bodiless_page))
           (score_headings (scan_headings (heading_tags bodiless_page))
              {| points := 0; max_points := 30 |}).
Proof. exact (@content_without_body Samples.libs bodiless_page eq_refl). Defined.

(** ** The analysis of a page as a whole *)



(** ** The overall score (C2) *)





(** ** The requests of the technical analysis *)






(** ** Monotonicity of the rubric *)

Lemma Qle_bool_trans_l a b c :
  (a <= b)%Q -> Qle_bool b c = true -> Qle_bool a c = true.
Proof.
  rewrite !Qle_bool_iff. intros Hab Hbc. eapply Qle_trans; eassumption.
Qed.

(** A faster page never gets fewer points for its load time, a longer
    text never fewer points for its length, and, for the same number of
    images, more alt texts never fewer points. *)
Theorem rubric_is_monotone (t1 t2 : Q) (wc1 wc2 : Z)
    (a1 a2 : image_alt_analysis) (sc : scoring) :
  (t1 <= t2)%Q -> wc1 <= wc2 ->
  total a1 = total a2 -> with_alt a1 <= with_alt a2 ->
  load_points (Some t2) <= load_points (Some t1) /\
  points (score_length wc1 sc) <= points (score_length wc2 sc) /\
  points (score_image_alts a1 sc) <= points (score_image_alts a2 sc).
Proof.
  intros Ht Hwc Htot Halt. split; [| split].
  - unfold load_points, check_load_time.
    destruct (Qle_bool t2 GOOD_LOAD_TIME_THRESHOLD) eqn:E2.
    + rewrite (Qle_bool_trans_l _ _ _ Ht E2). simpl; lia.
    + destruct (Qle_bool t2 OK_LOAD_TIME_THRESHOLD) eqn:E4.
      * rewrite (Qle_bool_trans_l _ _ _ Ht E4).
        destruct (Qle_bool t1 GOOD_LOAD_TIME_THRESHOLD); simpl; lia.
      * destruct (Qle_bool t1 GOOD_LOAD_TIME_THRESHOLD);
          [| destruct (Qle_bool t1 OK_LOAD_TIME_THRESHOLD)]; simpl; lia.
  - unfold score_length, MIN_CONTENT_LENGTH_WORDS.
    destruct (300 <=? wc1) eqn:E1; destruct (300 <=? wc2) eqn:E2;
      destruct (0 <? wc1) eqn:E3; destruct (0 <? wc2) eqn:E4;
      simpl; lia.
  - rewrite !score_image_alts_points, Htot.
    destruct (total a2 <=? 0); [lia |].
    destruct (90 * total a2 <=? 100 * with_alt a1) eqn:E1;
      destruct (90 * total a2 <=? 100 * with_alt a2) eqn:E2;
      destruct (50 * total a2 <=? 100 * with_alt a1) eqn:E3;
      destruct (50 * total a2 <=? 100 * with_alt a2) eqn:E4; lia.
Qed.

Lemma rubric_is_monotone_witness :
  load_points (Some 3%Q) <= load_points (Some 1%Q) /\
  points (score_length 10 zero_scoring) <= points (score_length 400 zero_scoring) /\
  points (score_image_alts
            {| total := 10; with_alt := 5; missing_alt := 5; alt_tags := [] |}
            zero_scoring)
  <= points (score_image_alts
               {| total := 10; with_alt := 9; missing_alt := 1; alt_tags := [] |}
               zero_scoring).
Proof.
  apply (rubric_is_monotone 1 3 10 400
           {| total := 10; with_alt := 5; missing_alt := 5; alt_tags := [] |}
           {| total := 10; with_alt := 9; missing_alt := 1; alt_tags := [] |}
           zero_scoring).
  - vm_compute. discriminate.
  - lia.
  - reflexivity.
  - simpl. lia.
Defined.

(** ** The normal form of [clean_text] *)

(** Facts on single characters, by inspection of the 256 of them. *)
Ltac by_cases_on_char c :=
  destruct c as [[] [] [] [] [] [] [] []]; vm_compute; try reflexivity;
  try discriminate; auto.

Lemma lower_char_not_upper c : isupper (lower_char c) = false.
Proof. by_cases_on_char c. Qed.

Lemma clean_char_lower c : is_clean_char c = true -> lower_char c = c.
Proof. by_cases_on_char c. Qed.

Lemma clean_char_kept c :
  is_clean_char c = true ->
  isword c || isspace c || Ascii.eqb c "-" = true.
Proof. by_cases_on_char c. Qed.

Lemma clean_char_space c :
  is_clean_char c = true -> isspace c = true -> c = " "%char.
Proof. by_cases_on_char c. Qed.

Lemma kept_char_clean c :
  isupper c = false -> isword c || isspace c || Ascii.eqb c "-" = true ->
  isspace c = false -> is_clean_char c = true.
Proof. by_cases_on_char c. Qed.

Lemma all_chars_lower s : all_chars (fun c => negb (isupper c)) (lower s) = true.
Proof.
  induction s as [| c s IH]; [reflexivity |].
  cbn [lower all_chars]. now rewrite lower_char_not_upper, IH.
Qed.

Lemma all_chars_keep P s :
  all_chars P s = true ->
  all_chars (fun c => P c && (isword c || isspace c || Ascii.eqb c "-"))
            (keep_word_chars s) = true.
Proof.
  induction s as [| c s IH]; [reflexivity |].
  cbn [all_chars keep_word_chars]. intros Hs.
  apply andb_true_iff in Hs as [Hc Hs].
  destruct (isword c || isspace c || Ascii.eqb c "-") eqn:Ek; [| auto].
  cbn [all_chars]. now rewrite Hc, Ek, IH.
Qed.

Lemma all_chars_collapse b s :
  all_chars (fun c => negb (isupper c) &&
                      (isword c || isspace c || Ascii.eqb c "-")) s = true ->
  all_chars is_clean_char (collapse_spaces b s) = true.
Proof.
  revert b. induction s as [| c s IH]; intros b Hs; [reflexivity |].
  cbn [all_chars] in Hs. apply andb_true_iff in Hs as [Hc Hs].
  apply andb_true_iff in Hc as [Hu Hk]. apply negb_true_iff in Hu.
  cbn [collapse_spaces].
  pose proof (kept_char_clean c Hu Hk) as Hclean.
  destruct (isspace c) eqn:Esp.
  - destruct b; [apply IH; assumption |].
    cbn [all_chars]. rewrite IH by assumption. reflexivity.
  - cbn [all_chars]. rewrite Hclean by reflexivity. apply IH; assumption.
Qed.

Lemma all_chars_lstrip P s :
  all_chars P s = true -> all_chars P (lstrip s) = true.
Proof.
  induction s as [| c s IH]; [reflexivity |].
  intros Hs. cbn [lstrip]. destruct (isspace c); [| assumption].
  cbn [all_chars] in Hs. apply andb_true_iff in Hs as [_ Hs]. auto.
Qed.

Lemma all_chars_rstrip P s :
  all_chars P s = true -> all_chars P (rstrip s) = true.
Proof.
  induction s as [| c s IH]; [reflexivity |].
  intros Hs. cbn [all_chars] in Hs. apply andb_true_iff in Hs as [Hc Hs].
  cbn [rstrip]. specialize (IH Hs).
  destruct (rstrip s) as [| c' r].
  - destruct (isspace c); [reflexivity |]. cbn [all_chars]. now rewrite Hc.
  - cbn [all_chars] in *. now rewrite Hc, IH.
Qed.

Lemma no_double_collapse s : forall b,
  no_double b (collapse_spaces b s) = true.
Proof.
  induction s as [| c s IH]; intros b; [reflexivity |].
  cbn [collapse_spaces]. destruct (isspace c) eqn:Esp.
  - destruct b; [apply IH |].
    cbn [no_double]. change (isspace " ") with true. cbn [negb andb].
    apply IH.
  - cbn [no_double]. rewrite Esp. apply IH.
Qed.

Lemma no_double_lstrip s : forall b,
  no_double b s = true -> no_double true (lstrip s) = true.
Proof.
  induction s as [| c s IH]; intros b Hs; [reflexivity |].
  cbn [lstrip]. cbn [no_double] in Hs. destruct (isspace c) eqn:Esp.
  - apply andb_true_iff in Hs as [_ Hs]. eapply IH, Hs.
  - cbn [no_double]. now rewrite Esp.
Qed.

Lemma spaced_ok_nonempty s : spaced_ok true s = true -> s <> "".
Proof. destruct s; [discriminate | discriminate]. Qed.

Lemma spaced_ok_rstrip s : forall b,
  no_double b s = true ->
  rstrip s = "" \/ spaced_ok b (rstrip s) = true.
Proof.
  induction s as [| c s IH]; intros b Hs; [now left |].
  cbn [no_double] in Hs. cbn [rstrip].
  destruct (isspace c) eqn:Esp.
  - apply andb_true_iff in Hs as [Hb Hs].
    destruct (IH true Hs) as [-> | Hok]; [now left |].
    right. destruct (rstrip s) as [| c' r] eqn:Er; [discriminate |].
    cbn [spaced_ok]. rewrite Esp, Hb. exact Hok.
  - right. destruct (IH false Hs) as [-> | Hok].
    + cbn [spaced_ok]. now rewrite Esp.
    + destruct (rstrip s) as [| c' r] eqn:Er;
        cbn [spaced_ok]; rewrite Esp; [reflexivity | exact Hok].
Qed.

(** A normalized text is left as it is by every step of [clean_text]. *)
Lemma lower_clean s : all_chars is_clean_char s = true -> lower s = s.
Proof.
  induction s as [| c s IH]; [reflexivity |].
  cbn [all_chars lower]. intros Hs. apply andb_true_iff in Hs as [Hc Hs].
  now rewrite (clean_char_lower c Hc), IH.
Qed.

Lemma keep_clean s : all_chars is_clean_char s = true -> keep_word_chars s = s.
Proof.
  induction s as [| c s IH]; [reflexivity |].
  cbn [all_chars keep_word_chars]. intros Hs.
  apply andb_true_iff in Hs as [Hc Hs].
  now rewrite (clean_char_kept c Hc), IH.
Qed.

Lemma collapse_clean s : forall b,
  all_chars is_clean_char s = true -> spaced_ok b s = true ->
  collapse_spaces b s = s.
Proof.
  induction s as [| c s IH]; intros b Hs Hok; [reflexivity |].
  cbn [all_chars] in Hs. apply andb_true_iff in Hs as [Hc Hs].
  cbn [spaced_ok] in Hok. cbn [collapse_spaces].
  destruct (isspace c) eqn:Esp.
  - apply andb_true_iff in Hok as [Hb Hok]. apply negb_true_iff in Hb. subst b.
    rewrite (IH true Hs Hok), (clean_char_space c Hc Esp). reflexivity.
  - now rewrite (IH false Hs Hok).
Qed.

Lemma rstrip_clean s : forall b, spaced_ok b s = true -> rstrip s = s.
Proof.
  induction s as [| c s IH]; intros b Hok; [reflexivity |].
  cbn [spaced_ok] in Hok. cbn [rstrip].
  destruct (isspace c) eqn:Esp.
  - apply andb_true_iff in Hok as [_ Hok]. rewrite (IH true Hok).
    destruct s; [discriminate | reflexivity].
  - rewrite (IH false Hok). destruct s; reflexivity.
Qed.

Lemma strip_clean s : spaced_ok true s = true -> strip s = s.
Proof.
  intros Hok. unfold strip.
  assert (Hl : lstrip s = s).
  { destruct s as [| c s]; [reflexivity |]. cbn [spaced_ok] in Hok.
    cbn [lstrip]. destruct (isspace c); [discriminate | reflexivity]. }
  rewrite Hl. eapply rstrip_clean, Hok.
Qed.

Lemma clean_text_chars text : normalized (clean_text text).
Proof.
  unfold normalized, clean_text, strip. split.
  - apply all_chars_rstrip, all_chars_lstrip, all_chars_collapse.
    apply all_chars_keep, all_chars_lower.
  - pose proof (no_double_collapse (keep_word_chars (lower text)) false) as Hd.
    apply no_double_lstrip in Hd.
    destruct (spaced_ok_rstrip _ true Hd); auto.
Qed.

(** [clean_text] returns a text in normal form: only lower-case word
    characters, hyphens and spaces, no space at either end and no two
    spaces in a row; and it leaves a text in normal form as it is, so that
    cleaning twice is cleaning once. *)
Theorem clean_text_normal_form (text : string) :
  normalized (clean_text text) /\
  clean_text (clean_text text) = clean_text text /\
  (forall s, normalized s -> clean_text s = s).
Proof.
  pose proof (clean_text_chars text) as Hn.
  assert (Hfix : forall s, normalized s -> clean_text s = s).
  { intros s [Hc [-> | Hok]]; [reflexivity |].
    unfold clean_text. rewrite (lower_clean s Hc), (keep_clean s Hc).
    rewrite (collapse_clean s false Hc).
    - apply strip_clean, Hok.
    - destruct s as [| c s]; [discriminate |].
      cbn [spaced_ok] in *. destruct (isspace c); [discriminate | exact Hok]. }
  split; [exact Hn |]. split; [apply Hfix, Hn | exact Hfix].
Qed.

(** ** The keywords of a page *)

Lemma split_run_chars P s :
  all_chars P s = true ->
  all_chars (fun c => P c && negb (isspace c)) (fst (split_run s)) = true /\
  Forall (fun w => all_chars (fun c => P c && negb (isspace c)) w = true)
         (snd (split_run s)).
Proof.
  induction s as [| c s IH]; intros Hs; [split; [reflexivity | constructor] |].
  cbn [all_chars] in Hs. apply andb_true_iff in Hs as [Hc Hs].
  destruct (IH Hs) as [Hw Hws]. cbn [split_run].
  destruct (split_run s) as [w ws]. cbn [fst snd] in *.
  destruct (isspace c) eqn:Esp; cbn [fst snd].
  - split; [reflexivity |]. unfold cons_word.
    destruct (truthy w); [constructor |]; assumption.
  - split; [| assumption]. cbn [all_chars]. now rewrite Hc, Esp, Hw.
Qed.

Lemma split_chars P s :
  all_chars P s = true ->
  Forall (fun w => all_chars (fun c => P c && negb (isspace c)) w = true)
         (split s).
Proof.
  intros Hs. destruct (split_run_chars P s Hs) as [Hw Hws].
  unfold split. destruct (split_run s) as [w ws]. cbn [fst snd] in *.
  unfold cons_word. destruct (truthy w); [constructor |]; assumption.
Qed.

Lemma occurrences_filter (P : string -> bool) w l :
  P w = true -> occurrences w (filter P l) = occurrences w l.
Proof.
  intros Hw. unfold occurrences. f_equal.
  induction l as [| x l IH]; [reflexivity |].
  cbn [filter]. destruct (P x) eqn:Ex.
  - cbn [filter]. destruct (String.eqb w x); cbn [Datatypes.length]; now rewrite IH.
  - destruct (String.eqb w x) eqn:Ewx; [| exact IH].
    apply String.eqb_eq in Ewx. congruence.
Qed.

Lemma NoDup_firstn {A} (l : list A) n : NoDup l -> NoDup (firstn n l).
Proof.
  intros Hl. rewrite <- (firstn_skipn n l) in Hl.
  eapply NoDup_app_remove_r, Hl.
Qed.

Lemma most_common_keys_NoDup k c :
  NoDup (map fst c) -> NoDup (map fst (most_common k c)).
Proof.
  intros Hc. unfold most_common. rewrite <- firstn_map. apply NoDup_firstn.
  eapply Permutation_NoDup; [| exact Hc].
  apply Permutation_map. symmetry. apply sorted_desc_perm.
Qed.

(** The keywords [analyze_keywords] returns: none, or the top terms of
    the meaningful words of the cleaned text. *)
Lemma analyze_keywords_entries wc txt sc :
  fst (analyze_keywords wc txt sc) = [] \/
  (filter is_meaningful (cleaned_words txt) <> [] /\
   fst (analyze_keywords wc txt sc)
   = top_terms MAX_KEYWORDS_TO_SHOW (filter is_meaningful (cleaned_words txt))).
Proof.
  unfold analyze_keywords, keyword_entries, cleaned_words.
  destruct (0 <? wc); [| now left].
  destruct (filter is_meaningful (split (clean_text txt))) as [| w mw] eqn:Emw;
    [now left |].
  right. split; [discriminate |].
  destruct (top_terms MAX_KEYWORDS_TO_SHOW (w :: mw)); reflexivity.
Qed.

(** The keywords [analyze_on_page_content] reports are at most ten
    distinct words of the cleaned text of the page, none of them a stop
    word, each longer than two characters and made of lower-case word
    characters and hyphens, and each with the number of its occurrences
    among the words of the cleaned text. *)
Theorem top_keywords_are_meaningful_words `{Libs} (soup : node) :
  exists cd sc soup',
    analyze_on_page_content_scoring soup = Ok (cd, sc, soup') /\
    let words := cleaned_words (text_content cd) in
    (List.length (top_keywords cd) <= 10)%nat /\
    NoDup (map term (top_keywords cd)) /\
    Forall (fun e =>
              In (term e) words /\
              ~ In (term e) stop_words /\
              (2 < String.length (term e))%nat /\
              all_chars is_word_char (term e) = true /\
              count e = occurrences (term e) words /\
              0 < count e)
           (top_keywords cd).
Proof.
  destruct (content_points_bounds soup) as (cd & sc & soup' & E & _).
  exists cd, sc, soup'. split; [exact E |].
  apply content_analysis_data in E as (_ & _ & _ & _ & Hk & _).
  specialize (Hk sc). cbv zeta.
  destruct (analyze_keywords_entries (word_count cd) (text_content cd) sc)
    as [Hnil | [Hne Htop]]; rewrite Hk.
  { rewrite Hnil. repeat split; [cbn; lia | constructor | constructor]. }
  rewrite Htop. set (mw := filter is_meaningful _) in *.
  rewrite (top_terms_entries mw _ Hne).
  split; [| split].
  - rewrite length_map. unfold most_common, MAX_KEYWORDS_TO_SHOW.
    apply firstn_le_length.
  - rewrite map_map.
    rewrite (map_ext (fun x => term (entry mw x)) fst) by reflexivity.
    apply most_common_keys_NoDup. rewrite counter_of_keys. apply distinct_NoDup.
  - apply Forall_forall. intros e He.
    apply in_map_iff in He as ([w n] & <- & Hin).
    apply most_common_In in Hin.
    apply counter_of_entry in Hin as (Hw & Hn & Hpos & _).
    unfold term, count, entry. cbn [fst snd].
    unfold mw in Hw. apply filter_In in Hw as [Hw Hm].
    pose proof Hm as Hm'. unfold is_meaningful in Hm'.
    apply andb_true_iff in Hm' as [Hstop Hlen].
    repeat split.
    + exact Hw.
    + intros Hin. apply negb_true_iff in Hstop.
      assert (Ht : existsb (String.eqb w) stop_words = true).
      { apply existsb_exists. exists w. split; [exact Hin |].
        apply String.eqb_refl. }
      congruence.
    + apply Nat.ltb_lt, Hlen.
    + destruct (clean_text_chars (text_content cd)) as [Hc _].
      pose proof (split_chars _ _ Hc) as Hall.
      rewrite Forall_forall in Hall. apply (Hall w Hw).
    + rewrite Hn. unfold mw. apply occurrences_filter, Hm.
    + exact Hpos.
Qed.

(** ** The meta data and the scores derived from it *)

Lemma dict_get_set d k k' v :
  dict_get (dict_set d k' v) k
  = if String.eqb k' k then Some v else dict_get d k.
Proof.
  induction d as [| [k0 v0] d IH]; cbn [dict_set dict_get]; [reflexivity |].
  destruct (String.eqb k0 k') eqn:E0; cbn [dict_get].
  - apply String.eqb_eq in E0. subst k0.
    destruct (String.eqb k' k); reflexivity.
  - rewrite IH. destruct (String.eqb k0 k) eqn:E1; [| reflexivity].
    apply String.eqb_eq in E1. subst k0.
    rewrite String.eqb_sym, E0. reflexivity.
Qed.

Lemma md_get_set md k k' v :
  md_get (md_set md k' v) k
  = if String.eqb k' k then Some v else md_get md k.
Proof. unfold md_get, md_set. cbn [fields]. apply dict_get_set. Qed.

Lemma md_get_set_other md k k' v :
  String.eqb k' k = false -> md_get (md_set md k' v) k = md_get md k.
Proof. intros E. now rewrite md_get_set, E. Qed.

Section MetaData.
Context `{Libs}.
Variables (soup : node) (url : string).

(** What each check leaves of the fields it does not write. *)
Ltac solve_frame :=
  branch_on_matches; cbn [fst]; try reflexivity;
  repeat (rewrite md_get_set_other by assumption); reflexivity.

Lemma check_title_frame st k :
  String.eqb "title" k = false ->
  md_get (fst (check_title soup st)) k = md_get (fst st) k.
Proof. intros; destruct st; unfold check_title; solve_frame. Qed.

Lemma meta_name_check_frame nm key pts st k :
  String.eqb key k = false ->
  md_get (fst (meta_name_check soup nm key pts st)) k = md_get (fst st) k.
Proof. intros; destruct st; unfold meta_name_check; solve_frame. Qed.

Lemma check_canonical_frame st k :
  String.eqb "canonical" k = false ->
  md_get (fst (check_canonical soup url st)) k = md_get (fst st) k.
Proof. intros; destruct st; unfold check_canonical; solve_frame. Qed.

Lemma social_loop_frame key_attr p tags k :
  startswith k p = false ->
  Forall (fun t => attr_sat key_attr (fun x => truthy x && startswith x p) t
                   = true) tags ->
  forall md,
    md_get (fold_left (social_step key_attr) tags md) k = md_get md k.
Proof.
  intros Hk. induction 1 as [| t tags Ht _ IH]; intros md; [reflexivity |].
  cbn [fold_left]. rewrite IH. unfold social_step.
  unfold attr_sat in Ht.
  destruct (get t key_attr) as [prop |]; [| reflexivity].
  apply andb_true_iff in Ht as [_ Hp].
  destruct (get t "content") as [content |]; [| reflexivity].
  destruct (truthy prop && truthy content); [| reflexivity].
  apply md_get_set_other.
  destruct (String.eqb prop k) eqn:E; [| reflexivity].
  apply String.eqb_eq in E. subst prop. congruence.
Qed.

Lemma find_all_sat (p q : node -> bool) n :
  (forall t, p t = true -> q t = true) ->
  Forall (fun t => q t = true) (find_all p n).
Proof.
  intros Hpq. apply Forall_forall. intros t Ht.
  unfold find_all in Ht. apply filter_In in Ht as [_ Ht].
  apply andb_true_iff in Ht as [_ Ht]. auto.
Qed.

Lemma check_open_graph_frame st k :
  startswith k "og:" = false ->
  md_get (fst (check_open_graph soup st)) k = md_get (fst st) k.
Proof.
  intros Hk. destruct st as [md sc]. unfold check_open_graph.
  match goal with
  | |- context [fold_left _ ?tags md] =>
      assert (E : md_get (fold_left (social_step "property") tags md) k
                  = md_get md k)
  end.
  { apply (social_loop_frame "property" "og:"); [exact Hk |].
    apply find_all_sat. intros t Ht.
    apply andb_true_iff in Ht as [_ Ht]. exact Ht. }
  branch_on_matches; cbn [fst]; exact E.
Qed.

Lemma check_twitter_frame st k :
  startswith k "twitter:" = false ->
  md_get (fst (check_twitter soup st)) k = md_get (fst st) k.
Proof.
  intros Hk. destruct st as [md sc]. unfold check_twitter.
  match goal with
  | |- context [fold_left _ ?tags md] =>
      assert (E : md_get (fold_left (social_step "name") tags md) k
                  = md_get md k)
  end.
  { apply (social_loop_frame "name" "twitter:"); [exact Hk |].
    apply find_all_sat. intros t Ht.
    apply andb_true_iff in Ht as [_ Ht]. exact Ht. }
  branch_on_matches; cbn [fst]; exact E.
Qed.

Lemma check_viewport_frame st k :
  String.eqb "viewport" k = false ->
  md_get (fst (check_viewport soup st)) k = md_get (fst st) k.
Proof. intros; destruct st; unfold check_viewport; solve_frame. Qed.

Lemma check_author_frame st k :
  String.eqb "author" k = false ->
  md_get (fst (check_author soup st)) k = md_get (fst st) k.
Proof. intros; destruct st; unfold check_author; solve_frame. Qed.

Lemma check_charset_frame st k :
  String.eqb "charset" k = false ->
  md_get (fst (check_charset soup st)) k = md_get (fst st) k.
Proof. intros; destruct st; unfold check_charset; solve_frame. Qed.

Lemma check_language_frame st k :
  String.eqb "language" k = false ->
  md_get (fst (check_language soup st)) k = md_get (fst st) k.
Proof. intros; destruct st; unfold check_language; solve_frame. Qed.

Lemma check_favicon_frame st k :
  String.eqb "favicon" k = false ->
  md_get (fst (check_favicon soup url st)) k = md_get (fst st) k.
Proof.
  intros Hk; destruct st as [md sc]; unfold check_favicon.
  destruct (find_all _ soup) as [| first rest]; [reflexivity |].
  cbv zeta.
  match goal with
  | |- context [if truthy_opt (md_get ?m "favicon") then _ else _] =>
      assert (E : md_get m k = md_get md k) by solve_frame;
      destruct (truthy_opt (md_get m "favicon")); cbn [fst]; exact E
  end.
Qed.

Lemma check_alternate_frame st k :
  md_get (fst (check_alternate soup url st)) k = md_get (fst st) k.
Proof.
  destruct st as [md sc]. unfold check_alternate. cbv zeta.
  match goal with
  | |- context [fold_left ?f ?l md] =>
      assert (E : fields (fold_left f l md) = fields md)
        by (generalize md; generalize l; intros l0;
            induction l0 as [| t l0 IH]; intros md0;
            [reflexivity | cbn [fold_left]; rewrite IH; reflexivity]);
      destruct (alternate (fold_left f l md)); cbn [fst];
      unfold md_get; now rewrite E
  end.
Qed.

(** The points of the two social checks, from the fields they leave. *)
Lemma check_open_graph_points st :
  points (snd (check_open_graph soup st))
  = points (snd st)
    + (if all_truthy (fst (check_open_graph soup st)) og_keys then 3 else 0).
Proof.
  destruct st as [md sc]. unfold check_open_graph, og_keys. cbv zeta.
  match goal with
  | |- context [if ?b then _ else _] => destruct b eqn:E
  end; cbn [fst snd add_points points]; rewrite E; lia.
Qed.

Lemma check_twitter_points st :
  points (snd (check_twitter soup st))
  = points (snd st)
    + (if all_truthy (fst (check_twitter soup st)) twitter_keys then 2 else 0).
Proof.
  destruct st as [md sc]. unfold check_twitter, twitter_keys. cbv zeta.
  match goal with
  | |- context [if ?b then _ else _] => destruct b eqn:E
  end; cbn [fst snd add_points points]; rewrite E; lia.
Qed.

Lemma all_truthy_ext md md' keys :
  Forall (fun k => md_get md' k = md_get md k) keys ->
  all_truthy md' keys = all_truthy md keys.
Proof.
  unfold all_truthy. induction 1 as [| k keys Hk _ IH]; [reflexivity |].
  cbn [forallb]. now rewrite Hk, IH.
Qed.

(** The checks after the two social ones leave the fields with the
    prefixes [og:] and [twitter:] as they find them. *)
Lemma later_checks_frame st k :
  String.eqb "viewport" k = false -> String.eqb "author" k = false ->
  String.eqb "charset" k = false -> String.eqb "language" k = false ->
  String.eqb "favicon" k = false ->
  md_get (fst (check_alternate soup url
                 (check_favicon soup url
                    (check_language soup
                       (check_charset soup
                          (check_author soup (check_viewport soup st))))))) k
  = md_get (fst st) k.
Proof.
  intros. rewrite check_alternate_frame, check_favicon_frame,
    check_language_frame, check_charset_frame, check_author_frame,
    check_viewport_frame by assumption.
  reflexivity.
Qed.

(** The points of [analyze_meta_tags]: those of the two social checks, as
    the final meta data shows them, and at most 23 more. *)
Lemma meta_points_social :
  let md := fst (analyze_meta_tags_scoring soup url) in
  let sc := snd (analyze_meta_tags_scoring soup url) in
  exists rest,
    points sc = social_points md + rest /\ 0 <= rest <= 23.
Proof.
  unfold analyze_meta_tags_scoring.
  set (st0 := ({| fields := []; alternate := [] |},
               {| points := 0; max_points := 28 |})).
  pose proof (check_title_gains soup st0) as G1.
  set (st1 := check_title soup st0) in *.
  pose proof (meta_name_check_gains soup "description" "description" 4 st1
                ltac:(lia)) as G2.
  set (st2 := meta_name_check soup _ _ 4 st1) in *.
  pose proof (meta_name_check_gains soup "keywords" "keywords" 0 st2
                ltac:(lia)) as G3.
  set (st3 := meta_name_check soup _ _ 0 st2) in *.
  pose proof (meta_name_check_gains soup "robots" "robots" 1 st3
                ltac:(lia)) as G4.
  set (st4 := meta_name_check soup _ _ 1 st3) in *.
  pose proof (check_canonical_gains soup url st4) as G5.
  set (st5 := check_canonical soup url st4) in *.
  pose proof (check_open_graph_points st5) as G6.
  set (st6 := check_open_graph soup st5) in *.
  pose proof (check_twitter_points st6) as G7.
  assert (F6 : all_truthy (fst (check_twitter soup st6)) og_keys
               = all_truthy (fst st6) og_keys).
  { apply all_truthy_ext. unfold og_keys.
    repeat constructor; apply check_twitter_frame; reflexivity. }
  set (st7 := check_twitter soup st6) in *.
  pose proof (check_viewport_gains soup st7) as G8.
  pose proof (later_checks_frame st7) as F.
  set (st8 := check_viewport soup st7) in *.
  pose proof (check_author_gains soup st8) as G9.
  set (st9 := check_author soup st8) in *.
  pose proof (check_charset_gains soup st9) as G10.
  set (st10 := check_charset soup st9) in *.
  pose proof (check_language_gains soup st10) as G11.
  set (st11 := check_language soup st10) in *.
  pose proof (check_favicon_gains soup url st11) as G12.
  set (st12 := check_favicon soup url st11) in *.
  pose proof (check_alternate_gains soup url st12) as G13.
  set (st13 := check_alternate soup url st12) in *.
  cbv zeta.
  assert (Eog : all_truthy (fst st13) og_keys = all_truthy (fst st6) og_keys).
  { rewrite <- F6. apply all_truthy_ext. unfold og_keys.
    repeat constructor; apply F; reflexivity. }
  assert (Etw : all_truthy (fst st13) twitter_keys
                = all_truthy (fst st7) twitter_keys).
  { apply all_truthy_ext. unfold twitter_keys.
    repeat constructor; apply F; reflexivity. }
  unfold social_points. fold og_keys twitter_keys. rewrite Eog, Etw.
  unfold gains in *. cbn [snd st0 points] in G1.
  exists (points (snd st13) - points (snd st7)
          + (points (snd st5) - points (snd st0))).
  cbn [snd st0 points].
  destruct (all_truthy (fst st6) og_keys), (all_truthy (fst st7) twitter_keys);
    lia.
Qed.

(** The viewport the meta data ends with is the one of the viewport tag. *)
Lemma meta_data_viewport :
  md_get (fst (analyze_meta_tags_scoring soup url)) "viewport"
  = option_map strip
      (tag_get_truthy (find_meta_named soup "viewport") "content").
Proof.
  unfold analyze_meta_tags_scoring. cbv zeta.
  rewrite check_alternate_frame, check_favicon_frame, check_language_frame,
    check_charset_frame, check_author_frame by reflexivity.
  match goal with
  | |- md_get (fst (check_viewport soup ?st)) _ = _ =>
      assert (E : md_get (fst st) "viewport" = None)
        by (rewrite check_twitter_frame, check_open_graph_frame,
              check_canonical_frame, !meta_name_check_frame,
              check_title_frame by reflexivity; reflexivity);
      destruct st as [md sc]
  end.
  cbn [fst] in E. unfold check_viewport.
  destruct (tag_get_truthy _ "content") as [content |]; cbn [option_map].
  - branch_on_matches; cbn [fst]; rewrite md_get_set; reflexivity.
  - exact E.
Qed.

End MetaData.

(** The social score is derived from the points of the meta analysis: the
    points of [analyze_meta_tags] are the social points of the main flow
    (3 for the three Open Graph fields, 2 for the three Twitter fields, as
    the meta data ends with them) and at most 23 more for the other
    checks; the social score is 20 times the social points, and it is 100
    exactly when the six fields are all recorded and not empty. *)
Theorem social_score_within_meta_points `{Libs} (soup : node) (url : string) :
  let md := fst (analyze_meta_tags_scoring soup url) in
  let sc := snd (analyze_meta_tags_scoring soup url) in
  (exists rest, points sc = social_points md + rest /\ 0 <= rest <= 23) /\
  0 <= social_points md <= 5 /\
  social_score md == inject_Z (20 * social_points md) /\
  (social_score md == 100 <->
   all_truthy md (og_keys ++ twitter_keys) = true).
Proof.
  cbv zeta. split; [apply meta_points_social |].
  set (md := fst (analyze_meta_tags_scoring soup url)).
  assert (Hs : social_score md == inject_Z (20 * social_points md)).
  { unfold social_score. cbn [Z.ltb Z.compare].
    rewrite inject_Z_mult. change (inject_Z 5) with 5%Q.
    change (inject_Z 20) with 20%Q. field. }
  assert (Hall : all_truthy md (og_keys ++ twitter_keys)
                 = all_truthy md og_keys && all_truthy md twitter_keys).
  { unfold all_truthy. apply forallb_app. }
  rewrite Hs, Hall. unfold social_points. fold og_keys twitter_keys.
  split; [| split; [reflexivity |]].
  - destruct (all_truthy md og_keys), (all_truthy md twitter_keys); lia.
  - destruct (all_truthy md og_keys), (all_truthy md twitter_keys);
      cbn [andb Z.add Z.mul]; split; intros E;
      try reflexivity; try discriminate E.
Qed.

(** The mobile check of [analyze_technical_seo] and the viewport check of
    [analyze_meta_tags] grade the same text by the same two conditions:
    the stripped content of the viewport tag of the document, for 5, 2 or
    0 points and the status good, warning or bad of the first, and for 3,
    1 or 0 points of the second. *)
Theorem mobile_check_agrees_with_viewport_check `{Libs} (soup : node)
    (url : string) :
  let md := fst (analyze_meta_tags_scoring soup url) in
  let v := viewport_content soup in
  (forall sc,
      points (snd (check_mobile md sc)) = points sc + viewport_grade 5 2 0 v /\
      mf_status (fst (check_mobile md sc))
      = (if contains "width=device-width" v
         then if contains "initial-scale=1" v then "good" else "warning"
         else "bad")) /\
  (forall st,
      points (snd (check_viewport soup st))
      = points (snd st) + viewport_grade 3 1 0 v).
Proof.
  cbv zeta. split.
  - intros sc. unfold check_mobile. rewrite meta_data_viewport.
    unfold viewport_content, viewport_grade.
    destruct (tag_get_truthy _ "content") as [content |]; cbn [option_map].
    + destruct (strip content) as [| c s] eqn:Es; cbn [truthy].
      * cbn. split; [lia | reflexivity].
      * destruct (contains "width=device-width" (String c s)),
          (contains "initial-scale=1" (String c s));
          cbn [andb fst snd add_points points mf_status]; split;
          try reflexivity; lia.
    + cbn. split; [lia | reflexivity].
  - intros [md sc]. unfold check_viewport, viewport_content, viewport_grade.
    destruct (tag_get_truthy _ "content") as [content |].
    + destruct (contains "width=device-width" (strip content)),
        (contains "initial-scale=1" (strip content));
        cbn [andb fst snd add_points points]; lia.
    + cbn. lia.
Qed.

(** ** The schema markup *)


